(** * The weighted 15-puzzle solver of [BPASourceCodeFile.py]

    A shallow embedding of the puzzle state model ([PuzzleState]), its
    cost and heuristic functions, the expansion step and the best-first
    search driver ([solve]), followed by the properties of the
    specification that are stated about them.

    Python integers are [Z]; Python lists are [list]; a Python value that
    may be [None] is an [option]; a Python exception is the [Raise]
    outcome of [result]; a [while] loop takes a fuel argument and running
    out of it is the [OutOfFuel] outcome. *)

From stdpp Require Import base relations list list_numbers strings.
From Stdlib Require Import ZArith Lia.

Local Open Scope Z_scope.

(** ** Outcomes of Python code *)

Inductive exn : Type :=
  | TypeError
  | IndexError
  | ValueError
  | AttributeError.

Inductive result (A : Type) : Type :=
  | Ok (a : A)
  | Raise (e : exn)
  | OutOfFuel.

Arguments Ok {A} a.
Arguments Raise {A} e.
Arguments OutOfFuel {A}.

Definition rbind {A B : Type} (r : result A) (k : A -> result B) : result B :=
  match r with
  | Ok a => k a
  | Raise e => Raise e
  | OutOfFuel => OutOfFuel
  end.

Notation "'do' x <- r ; k" := (rbind r (fun x => k))
  (at level 10, x name, r at level 100, k at level 200).
Notation "'do' ' p <- r ; k" := (rbind r (fun x => let 'p := x in k))
  (at level 10, p pattern, r at level 100, k at level 200).

(** A value that must not be [None] where it is used: arithmetic on
    [None] and unpacking [None] both raise [TypeError]. *)
Definition not_None {A : Type} (o : option A) : result A :=
  match o with
  | Some a => Ok a
  | None => Raise TypeError
  end.

(** ** Python lists *)

(** [l[i]]: a negative index counts from the end, once. *)
Definition py_index {A : Type} (l : list A) (i : Z) : result nat :=
  let n := Z.of_nat (length l) in
  let j := if i <? 0 then i + n else i in
  if (j <? 0) || (n <=? j) then Raise IndexError else Ok (Z.to_nat j).

Definition py_getitem {A : Type} (l : list A) (i : Z) : result A :=
  do j <- py_index l i;
  match l !! j with
  | Some x => Ok x
  | None => Raise IndexError
  end.

(** [l[i] = x] *)
Definition py_setitem {A : Type} (l : list A) (i : Z) (x : A) : result (list A) :=
  do j <- py_index l i;
  Ok (<[j := x]> l).

(** [l[a:b]] for [0 <= a <= b] *)
Definition py_slice {A : Type} (l : list A) (a b : nat) : list A :=
  take (b - a) (drop a l).

(** [range(a, b)] *)
Definition range (a b : Z) : list Z := seqZ a (b - a).

(** [l.index(v)]; [None] stands for the [ValueError] of a missing value. *)
Fixpoint index (l : list Z) (v : Z) : option nat :=
  match l with
  | [] => None
  | x :: l' => if x =? v then Some 0%nat else S <$> index l' v
  end.

Definition list_eqb (l1 l2 : list Z) : bool := bool_decide (l1 = l2).

(** ** Board model *)

Definition to_2d_array (one_d_board : list Z) : list (list Z) :=
  map (fun i => py_slice one_d_board (i * 4) ((i + 1) * 4))
      (seq 0 ((length one_d_board + 4 - 1) / 4)).

(** [None] is Python's [None], returned when no branch applies. *)
Definition val_multiplier (val : Z) : option Z :=
  if val =? 0 then Some 0
  else if (0 <? val) && (val <? 10) then Some 1
  else if (10 <=? val) && (val <=? 15) then Some 10
  else None.

#[local] Set Warnings "-register-all".

Inductive PuzzleState : Type := mkPuzzleState {
  parent_id : option Z;
  id_no : Z;
  board_state_1d : list Z;
  board_state : list (list Z);
  goal_puzzle_state : option PuzzleState;
  h1_of_n : Z;
  h2_of_n : Z;
  g_of_n : Z;
  f1_of_n : Z;
  f2_of_n : Z;
  depth : Z
}.

(** The four keys of the [dirs] dictionary of [move]; [expand] passes
    no other string to [move]. *)
Inductive direction : Type := up | right | down | left.

Definition dirs (d : direction) : Z :=
  match d with
  | up => -4
  | right => 1
  | down => 4
  | left => -1
  end.

(** [find]: the inner and the outer loop over [range(4)]. *)
Fixpoint find_cols (board_state : list (list Z)) (val row : Z) (cols : list Z)
  : result (option (Z * Z)) :=
  match cols with
  | [] => Ok None
  | col :: cols' =>
      do r <- py_getitem board_state row;
      do x <- py_getitem r col;
      if x =? val then Ok (Some (row, col))
      else find_cols board_state val row cols'
  end.

Fixpoint find_rows (board_state : list (list Z)) (val : Z) (rows : list Z)
  : result (option (Z * Z)) :=
  match rows with
  | [] => Ok None
  | row :: rows' =>
      do found <- find_cols board_state val row (range 0 4);
      match found with
      | Some p => Ok (Some p)
      | None => find_rows board_state val rows'
      end
  end.

Definition find (board_state : list (list Z)) (val : Z) : result (option (Z * Z)) :=
  find_rows board_state val (range 0 4).

Definition move_cost (self_board_1d : list Z) (target_pos : Z) : result (option Z) :=
  do val_being_moved <- py_getitem self_board_1d target_pos;
  if (0 <? val_being_moved) && (val_being_moved <? 10) then Ok (Some 1)
  else if (10 <=? val_being_moved) && (val_being_moved <=? 15) then Ok (Some 10)
  else Ok None.

(** The loop of [estimated_cost_to_goal_h2] over [range(1, 16)]. *)
Fixpoint h2_loop (cur goal : list (list Z)) (pieces : list Z) (total : Z) : result Z :=
  match pieces with
  | [] => Ok total
  | piece :: pieces' =>
      do cur_pos <- find cur piece;
      do '(cur_row, cur_col) <- not_None cur_pos;
      do goal_pos <- find goal piece;
      do '(goal_row, goal_col) <- not_None goal_pos;
      do multiplier <- not_None (val_multiplier piece);
      let difference :=
        multiplier * (Z.abs (goal_row - cur_row) + Z.abs (goal_col - cur_col)) in
      h2_loop cur goal pieces' (total + difference)
  end.

Definition estimated_cost_to_goal_h2
  (self_board_state : list (list Z)) (self_goal : option PuzzleState) : result Z :=
  match self_goal with
  | None => Ok 0
  | Some g => h2_loop self_board_state g.(board_state) (range 1 16) 0
  end.

(** The allocation state: the number of [PuzzleState] objects built so
    far. *)
Definition M (A : Type) : Type := nat -> result (A * nat).

Definition mret {A : Type} (a : A) : M A := fun s => Ok (a, s).

Definition mbind {A B : Type} (m : M A) (k : A -> M B) : M B :=
  fun s => do '(a, s') <- m s; k a s'.

Notation "'run' x <- m ; k" := (mbind m (fun x => k))
  (at level 10, x name, m at level 100, k at level 200).

Fixpoint mapM {A B : Type} (f : A -> M B) (l : list A) : M (list B) :=
  match l with
  | [] => mret []
  | a :: l' => run b <- f a; run bs <- mapM f l'; mret (b :: bs)
  end.

(** ** Heap entries and the frontier

    [heapq] keeps [open_list] as a binary heap of tuples
    [(priority, id_no, state)]; the search only observes which entry
    [heappop] hands back, the least one in tuple order.  The frontier is
    kept as the list of its entries, [heappush] adds one and [heappop]
    takes the least out.  Tuples are ordered by priority, then by
    [id_no]; the states themselves would be compared only between two
    entries of equal priority and equal [id_no], and identities do not
    repeat. *)

Definition entry : Type := Z * Z * PuzzleState.

Definition entry_lt (a b : entry) : bool :=
  let '(p1, i1, _) := a in
  let '(p2, i2, _) := b in
  (p1 <? p2) || ((p1 =? p2) && (i1 <? i2)).

Definition heappush (open_list : list entry) (e : entry) : list entry :=
  e :: open_list.

Fixpoint take_min (best : entry) (rest : list entry) : entry * list entry :=
  match rest with
  | [] => (best, [])
  | x :: rest' =>
      if entry_lt x best
      then let '(m, r) := take_min x rest' in (m, best :: r)
      else let '(m, r) := take_min best rest' in (m, x :: r)
  end.

Definition heappop (open_list : list entry) : result (entry * list entry) :=
  match open_list with
  | [] => Raise IndexError
  | e :: es => Ok (take_min e es)
  end.

(** What [print_success_message] prints. *)
Record Report : Type := mkReport {
  rep_method : string;
  rep_path : list PuzzleState;
  rep_moves : Z;
  rep_added : Z;
  rep_closed : Z
}.

Definition get_parent_state (state : PuzzleState) (closed_list : list PuzzleState)
  : option PuzzleState :=
  List.find (fun closed_state =>
               bool_decide (Some (closed_state.(id_no)) = state.(parent_id)))
            closed_list.

Section Solver.

(** [id(self)]: the identity of the [k]-th object built.  All states stay
    alive in the open or the closed list, so identities never repeat. *)
Variable id_of : nat -> Z.

(** [a is b] on integers: identity implies equality, and CPython shares
    one object per small integer. *)
Variable int_is : Z -> Z -> bool.

(** The loop of [estimated_cost_to_goal_h1] over
    [enumerate(self.board_state_1d)]. *)
Fixpoint h1_loop (pieces : list Z) (idx : Z) (goal_1d : list Z) (count : Z) : result Z :=
  match pieces with
  | [] => Ok count
  | piece :: pieces' =>
      do goal_piece <- py_getitem goal_1d idx;
      if negb (int_is piece goal_piece)
      then do multiplier <- not_None (val_multiplier piece);
           h1_loop pieces' (idx + 1) goal_1d (count + multiplier)
      else h1_loop pieces' (idx + 1) goal_1d count
  end.

Definition estimated_cost_to_goal_h1
  (self_board_1d : list Z) (self_goal : option PuzzleState) : result Z :=
  match self_goal with
  | None => Ok 0
  | Some g =>
      do count <- h1_loop self_board_1d 0 g.(board_state_1d) 0;
      Ok (count - 1)
  end.

(** [PuzzleState.__init__] *)
Definition PuzzleState_init (board_state_1d : list Z) (goal_state : option PuzzleState)
  (parent_id : option Z) (depth cost_so_far : Z) : M PuzzleState :=
  fun s =>
    let id_no := id_of s in
    let board_state := to_2d_array board_state_1d in
    do h1 <- estimated_cost_to_goal_h1 board_state_1d goal_state;
    do h2 <- estimated_cost_to_goal_h2 board_state goal_state;
    Ok (mkPuzzleState parent_id id_no board_state_1d board_state goal_state
          h1 h2 cost_so_far (cost_so_far + h1) (cost_so_far + h2) depth,
        S s).

Definition move (self : PuzzleState) (d : direction) : M PuzzleState :=
  fun s =>
    match index self.(board_state_1d) 0 with
    | None => Raise ValueError
    | Some zp =>
        let zero_pos := Z.of_nat zp in
        let target_pos := zero_pos + dirs d in
        let new_board := self.(board_state_1d) in
        do cost <- move_cost self.(board_state_1d) target_pos;
        do cost <- not_None cost;
        let cost_so_far := self.(g_of_n) + cost in
        do at_target <- py_getitem new_board target_pos;
        do at_zero <- py_getitem new_board zero_pos;
        do new_board <- py_setitem new_board zero_pos at_target;
        do new_board <- py_setitem new_board target_pos at_zero;
        PuzzleState_init new_board self.(goal_puzzle_state) (Some self.(id_no))
          (self.(depth) + 1) cost_so_far s
    end.

Definition valid_moves (row col : Z) : list direction :=
  (if 0 <? row then [up] else []) ++
  (if row <? 3 then [down] else []) ++
  (if 0 <? col then [left] else []) ++
  (if col <? 3 then [right] else []).

Definition expand (self : PuzzleState) : M (list PuzzleState) :=
  fun s =>
    do pos <- find self.(board_state) 0;
    do '(row, col) <- not_None pos;
    mapM (move self) (valid_moves row col) s.

(** The [while] loop of [get_state_path]. A parent that is not found is
    [None], appended to the path, and the next test of the loop reads
    [None.depth]. *)
Fixpoint get_state_path_loop (fuel : nat) (cur_state : PuzzleState)
  (path closed_list : list PuzzleState) : result (list PuzzleState) :=
  if negb (int_is cur_state.(depth) 0) then
    match fuel with
    | O => OutOfFuel
    | S fuel' =>
        match get_parent_state cur_state closed_list with
        | None => Raise AttributeError
        | Some parent_state =>
            get_state_path_loop fuel' parent_state (path ++ [parent_state]) closed_list
        end
    end
  else Ok path.

Definition get_state_path (fuel : nat) (end_state : PuzzleState)
  (closed_list : list PuzzleState) : result (list PuzzleState) :=
  get_state_path_loop fuel end_state [end_state] closed_list.

Definition print_success_message (fuel : nat) (end_state : PuzzleState)
  (closed_list : list PuzzleState) (added_to_open_list : Z) (method : string)
  : result Report :=
  do path <- get_state_path fuel end_state closed_list;
  Ok (mkReport method path (Z.of_nat (length path) - 1) added_to_open_list
        (Z.of_nat (length closed_list))).

(** The [for new_state in expansions] loop of [solve]. *)
Fixpoint push_expansions (method : string) (expansions : list PuzzleState)
  (open_list : list entry) (added_to_open_list : Z) : list entry * Z :=
  match expansions with
  | [] => (open_list, added_to_open_list)
  | new_state :: expansions' =>
      let added_to_open_list := added_to_open_list + 1 in
      let open_list :=
        if String.eqb method "bfs"
        then heappush open_list (new_state.(depth), new_state.(id_no), new_state)
        else if String.eqb method "a_star_h1"
        then heappush open_list (new_state.(f1_of_n), new_state.(id_no), new_state)
        else if String.eqb method "a_star_h2"
        then heappush open_list (new_state.(f2_of_n), new_state.(id_no), new_state)
        else open_list in
      push_expansions method expansions' open_list added_to_open_list
  end.

(** The [while not has_solved] loop of [solve]; [fuel] bounds its
    iterations and [pfuel] those of the path reconstruction. *)
Fixpoint solve_loop (fuel pfuel : nat) (goal_board : list Z) (method : string)
  (open_list : list entry) (closed_list : list PuzzleState) (added_to_open_list : Z)
  : M Report :=
  match fuel with
  | O => fun _ => OutOfFuel
  | S fuel' => fun s =>
      do '(popped, open_list) <- heappop open_list;
      let cur_state := popped.2 in
      if list_eqb cur_state.(board_state_1d) goal_board then
        do report <- print_success_message pfuel cur_state closed_list
                    added_to_open_list method;
        Ok (report, s)
      else
        let closed_list := closed_list ++ [cur_state] in
        do '(expansions, s) <- expand cur_state s;
        let '(open_list, added_to_open_list) :=
          push_expansions method expansions open_list added_to_open_list in
        solve_loop fuel' pfuel goal_board method open_list closed_list
          added_to_open_list s
  end.

Definition solve (fuel pfuel : nat) (start_board goal_board : list Z) (method : string)
  : M Report :=
  fun s =>
    do '(goal_state, s) <- PuzzleState_init goal_board None None 0 0 s;
    do '(start_state, s) <- PuzzleState_init start_board (Some goal_state) None 0 0 s;
    let open_list := heappush [] (0, start_state.(id_no), start_state) in
    solve_loop fuel pfuel goal_board method open_list [] 0 s.

(** The variables of the loop of [solve]: the open list, the closed
    list, the count of states added to the open list, and the count of
    states built. *)
Definition loop_state : Type := list entry * list PuzzleState * Z * nat.

(** One pass of the loop body that goes round again: a state is popped,
    its board is not the goal board, it is put on the closed list and
    expanded, and its expansions are pushed.  Nothing else is read. *)
Inductive loop_step (goal_board : list Z) (method : string)
  : loop_state -> loop_state -> Prop :=
  | loop_step_intro (open_list open' open'' : list entry) (popped : entry)
      (closed_list : list PuzzleState) (added added' : Z) (s s' : nat)
      (expansions : list PuzzleState) :
      heappop open_list = Ok (popped, open') ->
      popped.2.(board_state_1d) <> goal_board ->
      expand popped.2 s = Ok (expansions, s') ->
      push_expansions method expansions open' added = (open'', added') ->
      loop_step goal_board method
        (open_list, closed_list, added, s)
        (open'', closed_list ++ [popped.2], added', s').

(** The states that expansion produces, and reaches. *)
Inductive expands_to : PuzzleState -> PuzzleState -> Prop :=
  | expands_to_intro (n : PuzzleState) (s s' : nat) (cs : list PuzzleState)
      (c : PuzzleState) :
      expand n s = Ok (cs, s') -> c ∈ cs -> expands_to n c.

End Solver.

(** ** Vocabulary of the specification *)

(** A board: the sixteen values 0..15, each once. *)
Definition is_board (b : list Z) : Prop := b ≡ₚ range 0 16.

(** [tile_weight]: 0 for the blank, 1 for tiles 1-9, 10 for tiles 10-15. *)
Definition tile_weight (value : Z) : Z :=
  if value =? 0 then 0
  else if (1 <=? value) && (value <=? 9) then 1
  else if (10 <=? value) && (value <=? 15) then 10
  else 0.

Definition Zsum (l : list Z) : Z := foldr Z.add 0 l.

(** h1 in the words of the specification: over the 16 positions, the
    weights of the tiles of [B] that differ from the tile of [G] there,
    minus 1. *)
Definition mismatch_weight (B G : list Z) (i : nat) : Z :=
  if decide (nth i B 0 = nth i G 0) then 0 else tile_weight (nth i B 0).

Definition h1_spec (B G : list Z) : Z :=
  Zsum (map (mismatch_weight B G) (seq 0 16)) - 1.

(** The position of a tile on a board, as (row, col) of the row-major
    4x4 view. *)
Definition pos_of (B : list Z) (v : Z) : Z * Z :=
  let i := Z.of_nat (default 0%nat (index B v)) in (i / 4, i mod 4).

Arguments pos_of : simpl never.

Definition manhattan (p q : Z * Z) : Z :=
  Z.abs (q.1 - p.1) + Z.abs (q.2 - p.2).

(** h2 in the words of the specification. *)
Definition h2_spec (B G : list Z) : Z :=
  Zsum (map (fun v => tile_weight v * manhattan (pos_of B v) (pos_of G v))
            (range 1 16)).


(** A direction is valid when it keeps the blank inside the grid. *)
Definition dir_ok (row col : Z) (d : direction) : bool :=
  match d with
  | up => 0 <? row
  | down => row <? 3
  | left => 0 <? col
  | right => col <? 3
  end.

(** Where the blank is after a move. *)
Definition step_pos (row col : Z) (d : direction) : Z * Z :=
  match d with
  | up => (row - 1, col)
  | down => (row + 1, col)
  | left => (row, col - 1)
  | right => (row, col + 1)
  end.

(** One move on a board: the tile next to the blank in direction [d]
    slides into the blank. *)
Definition slide (b : list Z) (d : direction) : option (list Z) :=
  match index b 0 with
  | Some zp =>
      if dir_ok (Z.of_nat zp / 4) (Z.of_nat zp mod 4) d then
        let tp := Z.to_nat (Z.of_nat zp + dirs d) in
        match b !! tp with
        | Some t => Some (<[tp := 0]> (<[zp := t]> b))
        | None => None
        end
      else None
  | None => None
  end.

(** The tile that a move slides, read on the board before the move. *)
Definition moved_tile (b : list Z) (d : direction) : Z :=
  match index b 0 with
  | Some zp => nth (Z.to_nat (Z.of_nat zp + dirs d)) b 0
  | None => 0
  end.

(** A sequence of moves, and its total cost. *)
Fixpoint slides (b : list Z) (ds : list direction) : option (list Z) :=
  match ds with
  | [] => Some b
  | d :: ds' =>
      match slide b d with
      | Some b' => slides b' ds'
      | None => None
      end
  end.

Fixpoint path_cost (b : list Z) (ds : list direction) : Z :=
  match ds with
  | [] => 0
  | d :: ds' =>
      match slide b d with
      | Some b' => tile_weight (moved_tile b d) + path_cost b' ds'
      | None => 0
      end
  end.

(** The invariant that [__init__] gives every state: the board is a
    board, the 4x4 view is the view of the board, and the goal, when
    there is one, is such a state too. *)
Definition wf_goal (g : option PuzzleState) : Prop :=
  match g with
  | None => True
  | Some gs =>
      is_board gs.(board_state_1d) /\
      gs.(board_state) = to_2d_array gs.(board_state_1d)
  end.

Definition wf_state (n : PuzzleState) : Prop :=
  is_board n.(board_state_1d) /\
  n.(board_state) = to_2d_array n.(board_state_1d) /\
  wf_goal n.(goal_puzzle_state).

(** [c] is the successor of [n] in direction [d]. *)
Definition child_of (n : PuzzleState) (d : direction) (c : PuzzleState) : Prop :=
  slide n.(board_state_1d) d = Some c.(board_state_1d) /\
  c.(parent_id) = Some n.(id_no) /\
  c.(goal_puzzle_state) = n.(goal_puzzle_state) /\
  c.(g_of_n) = n.(g_of_n) + tile_weight (moved_tile n.(board_state_1d) d) /\
  c.(depth) = n.(depth) + 1.

Definition all_directions : list direction := [up; down; left; right].

Definition blank_count (b : list Z) : nat := length (filter (fun v => v = 0) b).


(** The boards that a sequence of moves visits, the first one included. *)
Fixpoint trace (b : list Z) (ds : list direction) : list (list Z) :=
  b :: match ds with
       | [] => []
       | d :: ds' =>
           match slide b d with
           | Some b' => trace b' ds'
           | None => []
           end
       end.

(** The least cost of a sequence of exactly [k] moves from [b] to
    [goal], if there is one. *)
Definition opt_min (x y : option Z) : option Z :=
  match x, y with
  | Some a, Some c => Some (Z.min a c)
  | Some a, None => Some a
  | None, y => y
  end.

Fixpoint min_cost_at (goal : list Z) (k : nat) (b : list Z) : option Z :=
  match k with
  | O => if list_eqb b goal then Some 0 else None
  | S k' =>
      foldr (fun d acc =>
               match slide b d with
               | Some b' =>
                   opt_min ((fun c => tile_weight (moved_tile b d) + c)
                              <$> min_cost_at goal k' b') acc
               | None => acc
               end)
            None all_directions
  end.

(** ** The state of the search *)

Definition frontier (open_list : list entry) : list PuzzleState :=
  snd <$> open_list.

(** A bound on the states of depth at most [k] below a state: it has at
    most four successors. *)
Fixpoint subtree_size (j : nat) : nat :=
  match j with
  | O => 1
  | S j' => 1 + 4 * subtree_size j'
  end.

Definition node_measure (k : Z) (n : PuzzleState) : nat :=
  if n.(depth) <=? k then subtree_size (Z.to_nat (k - n.(depth))) else 0.

Definition frontier_measure (k : Z) (open_list : list entry) : nat :=
  sum_list_with (fun e => node_measure k e.2) open_list.

(** A state is the root, or its parent is found in the closed list and
    the state is a successor of it. *)
Definition node_ok (start : list Z) (closed_list : list PuzzleState)
  (n : PuzzleState) : Prop :=
  0 <= n.(depth) /\
  ((n.(depth) = 0 /\ n.(board_state_1d) = start /\ n.(g_of_n) = 0) \/
   (exists (par : PuzzleState) (d : direction),
      get_parent_state n closed_list = Some par /\ par ∈ closed_list /\
      child_of par d n)).

(** The invariant of the loop of [solve]. *)
Record search_inv (id_of : nat -> Z) (start goal : list Z) (counter : nat)
  (open_list : list entry) (closed_list : list PuzzleState) : Prop := {
  inv_keys : forall (p i : Z) (n : PuzzleState),
    (p, i, n) ∈ open_list -> p = n.(depth) /\ i = n.(id_no);
  inv_wf : forall n, n ∈ frontier open_list ++ closed_list -> wf_state n;
  inv_ids : forall n, n ∈ frontier open_list ++ closed_list ->
    exists k : nat, (k < counter)%nat /\ n.(id_no) = id_of k;
  inv_nodup : NoDup (id_no <$> frontier open_list ++ closed_list);
  inv_linked : forall n, n ∈ frontier open_list ++ closed_list ->
    node_ok start closed_list n;
  inv_cover : forall (ds : list direction) (b : list Z),
    slides start ds = Some b ->
    (exists (q r : list direction) (n : PuzzleState),
       ds = q ++ r /\ n ∈ frontier open_list /\
       slides start q = Some n.(board_state_1d) /\
       n.(depth) = Z.of_nat (length q)) \/
    (exists n, n ∈ closed_list /\ n.(board_state_1d) = b);
  inv_closed : forall n, n ∈ closed_list -> n.(board_state_1d) <> goal
}.

(** What the report of a search says about the puzzle: its path is the
    trace, goal first, of a sequence [ds] of moves from [start] to
    [goal]; the number of moves is the length of [ds] and the g of the
    end state its cost; no sequence of moves from [start] to [goal] is
    shorter. *)
Definition shortest_report (start goal : list Z) (rep : Report)
  (ds : list direction) : Prop :=
  slides start ds = Some goal /\
  board_state_1d <$> rep.(rep_path) = reverse (trace start ds) /\
  rep.(rep_moves) = Z.of_nat (length rep.(rep_path)) - 1 /\
  rep.(rep_moves) = Z.of_nat (length ds) /\
  (exists end_state rest, rep.(rep_path) = end_state :: rest /\
     end_state.(g_of_n) = path_cost start ds) /\
  (forall ds', slides start ds' = Some goal -> (length ds <= length ds')%nat).


(** A start and a goal board on which the fewest moves are not the least
    cost: the only sequence of eight moves costs 44, a sequence of
    sixteen moves costs 34. *)
Definition detour_start : list Z :=
  [1; 2; 3; 4; 10; 0; 11; 5; 6; 7; 8; 9; 12; 13; 14; 15].

Definition detour_goal : list Z :=
  [1; 2; 3; 4; 10; 0; 11; 5; 6; 13; 8; 9; 12; 14; 7; 15].

Definition detour_short : list direction :=
  [right; down; left; down; right; up; up; left].

Definition detour_cheap : list direction :=
  [up; right; right; down; down; left; left; down;
   right; up; right; up; up; left; left; down].


(** ** The sample boards of the source, and two states built from them *)

Definition start_board1 : list Z :=
  [5; 1; 3; 4; 2; 10; 6; 8; 13; 9; 7; 12; 0; 14; 11; 15].
Definition start_board2 : list Z :=
  [1; 0; 3; 4; 5; 2; 7; 8; 9; 6; 15; 11; 13; 10; 14; 12].
Definition start_board3 : list Z :=
  [2; 0; 3; 4; 1; 5; 7; 8; 9; 6; 10; 12; 13; 14; 11; 15].
Definition goal_board : list Z :=
  [1; 2; 3; 4; 5; 6; 7; 8; 9; 10; 11; 12; 13; 14; 15; 0].

(** [PuzzleState(goal_board)], built first. *)
Definition sample_goal_state : PuzzleState :=
  mkPuzzleState None 0 goal_board (to_2d_array goal_board) None 0 0 0 0 0 0.

(** [PuzzleState(start_board3, goal_state)], built second. *)
Definition sample_start_state : PuzzleState :=
  Eval vm_compute in
    match PuzzleState_init Z.of_nat Z.eqb start_board3 (Some sample_goal_state)
            None 0 0 1%nat with
    | Ok (n, _) => n
    | _ => sample_goal_state
    end.

(** [start_board3] after the move to the right. *)
Definition start_board3_right : list Z :=
  [2; 3; 0; 4; 1; 5; 7; 8; 9; 6; 10; 12; 13; 14; 11; 15].

(** [PuzzleState(detour_goal)], built first. *)
Definition detour_goal_state : PuzzleState :=
  mkPuzzleState None 0 detour_goal (to_2d_array detour_goal) None 0 0 0 0 0 0.

(** [start_board3] with tile 15 replaced by a second 11. *)
Definition start_board3_twice_11 : list Z :=
  [2; 0; 3; 4; 1; 5; 7; 8; 9; 6; 10; 12; 13; 14; 11; 11].

(** ** More of the source *)

(** [flatten] of assgn1.py: the items of the sublists, in order. *)
Fixpoint flatten {A : Type} (l : list (list A)) : list A :=
  match l with
  | [] => []
  | sublist :: l' => sublist ++ flatten l'
  end.

(** [solve_all]: the three searches, one after the other; what it prints
    is the three reports. *)
Definition solve_all (id_of : nat -> Z) (int_is : Z -> Z -> bool)
  (fuel pfuel : nat) (start_board goal_board : list Z)
  : M (Report * Report * Report) :=
  run bfs <- solve id_of int_is fuel pfuel start_board goal_board "bfs";
  run a_star_h1 <- solve id_of int_is fuel pfuel start_board goal_board "a_star_h1";
  run a_star_h2 <- solve id_of int_is fuel pfuel start_board goal_board "a_star_h2";
  mret (bfs, a_star_h1, a_star_h2).

(** The direction that undoes a move. *)
Definition opposite (d : direction) : direction :=
  match d with
  | up => down
  | down => up
  | left => right
  | right => left
  end.

(** The invariant of the loop of [solve] for a frontier ordered by
    [key]: as [search_inv], with the g of the frontier states along the
    sequences of moves they stand for.  The root is pushed with priority
    0 whatever its key, and is then alone on the frontier. *)
Record frontier_inv (id_of : nat -> Z) (key : PuzzleState -> Z)
  (start goal : list Z) (counter : nat)
  (open_list : list entry) (closed_list : list PuzzleState) : Prop := {
  finv_keys : forall (p i : Z) (n : PuzzleState),
    (p, i, n) ∈ open_list ->
    i = n.(id_no) /\ (p = key n \/ open_list = [(p, i, n)]);
  finv_nonempty : open_list <> [];
  finv_wf : forall n, n ∈ frontier open_list ++ closed_list -> wf_state n;
  finv_ids : forall n, n ∈ frontier open_list ++ closed_list ->
    exists k : nat, (k < counter)%nat /\ n.(id_no) = id_of k;
  finv_nodup : NoDup (id_no <$> frontier open_list ++ closed_list);
  finv_linked : forall n, n ∈ frontier open_list ++ closed_list ->
    node_ok start closed_list n;
  finv_cover : forall (ds : list direction) (b : list Z),
    slides start ds = Some b ->
    (exists (q r : list direction) (n : PuzzleState),
       ds = q ++ r /\ n ∈ frontier open_list /\
       slides start q = Some n.(board_state_1d) /\
       n.(depth) = Z.of_nat (length q) /\
       n.(g_of_n) = path_cost start q) \/
    (exists n, n ∈ closed_list /\ n.(board_state_1d) = b);
  finv_closed : forall n, n ∈ closed_list -> n.(board_state_1d) <> goal
}.

(** The priority of a state is its g plus the heuristic [h] of its
    board. *)
Definition heur_inv (key : PuzzleState -> Z) (h : list Z -> Z)
  (open_list : list entry) (closed_list : list PuzzleState) : Prop :=
  forall n, n ∈ frontier open_list ++ closed_list ->
    key n = n.(g_of_n) + h n.(board_state_1d).

(** What the report of a search says when the search minimises cost:
    its path is the trace, goal first, of a sequence [ds] of moves from
    [start] to [goal], the g of the end state is the cost of [ds], and no
    sequence of moves from [start] to [goal] costs less. *)
Definition cheapest_report (start goal : list Z) (rep : Report)
  (ds : list direction) : Prop :=
  slides start ds = Some goal /\
  board_state_1d <$> rep.(rep_path) = reverse (trace start ds) /\
  rep.(rep_moves) = Z.of_nat (length ds) /\
  (exists end_state rest, rep.(rep_path) = end_state :: rest /\
     end_state.(g_of_n) = path_cost start ds) /\
  (forall ds', slides start ds' = Some goal ->
               path_cost start ds <= path_cost start ds').

(** Closed decidable facts, by evaluation. *)
Ltac by_compute := apply (bool_decide_unpack _); vm_compute; exact I.

(** The invariant of a state built from sample boards. *)
Ltac sample_wf :=
  repeat split; try (unfold is_board; by_compute); reflexivity.

(** ** Python lists *)

Lemma py_getitem_lookup {A : Type} (l : list A) (i : nat) (x : A) :
  l !! i = Some x -> py_getitem l (Z.of_nat i) = Ok x.
Proof.
  intros Hl. pose proof (lookup_lt_Some _ _ _ Hl) as Hlt.
  unfold py_getitem, py_index.
  destruct (Z.ltb_spec (Z.of_nat i) 0) as [?|_]; [lia|].
  destruct (Z.ltb_spec (Z.of_nat i) 0) as [?|_]; [lia|].
  destruct (Z.leb_spec (Z.of_nat (length l)) (Z.of_nat i)) as [?|_]; [lia|].
  simpl. rewrite Nat2Z.id, Hl. reflexivity.
Qed.

Lemma py_setitem_lookup {A : Type} (l : list A) (i : nat) (x : A) :
  (i < length l)%nat -> py_setitem l (Z.of_nat i) x = Ok (<[i := x]> l).
Proof.
  intros Hlt. unfold py_setitem, py_index.
  destruct (Z.ltb_spec (Z.of_nat i) 0) as [?|_]; [lia|].
  destruct (Z.ltb_spec (Z.of_nat i) 0) as [?|_]; [lia|].
  destruct (Z.leb_spec (Z.of_nat (length l)) (Z.of_nat i)) as [?|_]; [lia|].
  simpl. rewrite Nat2Z.id. reflexivity.
Qed.

Lemma index_Some (l : list Z) (v : Z) (i : nat) :
  index l v = Some i ->
  l !! i = Some v /\ forall j, (j < i)%nat -> l !! j <> Some v.
Proof.
  revert i. induction l as [|x l IH]; intros i; simpl; [discriminate|].
  destruct (Z.eqb_spec x v) as [->|Hne].
  - intros [= <-]. split; [reflexivity|]. intros j Hj. lia.
  - destruct (index l v) as [k|] eqn:Hk; simpl; [|discriminate].
    intros [= <-]. destruct (IH k eq_refl) as [Hl Hfirst]. split; [exact Hl|].
    intros [|j] Hj; simpl; [congruence|]. apply Hfirst. lia.
Qed.

Lemma index_None (l : list Z) (v : Z) : index l v = None -> v ∉ l.
Proof.
  induction l as [|x l IH]; simpl; intros H Hin.
  - inversion Hin.
  - destruct (Z.eqb_spec x v) as [->|Hne]; [discriminate|].
    destruct (index l v); [discriminate|].
    apply IH; [reflexivity|]. inversion Hin; subst; [congruence|assumption].
Qed.

Lemma index_elem_of (l : list Z) (v : Z) :
  v ∈ l -> exists i, index l v = Some i.
Proof.
  intros Hin. destruct (index l v) as [i|] eqn:Hi; [eauto|].
  exfalso. eapply index_None; eauto.
Qed.

(** ** The 4x4 view and [find] *)

Lemma find_index (b : list Z) (v : Z) :
  length b = 16%nat ->
  find (to_2d_array b) v =
  Ok ((fun i => (Z.of_nat i / 4, Z.of_nat i mod 4)) <$> index b v).
Proof.
  intros Hlen.
  do 16 (destruct b as [|? b]; [discriminate Hlen|]).
  destruct b; [|discriminate Hlen]. clear Hlen.
  cbv -[Z.eqb].
  repeat (match goal with
          | |- context [?x =? v] => destruct (x =? v); [reflexivity|]
          end).
  reflexivity.
Qed.

Lemma elem_of_range (a b v : Z) : v ∈ range a b <-> a <= v < b.
Proof. unfold range. rewrite elem_of_seqZ. lia. Qed.

(** ** Boards *)

Section Boards.

Variable b : list Z.
Hypothesis Hb : is_board b.

Lemma board_length : length b = 16%nat.
Proof using Hb. rewrite (Permutation_length Hb). reflexivity. Qed.

Lemma board_NoDup : NoDup b.
Proof using Hb. unfold is_board in Hb. rewrite Hb. apply NoDup_seqZ. Qed.

Lemma board_elem_of (v : Z) : v ∈ b <-> 0 <= v <= 15.
Proof using Hb. unfold is_board in Hb. rewrite Hb, elem_of_range. lia. Qed.

Lemma board_lookup_range (i : nat) (v : Z) : b !! i = Some v -> 0 <= v <= 15.
Proof using Hb.
  intros Hi. apply board_elem_of, list_elem_of_lookup. eauto.
Qed.

Lemma board_Forall : Forall (fun v => 0 <= v <= 15) b.
Proof using Hb. apply Forall_forall. intros v. apply board_elem_of. Qed.

Lemma board_index (v : Z) :
  0 <= v <= 15 ->
  exists i, index b v = Some i /\ (i < 16)%nat /\ b !! i = Some v.
Proof using Hb.
  intros Hv. destruct (index_elem_of b v) as [i Hi]; [by apply board_elem_of|].
  exists i. destruct (index_Some _ _ _ Hi) as [Hl _].
  split; [exact Hi|]. split; [|exact Hl].
  rewrite <- board_length. eapply lookup_lt_Some; eauto.
Qed.

Lemma board_index_lookup (i : nat) (v : Z) : b !! i = Some v -> index b v = Some i.
Proof using Hb.
  intros Hi. destruct (board_index v) as (j & Hj & _ & Hl).
  { eapply board_lookup_range; eauto. }
  rewrite Hj. f_equal. eapply NoDup_lookup; eauto using board_NoDup.
Qed.

Lemma board_find (v : Z) :
  0 <= v <= 15 -> find (to_2d_array b) v = Ok (Some (pos_of b v)).
Proof using Hb.
  intros Hv. rewrite find_index by apply board_length.
  destruct (board_index v Hv) as (i & Hi & _). unfold pos_of. rewrite Hi.
  reflexivity.
Qed.

End Boards.

Lemma to_2d_array_lookup (b : list Z) (i : nat) (v : Z) :
  length b = 16%nat -> b !! i = Some v ->
  to_2d_array b !! (i / 4)%nat ≫= (.!! (i mod 4)%nat) = Some v.
Proof.
  intros Hlen Hi. pose proof (lookup_lt_Some _ _ _ Hi) as Hlt.
  do 16 (destruct b as [|? b]; [discriminate Hlen|]).
  destruct b; [|discriminate Hlen].
  do 16 (destruct i as [|i]; [exact Hi|]).
  simpl in Hlt. lia.
Qed.

Lemma val_multiplier_weight (v : Z) :
  0 <= v <= 15 -> val_multiplier v = Some (tile_weight v).
Proof.
  intros Hv. unfold val_multiplier, tile_weight.
  destruct (Z.eqb_spec v 0); [reflexivity|].
  destruct (Z.ltb_spec 0 v), (Z.ltb_spec v 10), (Z.leb_spec 1 v), (Z.leb_spec v 9),
    (Z.leb_spec 10 v), (Z.leb_spec v 15); simpl; try reflexivity; lia.
Qed.

Lemma tile_weight_nonneg (v : Z) : 0 <= tile_weight v.
Proof.
  unfold tile_weight.
  destruct (v =? 0), ((1 <=? v) && (v <=? 9)), ((10 <=? v) && (v <=? 15)); lia.
Qed.

Lemma tile_weight_tile (v : Z) :
  1 <= v <= 15 ->
  tile_weight v = (if v <=? 9 then 1 else 10) /\ 1 <= tile_weight v.
Proof.
  intros Hv. unfold tile_weight.
  destruct (Z.eqb_spec v 0); [lia|].
  destruct (Z.leb_spec 1 v), (Z.leb_spec v 9), (Z.leb_spec 10 v), (Z.leb_spec v 15);
    simpl; lia.
Qed.

Lemma Zsum_nonneg (l : list Z) : Forall (fun x => 0 <= x) l -> 0 <= Zsum l.
Proof. induction 1; simpl; lia. Qed.

Lemma Zsum_pos (l : list Z) (x : Z) :
  Forall (fun y => 0 <= y) l -> x ∈ l -> x <= Zsum l.
Proof.
  induction 1 as [|y l Hy Hl IH]; intros Hin; inversion Hin; subst; simpl.
  - pose proof (Zsum_nonneg l Hl). lia.
  - specialize (IH ltac:(assumption)). lia.
Qed.

Lemma Zsum_zero (l : list Z) : Forall (fun x => x = 0) l -> Zsum l = 0.
Proof. induction 1; simpl; lia. Qed.

(** ** The heuristics *)

Section Heuristics.

Variable int_is : Z -> Z -> bool.
Hypothesis int_is_eq : forall a b : Z, int_is a b = true -> a = b.
Hypothesis int_is_small : forall a : Z, -5 <= a <= 256 -> int_is a a = true.

Lemma int_is_decide (a b : Z) :
  0 <= a <= 15 -> int_is a b = bool_decide (a = b).
Proof using int_is_eq int_is_small.
  intros Ha. destruct (int_is a b) eqn:E.
  - apply int_is_eq in E. subst. by rewrite bool_decide_eq_true_2.
  - rewrite bool_decide_eq_false_2; [reflexivity|].
    intros ->. rewrite int_is_small in E by lia. discriminate.
Qed.

Lemma h1_loop_sum (B G : list Z) :
  Forall (fun v => 0 <= v <= 15) B ->
  (length B <= length G)%nat ->
  forall (pieces : list Z) (k : nat) (count : Z),
    pieces = drop k B ->
    h1_loop int_is pieces (Z.of_nat k) G count =
    Ok (count + Zsum (map (mismatch_weight B G) (seq k (length pieces)))).
Proof using int_is_eq int_is_small.
  intros HB Hlen pieces.
  induction pieces as [|piece pieces IH]; intros k count Hdrop; simpl.
  - f_equal. lia.
  - assert (Hk : B !! k = Some piece).
    { rewrite <- (Nat.add_0_r k), <- lookup_drop, <- Hdrop. reflexivity. }
    pose proof (lookup_lt_Some _ _ _ Hk) as Hlt.
    destruct (lookup_lt_is_Some_2 G k) as [g Hg]; [lia|].
    rewrite (py_getitem_lookup _ _ _ Hg). simpl.
    assert (Hpiece : 0 <= piece <= 15).
    { eapply (proj1 (Forall_forall _ _) HB), list_elem_of_lookup; eauto. }
    rewrite int_is_decide by exact Hpiece.
    assert (Hrest : pieces = drop (S k) B).
    { rewrite <- Nat.add_1_r, <- drop_drop, <- Hdrop. reflexivity. }
    unfold mismatch_weight at 1.
    rewrite (nth_lookup_Some _ _ _ _ Hk), (nth_lookup_Some _ _ _ _ Hg).
    replace (Z.of_nat k + 1) with (Z.of_nat (S k)) by lia.
    case_bool_decide as Heq; simpl.
    + rewrite decide_True by exact Heq. rewrite (IH _ _ Hrest). f_equal; lia.
    + rewrite decide_False by exact Heq.
      rewrite val_multiplier_weight by exact Hpiece. simpl.
      rewrite (IH _ _ Hrest). f_equal; lia.
Qed.

Lemma h1_is_h1_spec (B : list Z) (g : PuzzleState) :
  length B = 16%nat ->
  Forall (fun v => 0 <= v <= 15) B ->
  length g.(board_state_1d) = 16%nat ->
  estimated_cost_to_goal_h1 int_is B (Some g) = Ok (h1_spec B g.(board_state_1d)).
Proof using int_is_eq int_is_small.
  intros HlB HB HlG. unfold estimated_cost_to_goal_h1.
  pose proof (h1_loop_sum B g.(board_state_1d) HB ltac:(lia) B 0%nat 0 eq_refl) as H.
  change (Z.of_nat 0) with 0 in H. rewrite H.
  simpl rbind. unfold h1_spec. rewrite HlB. reflexivity.
Qed.

Lemma h1_spec_same (G : list Z) : h1_spec G G = -1.
Proof.
  unfold h1_spec. rewrite Zsum_zero; [reflexivity|].
  apply Forall_forall. intros x Hx. apply list_elem_of_fmap in Hx as (i & -> & _).
  unfold mismatch_weight. by rewrite decide_True.
Qed.

(** C2: h1 is the sum, over the 16 positions where the tile of B differs
    from the tile of G, of the weight of B's tile, minus 1; so h1 of the
    goal against itself is -1; and a state without a goal has h1 = 0. *)
Theorem h1_weighted_mismatches_minus_one :
  (forall (B : list Z) (g : PuzzleState),
     length B = 16%nat -> Forall (fun v => 0 <= v <= 15) B ->
     length g.(board_state_1d) = 16%nat ->
     estimated_cost_to_goal_h1 int_is B (Some g) =
     Ok (Zsum (map (fun i => if decide (nth i B 0 = nth i g.(board_state_1d) 0)
                             then 0 else tile_weight (nth i B 0))
                   (seq 0 16)) - 1)) /\
  (forall g : PuzzleState,
     length g.(board_state_1d) = 16%nat ->
     Forall (fun v => 0 <= v <= 15) g.(board_state_1d) ->
     estimated_cost_to_goal_h1 int_is g.(board_state_1d) (Some g) = Ok (-1)) /\
  (forall B : list Z, estimated_cost_to_goal_h1 int_is B None = Ok 0).
Proof using int_is_eq int_is_small.
  split; [|split].
  - intros B g HlB HB HlG. apply h1_is_h1_spec; assumption.
  - intros g Hl HG. rewrite h1_is_h1_spec by assumption.
    rewrite h1_spec_same. reflexivity.
  - reflexivity.
Qed.

Lemma lists_differ (B G : list Z) :
  length B = length G -> B <> G ->
  exists (i : nat) (x y : Z), B !! i = Some x /\ G !! i = Some y /\ x <> y.
Proof.
  revert G. induction B as [|x B IH]; intros [|y G] Hlen Hne; simplify_eq/=.
  destruct (decide (x = y)) as [->|Hxy].
  - destruct (IH G) as (i & a & c & ? & ? & ?); [done|congruence|].
    exists (S i), a, c. done.
  - exists 0%nat, x, y. done.
Qed.

Lemma h1_spec_mismatch (B G : list Z) (j : nat) (x y : Z) :
  (j < 16)%nat -> B !! j = Some x -> G !! j = Some y -> x <> y -> 1 <= x <= 15 ->
  0 <= h1_spec B G.
Proof.
  intros Hj HB HG Hxy Hx. unfold h1_spec.
  assert (Hall : Forall (fun z => 0 <= z) (map (mismatch_weight B G) (seq 0 16))).
  { apply Forall_forall. intros z (i & -> & _)%list_elem_of_fmap.
    unfold mismatch_weight. case_decide; [lia|apply tile_weight_nonneg]. }
  assert (Hin : mismatch_weight B G j ∈ map (mismatch_weight B G) (seq 0 16)).
  { apply list_elem_of_fmap_2, elem_of_seq. lia. }
  pose proof (Zsum_pos _ _ Hall Hin) as Hle.
  unfold mismatch_weight at 1 in Hle.
  rewrite (nth_lookup_Some _ _ _ _ HB), (nth_lookup_Some _ _ _ _ HG) in Hle.
  rewrite decide_False in Hle by exact Hxy.
  pose proof (tile_weight_tile x Hx). lia.
Qed.

Lemma h1_spec_boards_differ (B G : list Z) :
  is_board B -> is_board G -> B <> G -> 0 <= h1_spec B G.
Proof.
  intros HB HG Hne.
  destruct (lists_differ B G) as (i & x & y & Hx & Hy & Hxy); [|exact Hne|].
  { by rewrite (board_length B), (board_length G). }
  pose proof (lookup_lt_Some _ _ _ Hx) as Hi. rewrite (board_length B HB) in Hi.
  pose proof (board_lookup_range B HB _ _ Hx) as Hxr.
  pose proof (board_lookup_range G HG _ _ Hy) as Hyr.
  destruct (decide (x = 0)) as [->|Hx0].
  - destruct (board_index B HB y Hyr) as (j & _ & Hj & HBj).
    assert (Hij : i <> j) by congruence.
    destruct (lookup_lt_is_Some_2 G j) as [z HGj].
    { by rewrite (board_length G). }
    apply (h1_spec_mismatch B G j y z); try done; [|lia].
    intros <-. apply Hij. eapply NoDup_lookup; eauto using board_NoDup.
  - apply (h1_spec_mismatch B G i x y); try done. lia.
Qed.

(** C10: on boards, h1 is nonnegative as soon as B differs from G, and
    h1 = -1 exactly when B = G. *)
Theorem h1_minus_one_iff_goal (B : list Z) (g : PuzzleState) :
  is_board B -> is_board g.(board_state_1d) ->
  (B <> g.(board_state_1d) ->
   exists h : Z, estimated_cost_to_goal_h1 int_is B (Some g) = Ok h /\ 0 <= h) /\
  (estimated_cost_to_goal_h1 int_is B (Some g) = Ok (-1) <-> B = g.(board_state_1d)).
Proof using int_is_eq int_is_small.
  intros HB HG.
  rewrite h1_is_h1_spec
    by (try apply board_length; try apply board_Forall; assumption).
  split.
  - intros Hne. eexists. split; [reflexivity|].
    by apply h1_spec_boards_differ.
  - split.
    + intros [= H]. destruct (decide (B = g.(board_state_1d))) as [|Hne]; [done|].
      pose proof (h1_spec_boards_differ _ _ HB HG Hne). lia.
    + intros ->. by rewrite h1_spec_same.
Qed.

End Heuristics.

Lemma manhattan_same (p : Z * Z) : manhattan p p = 0.
Proof. unfold manhattan. lia. Qed.

Lemma pos_of_board (b : list Z) (v : Z) :
  is_board b -> 0 <= v <= 15 ->
  0 <= (pos_of b v).1 <= 3 /\ 0 <= (pos_of b v).2 <= 3 /\
  b !! Z.to_nat (4 * (pos_of b v).1 + (pos_of b v).2) = Some v.
Proof.
  intros Hb Hv. destruct (board_index b Hb v Hv) as (i & Hi & Hlt & Hl).
  unfold pos_of. rewrite Hi. simpl.
  pose proof (Z.div_mod (Z.of_nat i) 4 ltac:(lia)).
  pose proof (Z.mod_pos_bound (Z.of_nat i) 4 ltac:(lia)).
  assert (0 <= Z.of_nat i / 4 < 4).
  { split; [apply Z.div_pos; lia|]. apply Z.div_lt_upper_bound; lia. }
  split; [lia|]. split; [lia|].
  replace (4 * (Z.of_nat i / 4) + Z.of_nat i mod 4) with (Z.of_nat i) by lia.
  by rewrite Nat2Z.id.
Qed.

#[local] Opaque pos_of.

Lemma h2_loop_sum (B G : list Z) :
  is_board B -> is_board G ->
  forall (pieces : list Z) (total : Z),
    Forall (fun v => 1 <= v <= 15) pieces ->
    h2_loop (to_2d_array B) (to_2d_array G) pieces total =
    Ok (total +
        Zsum (map (fun v => tile_weight v * manhattan (pos_of B v) (pos_of G v))
                  pieces)).
Proof.
  intros HB HG pieces. induction pieces as [|v pieces IH]; intros total Hp; simpl.
  - f_equal; lia.
  - inversion Hp as [|? ? Hv Hp']; subst.
    rewrite (board_find B HB), (board_find G HG) by lia. simpl.
    destruct (pos_of B v) as [cur_row cur_col] eqn:EB.
    destruct (pos_of G v) as [goal_row goal_col] eqn:EG. simpl.
    rewrite val_multiplier_weight by lia. simpl.
    rewrite (IH _ Hp'). unfold manhattan. simpl. f_equal; lia.
Qed.

#[local] Transparent pos_of.

Lemma range_1_16 : Forall (fun v => 1 <= v <= 15) (range 1 16).
Proof. apply Forall_forall. intros v Hv%elem_of_range. lia. Qed.

Lemma h2_is_h2_spec (B : list Z) (g : PuzzleState) :
  is_board B -> is_board g.(board_state_1d) ->
  g.(board_state) = to_2d_array g.(board_state_1d) ->
  estimated_cost_to_goal_h2 (to_2d_array B) (Some g) =
  Ok (h2_spec B g.(board_state_1d)).
Proof.
  intros HB HG Hview. unfold estimated_cost_to_goal_h2. rewrite Hview.
  rewrite (h2_loop_sum B _ HB HG _ 0 range_1_16). reflexivity.
Qed.

(** C3: on boards, h2 is the sum over the tiles 1..15 of the tile's
    weight times the Manhattan distance between its position in B and
    its position in G, where the position (row, col) of a tile is the
    cell of the board that holds it; h2 of the goal against itself is 0. *)
Theorem h2_weighted_manhattan (B : list Z) (g : PuzzleState) :
  is_board B -> is_board g.(board_state_1d) ->
  g.(board_state) = to_2d_array g.(board_state_1d) ->
  estimated_cost_to_goal_h2 (to_2d_array B) (Some g) =
    Ok (Zsum (map (fun v => tile_weight v *
                            (Z.abs ((pos_of g.(board_state_1d) v).1 - (pos_of B v).1) +
                             Z.abs ((pos_of g.(board_state_1d) v).2 - (pos_of B v).2)))
                  (range 1 16))) /\
  (forall (b : list Z) (v : Z), is_board b -> 1 <= v <= 15 ->
     0 <= (pos_of b v).1 <= 3 /\ 0 <= (pos_of b v).2 <= 3 /\
     b !! Z.to_nat (4 * (pos_of b v).1 + (pos_of b v).2) = Some v) /\
  estimated_cost_to_goal_h2 g.(board_state) (Some g) = Ok 0.
Proof.
  intros HB HG Hview. split; [|split].
  - by rewrite h2_is_h2_spec.
  - intros b v Hb Hv. apply pos_of_board; [exact Hb|lia].
  - unfold estimated_cost_to_goal_h2. rewrite Hview.
    rewrite (h2_loop_sum _ _ HG HG _ 0 range_1_16).
    rewrite Zsum_zero; [reflexivity|].
    apply Forall_forall. intros x (v & -> & _)%list_elem_of_fmap.
    rewrite manhattan_same. lia.
Qed.

(** C9: on a board, [find] returns for every value 0..15 a position
    (row, col) inside the 4x4 grid whose cell holds the value; it does
    not fall through to its end, where it would return [None]. *)
Theorem find_locates_every_value (b : list Z) (v : Z) :
  is_board b -> 0 <= v <= 15 ->
  exists row col : Z,
    find (to_2d_array b) v = Ok (Some (row, col)) /\
    0 <= row <= 3 /\ 0 <= col <= 3 /\
    to_2d_array b !! Z.to_nat row ≫= (.!! Z.to_nat col) = Some v /\
    find (to_2d_array b) v <> Ok None.
Proof.
  intros Hb Hv. destruct (board_index b Hb v Hv) as (i & Hi & Hlt & Hl).
  exists (Z.of_nat i / 4), (Z.of_nat i mod 4).
  rewrite find_index by (by apply board_length). rewrite Hi. simpl.
  pose proof (pos_of_board b v Hb Hv) as (Hr & Hc & _).
  unfold pos_of in Hr, Hc. rewrite Hi in Hr, Hc. simpl in Hr, Hc.
  split; [reflexivity|]. split; [exact Hr|]. split; [exact Hc|]. split; [|discriminate].
  assert (Z.to_nat (Z.of_nat i / 4) = (i / 4)%nat) as ->.
  { change 4 with (Z.of_nat 4). rewrite <- Nat2Z.inj_div. apply Nat2Z.id. }
  assert (Z.to_nat (Z.of_nat i mod 4) = (i mod 4)%nat) as ->.
  { change 4 with (Z.of_nat 4). rewrite <- Nat2Z.inj_mod. apply Nat2Z.id. }
  apply to_2d_array_lookup; [by apply board_length|exact Hl].
Qed.

(** ** Moves on boards *)

Lemma valid_moves_filter (row col : Z) :
  valid_moves row col = filter (fun d => dir_ok row col d = true) all_directions.
Proof.
  unfold valid_moves, all_directions.
  rewrite !filter_cons, filter_nil. simpl.
  destruct (0 <? row), (row <? 3), (0 <? col), (col <? 3); reflexivity.
Qed.

Lemma target_in_grid (zp : nat) (d : direction) :
  (zp < 16)%nat ->
  dir_ok (Z.of_nat zp / 4) (Z.of_nat zp mod 4) d = true ->
  0 <= Z.of_nat zp + dirs d < 16 /\
  Z.of_nat zp + dirs d <> Z.of_nat zp /\
  ((Z.of_nat zp + dirs d) / 4, (Z.of_nat zp + dirs d) mod 4) =
    step_pos (Z.of_nat zp / 4) (Z.of_nat zp mod 4) d.
Proof.
  intros Hlt Hok.
  do 16 (destruct zp as [|zp]; [destruct d; vm_compute in Hok; try discriminate;
                                vm_compute; intuition congruence|]).
  lia.
Qed.

Lemma slide_inv (b : list Z) (d : direction) (b' : list Z) :
  is_board b -> slide b d = Some b' ->
  exists (zp tp : nat) (t : Z),
    index b 0 = Some zp /\ (zp < 16)%nat /\ (tp < 16)%nat /\ tp <> zp /\
    dir_ok (Z.of_nat zp / 4) (Z.of_nat zp mod 4) d = true /\
    Z.of_nat tp = Z.of_nat zp + dirs d /\
    b !! zp = Some 0 /\ b !! tp = Some t /\ 1 <= t <= 15 /\
    moved_tile b d = t /\
    b' = <[tp := 0]> (<[zp := t]> b).
Proof.
  intros Hb. unfold slide, moved_tile.
  destruct (index b 0) as [zp|] eqn:Hzp; [|discriminate].
  destruct (dir_ok _ _ d) eqn:Hok; [|discriminate].
  destruct (index_Some _ _ _ Hzp) as [Hz _].
  pose proof (lookup_lt_Some _ _ _ Hz) as Hlt. rewrite (board_length b Hb) in Hlt.
  destruct (target_in_grid zp d Hlt Hok) as (Hrange & Hne & _).
  destruct (b !! Z.to_nat (Z.of_nat zp + dirs d)) as [t|] eqn:Ht; [|discriminate].
  intros [= <-]. exists zp, (Z.to_nat (Z.of_nat zp + dirs d)), t.
  repeat split; try done; try lia.
  - pose proof (board_lookup_range b Hb _ _ Ht).
    assert (t <> 0); [|lia]. intros ->.
    assert (Z.to_nat (Z.of_nat zp + dirs d) = zp); [|lia].
    eapply NoDup_lookup; eauto using board_NoDup.
  - pose proof (board_lookup_range b Hb _ _ Ht). lia.
  - by apply nth_lookup_Some.
Qed.

Lemma slide_ok (b : list Z) (d : direction) (zp : nat) :
  is_board b -> index b 0 = Some zp ->
  dir_ok (Z.of_nat zp / 4) (Z.of_nat zp mod 4) d = true ->
  exists b', slide b d = Some b'.
Proof.
  intros Hb Hzp Hok. unfold slide. rewrite Hzp, Hok.
  destruct (index_Some _ _ _ Hzp) as [Hz _].
  pose proof (lookup_lt_Some _ _ _ Hz) as Hlt. rewrite (board_length b Hb) in Hlt.
  destruct (target_in_grid zp d Hlt Hok) as (Hrange & _).
  destruct (lookup_lt_is_Some_2 b (Z.to_nat (Z.of_nat zp + dirs d))) as [t Ht].
  { rewrite (board_length b Hb). lia. }
  rewrite Ht. eauto.
Qed.

Lemma slide_board (b : list Z) (d : direction) (b' : list Z) :
  is_board b -> slide b d = Some b' -> is_board b'.
Proof.
  intros Hb Hs.
  destruct (slide_inv b d b' Hb Hs) as (zp & tp & t & _ & _ & _ & _ & _ & _ & Hz & Ht & _ & _ & ->).
  unfold is_board. rewrite Permutation_insert_swap by done. exact Hb.
Qed.

Lemma slides_board (ds : list direction) (b b' : list Z) :
  is_board b -> slides b ds = Some b' -> is_board b'.
Proof.
  revert b. induction ds as [|d ds IH]; intros b Hb; simpl.
  - by intros [= <-].
  - destruct (slide b d) as [b1|] eqn:Hs; [|discriminate].
    apply IH. by eapply slide_board.
Qed.

Lemma slide_blank (b : list Z) (d : direction) (b' : list Z) :
  is_board b -> slide b d = Some b' ->
  pos_of b' 0 = step_pos (pos_of b 0).1 (pos_of b 0).2 d.
Proof.
  intros Hb Hs. pose proof (slide_board b d b' Hb Hs) as Hb'.
  destruct (slide_inv b d b' Hb Hs)
    as (zp & tp & t & Hzp & Hlt & Htp & Hne & Hok & Heq & Hz & Ht & _ & _ & ->).
  unfold pos_of. rewrite Hzp. simpl.
  rewrite (board_index_lookup _ Hb' tp 0).
  - simpl. rewrite Heq. apply target_in_grid; done.
  - apply list_lookup_insert_eq. rewrite length_insert, (board_length b Hb). lia.
Qed.

Lemma blank_count_board (b : list Z) : is_board b -> blank_count b = 1%nat.
Proof.
  intros Hb. unfold blank_count, is_board in *. rewrite Hb. reflexivity.
Qed.

(** ** The frontier *)

Lemma entry_lt_spec (a b : entry) :
  entry_lt a b = true <->
  a.1.1 < b.1.1 \/ (a.1.1 = b.1.1 /\ a.1.2 < b.1.2).
Proof.
  destruct a as [[p1 i1] n1], b as [[p2 i2] n2]. simpl.
  rewrite orb_true_iff, andb_true_iff, !Z.ltb_lt, Z.eqb_eq. tauto.
Qed.

Lemma take_min_spec (rest : list entry) :
  forall (best m : entry) (r : list entry),
    take_min best rest = (m, r) ->
    best :: rest ≡ₚ m :: r /\
    forall e, e ∈ best :: rest -> entry_lt e m = false.
Proof.
  induction rest as [|x rest IH]; intros best m r; simpl.
  - intros [= <- <-]. split; [done|]. intros e ->%list_elem_of_singleton.
    apply not_true_is_false. rewrite entry_lt_spec. lia.
  - destruct (entry_lt x best) eqn:Hlt.
    + destruct (take_min x rest) as [m' r'] eqn:Htm. intros [= <- <-].
      destruct (IH _ _ _ Htm) as [Hperm Hmin]. split.
      * etrans; [apply Permutation_skip, Hperm|apply Permutation_swap].
      * intros e He. apply not_true_is_false. intros Hem.
        rewrite elem_of_cons in He. destruct He as [->|He].
        -- pose proof (Hmin x ltac:(left)) as Hxm.
           apply not_true_iff_false in Hxm.
           rewrite entry_lt_spec in Hlt, Hem, Hxm. lia.
        -- rewrite (Hmin e He) in Hem. discriminate.
    + destruct (take_min best rest) as [m' r'] eqn:Htm. intros [= <- <-].
      destruct (IH _ _ _ Htm) as [Hperm Hmin]. split.
      * etrans; [apply Permutation_swap|].
        etrans; [apply Permutation_skip, Hperm|apply Permutation_swap].
      * intros e He. apply not_true_is_false. intros Hem.
        rewrite !elem_of_cons in He. destruct He as [->|[->|He]].
        -- rewrite (Hmin best ltac:(left)) in Hem. discriminate.
        -- pose proof (Hmin best ltac:(left)) as Hbm.
           apply not_true_iff_false in Hbm, Hlt.
           rewrite entry_lt_spec in Hlt, Hem, Hbm. lia.
        -- rewrite (Hmin e ltac:(by right)) in Hem. discriminate.
Qed.

Lemma heappop_spec (open_list open' : list entry) (e : entry) :
  heappop open_list = Ok (e, open') ->
  open_list ≡ₚ e :: open' /\
  forall x, x ∈ open_list -> entry_lt x e = false.
Proof.
  destruct open_list as [|x xs]; simpl; [discriminate|].
  intros [= H]. by apply take_min_spec.
Qed.

Lemma heappop_nonempty (open_list : list entry) (e : entry) :
  e ∈ open_list -> exists m open', heappop open_list = Ok (m, open').
Proof.
  destruct open_list as [|x xs]; [by intros ?%elem_of_nil|].
  intros _. simpl. destruct (take_min x xs) as [m r]. eauto.
Qed.

Lemma push_expansions_bfs (cs : list PuzzleState) :
  forall (open_list : list entry) (added : Z),
    push_expansions "bfs" cs open_list added =
    (reverse ((fun c => (c.(depth), c.(id_no), c)) <$> cs) ++ open_list,
     added + Z.of_nat (length cs)).
Proof.
  induction cs as [|c cs IH]; intros open_list added.
  - simpl. f_equal. lia.
  - cbn [push_expansions]. change (String.eqb "bfs" "bfs") with true. cbv iota.
    rewrite IH. unfold heappush. rewrite fmap_cons. cbn [length].
    rewrite reverse_cons, <- app_assoc. simpl. f_equal. lia.
Qed.

Lemma push_expansions_other (method : string) (cs : list PuzzleState) :
  String.eqb method "bfs" = false ->
  String.eqb method "a_star_h1" = false ->
  String.eqb method "a_star_h2" = false ->
  forall (open_list : list entry) (added : Z),
    push_expansions method cs open_list added =
    (open_list, added + Z.of_nat (length cs)).
Proof.
  intros H1 H2 H3. induction cs as [|c cs IH]; intros open_list added.
  - simpl. f_equal. lia.
  - cbn [push_expansions]. rewrite H1, H2, H3, IH. cbn [length]. f_equal. lia.
Qed.

(** ** Sequences of moves *)

Lemma slides_app (q r : list direction) (b : list Z) :
  slides b (q ++ r) = slides b q ≫= fun b' => slides b' r.
Proof.
  revert b. induction q as [|d q IH]; intros b; simpl; [reflexivity|].
  destruct (slide b d); simpl; [apply IH|reflexivity].
Qed.

Lemma slides_snoc (ds : list direction) (d : direction) (b b1 b2 : list Z) :
  slides b ds = Some b1 -> slide b1 d = Some b2 -> slides b (ds ++ [d]) = Some b2.
Proof. intros H1 H2. rewrite slides_app, H1. simpl. by rewrite H2. Qed.

Lemma trace_snoc (ds : list direction) (d : direction) :
  forall b b1 b2 : list Z,
    slides b ds = Some b1 -> slide b1 d = Some b2 ->
    trace b (ds ++ [d]) = trace b ds ++ [b2].
Proof.
  induction ds as [|d' ds IH]; intros b b1 b2; simpl.
  - intros [= <-] ->. reflexivity.
  - destruct (slide b d') as [b'|]; [|discriminate].
    intros H1 H2. by rewrite (IH _ _ _ H1 H2).
Qed.

Lemma path_cost_snoc (ds : list direction) (d : direction) :
  forall b b1 b2 : list Z,
    slides b ds = Some b1 -> slide b1 d = Some b2 ->
    path_cost b (ds ++ [d]) = path_cost b ds + tile_weight (moved_tile b1 d).
Proof.
  induction ds as [|d' ds IH]; intros b b1 b2; simpl.
  - intros [= <-] ->. lia.
  - destruct (slide b d') as [b'|]; [|discriminate].
    intros H1 H2. rewrite (IH _ _ _ H1 H2). lia.
Qed.

(** ** Parents in the closed list *)

Lemma get_parent_state_app (n par : PuzzleState) (closed more : list PuzzleState) :
  get_parent_state n closed = Some par ->
  get_parent_state n (closed ++ more) = Some par.
Proof.
  unfold get_parent_state. induction closed as [|x closed IH]; simpl; [discriminate|].
  case_bool_decide; [done|exact IH].
Qed.

Lemma get_parent_state_last (n cur : PuzzleState) (closed : list PuzzleState) :
  n.(parent_id) = Some cur.(id_no) ->
  (forall m, m ∈ closed -> m.(id_no) <> cur.(id_no)) ->
  get_parent_state n (closed ++ [cur]) = Some cur.
Proof.
  intros Hp. unfold get_parent_state. rewrite Hp.
  induction closed as [|x closed IH]; intros Hfresh; simpl.
  - by rewrite bool_decide_eq_true_2.
  - rewrite bool_decide_eq_false_2.
    + apply IH. intros m Hm. apply Hfresh. by right.
    + intros [= Heq]. apply (Hfresh x); [by left|exact Heq].
Qed.

Lemma node_ok_app (start : list Z) (closed more : list PuzzleState) (n : PuzzleState) :
  node_ok start closed n -> node_ok start (closed ++ more) n.
Proof.
  intros [Hd [Hroot|(par & d & Hpar & Hin & Hch)]]; split; try done; [by left|].
  right. exists par, d. split; [by apply get_parent_state_app|].
  split; [|done]. apply elem_of_app. by left.
Qed.

(** ** The least cost of a sequence of [k] moves *)

Lemma opt_min_l (x : option Z) (a : Z) :
  exists c, opt_min (Some a) x = Some c /\ c <= a.
Proof. destruct x as [y|]; simpl; eexists; (split; [reflexivity|lia]). Qed.

Lemma opt_min_r (x : option Z) (a : Z) :
  exists c, opt_min x (Some a) = Some c /\ c <= a.
Proof. destruct x as [y|]; simpl; eexists; (split; [reflexivity|lia]). Qed.

Lemma fold_min_le (goal : list Z) (k : nat) (b b' : list Z) (d : direction)
  (c' : Z) (L : list direction) :
  slide b d = Some b' -> min_cost_at goal k b' = Some c' -> d ∈ L ->
  exists c,
    foldr (fun d acc =>
             match slide b d with
             | Some b' =>
                 opt_min ((fun c => tile_weight (moved_tile b d) + c)
                            <$> min_cost_at goal k b') acc
             | None => acc
             end) None L = Some c /\
    c <= tile_weight (moved_tile b d) + c'.
Proof.
  intros Hd Hc'. induction L as [|d0 L IHL]; intros Hin;
    [by apply elem_of_nil in Hin|].
  simpl. apply elem_of_cons in Hin as [<-|Hin].
  - rewrite Hd, Hc'. simpl. apply opt_min_l.
  - destruct (IHL Hin) as (c & Hc & Hcle). rewrite Hc.
    destruct (slide b d0) as [b0|]; [|eauto].
    destruct (opt_min_r ((fun c => tile_weight (moved_tile b d0) + c)
                           <$> min_cost_at goal k b0) c) as (c1 & Hc1 & Hle1).
    exists c1. split; [exact Hc1|lia].
Qed.

Lemma min_cost_at_sound (goal : list Z) (k : nat) :
  forall (b : list Z) (ds : list direction),
    length ds = k -> slides b ds = Some goal ->
    exists c, min_cost_at goal k b = Some c /\ c <= path_cost b ds.
Proof.
  induction k as [|k IH]; intros b ds Hlen Hs.
  - destruct ds; [|discriminate]. simpl in *. injection Hs as ->.
    unfold list_eqb. rewrite bool_decide_eq_true_2 by reflexivity.
    exists 0. split; [reflexivity|lia].
  - destruct ds as [|d ds]; [discriminate|]. simpl in Hlen, Hs.
    cbn [min_cost_at path_cost].
    destruct (slide b d) as [b'|] eqn:Hd; [|discriminate].
    destruct (IH b' ds ltac:(lia) Hs) as (c' & Hc' & Hle).
    destruct (fold_min_le goal k b b' d c' all_directions Hd Hc') as (c & Hc & Hcle).
    { unfold all_directions. destruct d; set_solver. }
    exists c. split; [exact Hc|lia].
Qed.

Lemma detour_start_board : is_board detour_start.
Proof. unfold is_board. apply (bool_decide_unpack _). vm_compute. exact I. Qed.

Lemma detour_short_cost (ds : list direction) :
  (length ds <= 8)%nat -> slides detour_start ds = Some detour_goal ->
  44 <= path_cost detour_start ds.
Proof.
  intros Hlen Hs.
  destruct (min_cost_at_sound detour_goal (length ds) detour_start ds eq_refl Hs)
    as (c & Hc & Hle).
  assert (Hcases : (length ds = 0 \/ length ds = 1 \/ length ds = 2 \/
                    length ds = 3 \/ length ds = 4 \/ length ds = 5 \/
                    length ds = 6 \/ length ds = 7 \/ length ds = 8)%nat) by lia.
  repeat (destruct Hcases as [Hk|Hcases]; [rewrite Hk in Hc; vm_compute in Hc;
                                          try discriminate|]).
  rewrite Hcases in Hc. vm_compute in Hc. injection Hc as <-. exact Hle.
Qed.

(** ** Construction, moves and expansion of states *)

Section Search.

Variable id_of : nat -> Z.
Hypothesis id_of_inj : forall i j : nat, id_of i = id_of j -> i = j.

Variable int_is : Z -> Z -> bool.
Hypothesis int_is_eq : forall a b : Z, int_is a b = true -> a = b.
Hypothesis int_is_small : forall a : Z, -5 <= a <= 256 -> int_is a a = true.

Lemma init_ok (b : list Z) (g : option PuzzleState) (p : option Z)
  (dep cost : Z) (s : nat) :
  is_board b -> wf_goal g ->
  exists n : PuzzleState,
    PuzzleState_init id_of int_is b g p dep cost s = Ok (n, S s) /\
    n.(parent_id) = p /\ n.(id_no) = id_of s /\ n.(board_state_1d) = b /\
    n.(goal_puzzle_state) = g /\ n.(g_of_n) = cost /\ n.(depth) = dep /\
    n.(f1_of_n) = cost + n.(h1_of_n) /\ n.(f2_of_n) = cost + n.(h2_of_n) /\
    wf_state n.
Proof using int_is_eq int_is_small.
  intros Hb Hg. unfold PuzzleState_init.
  assert (exists h1, estimated_cost_to_goal_h1 int_is b g = Ok h1) as [h1 ->].
  { destruct g as [gs|]; [|by eexists].
    destruct Hg as [HG _]. eexists.
    apply (h1_is_h1_spec int_is int_is_eq int_is_small);
      auto using board_length, board_Forall. }
  assert (exists h2, estimated_cost_to_goal_h2 (to_2d_array b) g = Ok h2) as [h2 ->].
  { destruct g as [gs|]; [|by eexists].
    destruct Hg as [HG Hview]. eexists.
    apply (h2_is_h2_spec b gs); assumption. }
  simpl. eexists. split; [reflexivity|]. simpl.
  repeat split; done.
Qed.

Lemma move_cost_tile (b : list Z) (tp : nat) (t : Z) :
  b !! tp = Some t -> 1 <= t <= 15 ->
  move_cost b (Z.of_nat tp) = Ok (Some (tile_weight t)).
Proof.
  intros Ht Hr. unfold move_cost. rewrite (py_getitem_lookup _ _ _ Ht). simpl.
  destruct (tile_weight_tile t Hr) as [-> _].
  destruct (Z.ltb_spec 0 t), (Z.ltb_spec t 10), (Z.leb_spec 10 t), (Z.leb_spec t 15),
    (Z.leb_spec t 9); simpl; try reflexivity; lia.
Qed.

Lemma move_ok (n : PuzzleState) (d : direction) (b' : list Z) (s : nat) :
  wf_state n -> slide n.(board_state_1d) d = Some b' ->
  exists c : PuzzleState,
    move id_of int_is n d s = Ok (c, S s) /\
    child_of n d c /\ c.(board_state_1d) = b' /\ c.(id_no) = id_of s /\ wf_state c.
Proof using int_is_eq int_is_small.
  intros (Hb & Hview & Hg) Hs.
  pose proof (slide_board _ _ _ Hb Hs) as Hb'.
  destruct (slide_inv _ _ _ Hb Hs)
    as (zp & tp & t & Hzp & Hlt & Htp & Hne & Hok & Heq & Hz & Ht & Hr & Hmv & ->).
  destruct (init_ok (<[tp := 0]> (<[zp := t]> n.(board_state_1d)))
              n.(goal_puzzle_state) (Some n.(id_no)) (n.(depth) + 1)
              (n.(g_of_n) + tile_weight t) s Hb' Hg)
    as (c & Hc & Hp & Hid & Hbd & Hgl & Hcost & Hdep & _ & _ & Hwf).
  exists c. unfold move. rewrite Hzp, <- Heq.
  rewrite (move_cost_tile _ _ _ Ht Hr). simpl.
  rewrite (py_getitem_lookup _ _ _ Ht), (py_getitem_lookup _ _ _ Hz). simpl.
  rewrite py_setitem_lookup by (rewrite (board_length _ Hb); lia). simpl.
  rewrite py_setitem_lookup
    by (rewrite length_insert, (board_length _ Hb); lia). simpl.
  split; [exact Hc|]. split; [|done].
  unfold child_of. rewrite Hbd, Hmv. done.
Qed.

Lemma mapM_move (n : PuzzleState) (ds : list direction) :
  wf_state n ->
  Forall (fun d => is_Some (slide n.(board_state_1d) d)) ds ->
  forall s : nat,
  exists cs : list PuzzleState,
    mapM (move id_of int_is n) ds s = Ok (cs, (s + length ds)%nat) /\
    Forall2 (child_of n) ds cs /\
    (forall (i : nat) (c : PuzzleState),
       cs !! i = Some c ->
       c.(id_no) = id_of (s + i) /\ wf_state c /\
       exists d, ds !! i = Some d /\
                 move id_of int_is n d (s + i)%nat = Ok (c, S (s + i))).
Proof using int_is_eq int_is_small.
  intros Hn Hds. induction Hds as [|d ds [b' Hd] Hds IH]; intros s.
  - exists []. split; [simpl; unfold mret; do 2 f_equal; lia|].
    split; [constructor|]. intros i c Hic. rewrite lookup_nil in Hic. discriminate.
  - destruct (move_ok n d b' s Hn Hd) as (c & Hmv & Hch & _ & Hid & Hwf).
    destruct (IH (S s)) as (cs & Hcs & Hall & Hids).
    exists (c :: cs). split; [|split].
    + simpl. unfold mbind at 1. rewrite Hmv. simpl.
      unfold mbind at 1. rewrite Hcs. simpl. unfold mret. do 2 f_equal. lia.
    + by constructor.
    + intros [|i] c' Hic; simpl in Hic.
      * injection Hic as <-. rewrite Nat.add_0_r. eauto.
      * replace (s + S i)%nat with (S s + i)%nat by lia. by apply Hids.
Qed.

Lemma expand_ok (n : PuzzleState) (s : nat) :
  wf_state n ->
  exists cs : list PuzzleState,
    expand id_of int_is n s = Ok (cs, (s + length cs)%nat) /\
    Forall2 (child_of n)
      (filter (fun d => dir_ok (pos_of n.(board_state_1d) 0).1
                               (pos_of n.(board_state_1d) 0).2 d = true)
              all_directions) cs /\
    (forall (i : nat) (c : PuzzleState),
       cs !! i = Some c ->
       c.(id_no) = id_of (s + i) /\ wf_state c /\
       exists d,
         filter (fun d => dir_ok (pos_of n.(board_state_1d) 0).1
                                 (pos_of n.(board_state_1d) 0).2 d = true)
                all_directions !! i = Some d /\
         move id_of int_is n d (s + i)%nat = Ok (c, S (s + i))).
Proof using int_is_eq int_is_small.
  intros Hn. pose proof Hn as (Hb & Hview & Hg).
  destruct (board_index _ Hb 0 ltac:(lia)) as (zp & Hzp & Hlt & Hz).
  destruct (mapM_move n
              (filter (fun d => dir_ok (pos_of n.(board_state_1d) 0).1
                                       (pos_of n.(board_state_1d) 0).2 d = true)
                      all_directions) Hn) with (s := s)
    as (cs & Hcs & Hall & Hids).
  { apply Forall_forall. intros d [Hok _]%list_elem_of_filter.
    unfold pos_of in Hok. rewrite Hzp in Hok. simpl in Hok.
    destruct (slide_ok _ d zp Hb Hzp Hok) as [b' Hb']. by exists b'. }
  exists cs. pose proof (Forall2_length _ _ _ Hall) as Hlen.
  split; [|done].
  unfold expand. rewrite Hview, (board_find _ Hb) by lia.
  destruct (pos_of _ 0) as [row col] eqn:Hpos.
  unfold rbind at 1. unfold not_None, rbind.
  rewrite valid_moves_filter. simpl in Hcs, Hlen. rewrite Hcs, Hlen. reflexivity.
Qed.

Lemma find_blank (n : PuzzleState) (row col : Z) :
  wf_state n -> find n.(board_state) 0 = Ok (Some (row, col)) ->
  pos_of n.(board_state_1d) 0 = (row, col).
Proof.
  intros (Hb & Hview & _). rewrite Hview, (board_find _ Hb) by lia. congruence.
Qed.

Lemma valid_dir_slide (n : PuzzleState) (row col : Z) (d : direction) :
  wf_state n -> find n.(board_state) 0 = Ok (Some (row, col)) ->
  dir_ok row col d = true ->
  exists b', slide n.(board_state_1d) d = Some b'.
Proof.
  intros Hn Hfind Hok. pose proof (find_blank n row col Hn Hfind) as Hpos.
  destruct Hn as (Hb & _).
  destruct (board_index _ Hb 0 ltac:(lia)) as (zp & Hzp & _).
  unfold pos_of in Hpos. rewrite Hzp in Hpos. simpl in Hpos.
  injection Hpos as <- <-. by eapply slide_ok.
Qed.

Lemma expands_to_wf (n c : PuzzleState) :
  wf_state n -> expands_to id_of int_is n c -> wf_state c.
Proof using int_is_eq int_is_small.
  intros Hn Hexp. destruct Hexp as [n s s' cs c Hcs Hc].
  destruct (expand_ok n s Hn) as (cs' & Hcs' & _ & Hids).
  rewrite Hcs in Hcs'. injection Hcs' as <- _.
  apply list_elem_of_lookup in Hc as [i Hi]. by apply (Hids i c).
Qed.

(** C1: the successor of a state in a valid direction has the g of its
    parent plus the weight of the tile that slides into the blank: 1 for
    a tile 1-9, 10 for a tile 10-15.  The tile is the one read, on the
    board before the swap, at the position the blank moves to; it is
    never the blank.  The successors that [expand] returns are these. *)
Theorem successor_cost_is_weight_of_moved_tile (n : PuzzleState) (s : nat) :
  wf_state n ->
  (forall (row col : Z) (d : direction),
     find n.(board_state) 0 = Ok (Some (row, col)) -> dir_ok row col d = true ->
     exists (c : PuzzleState) (zp : nat) (t : Z),
       move id_of int_is n d s = Ok (c, S s) /\
       index n.(board_state_1d) 0 = Some zp /\
       n.(board_state_1d) !! Z.to_nat (Z.of_nat zp + dirs d) = Some t /\
       1 <= t <= 15 /\
       c.(board_state_1d) !! zp = Some t /\
       c.(g_of_n) = n.(g_of_n) + (if t <=? 9 then 1 else 10)) /\
  (exists (row col : Z) (cs : list PuzzleState),
     find n.(board_state) 0 = Ok (Some (row, col)) /\
     expand id_of int_is n s = Ok (cs, (s + length cs)%nat) /\
     Forall2 (fun d c => exists s', move id_of int_is n d s' = Ok (c, S s'))
       (filter (fun d => dir_ok row col d = true) all_directions) cs).
Proof using int_is_eq int_is_small.
  intros Hn. split.
  - intros row col d Hfind Hok.
    destruct (valid_dir_slide n row col d Hn Hfind Hok) as [b' Hs].
    destruct (move_ok n d b' s Hn Hs) as (c & Hmv & Hch & Hbd & _).
    destruct Hn as (Hb & _).
    destruct (slide_inv _ _ _ Hb Hs)
      as (zp & tp & t & Hzp & Hlt & Htp & Hne & _ & Heq & Hz & Ht & Hr & Hmt & ->).
    exists c, zp, t. split; [exact Hmv|]. split; [exact Hzp|].
    rewrite <- Heq, Nat2Z.id. split; [exact Ht|]. split; [exact Hr|]. split.
    + rewrite Hbd, list_lookup_insert_ne by done.
      apply list_lookup_insert_eq. rewrite (board_length _ Hb). lia.
    + destruct Hch as (_ & _ & _ & Hg & _). rewrite Hg, Hmt.
      by destruct (tile_weight_tile t Hr) as [-> _].
  - destruct (expand_ok n s Hn) as (cs & Hcs & Hall & Hids).
    pose proof Hn as (Hb & Hview & _).
    destruct (pos_of n.(board_state_1d) 0) as [row col] eqn:Hpos.
    exists row, col, cs. split; [|split; [exact Hcs|]].
    { rewrite Hview, (board_find _ Hb) by lia. by rewrite Hpos. }
    simpl in Hall. apply Forall2_same_length_lookup. split.
    { by eapply Forall2_length. }
    intros i d c Hd Hc. destruct (Hids i c Hc) as (_ & _ & d' & Hd' & Hmv).
    simpl in Hd'. rewrite Hd in Hd'. injection Hd' as <-. eauto.
Qed.

Lemma child_blank (n c : PuzzleState) (row col : Z) (d : direction) :
  wf_state n -> wf_state c -> child_of n d c ->
  find n.(board_state) 0 = Ok (Some (row, col)) ->
  find c.(board_state) 0 = Ok (Some (step_pos row col d)) /\
  0 <= (step_pos row col d).1 <= 3 /\ 0 <= (step_pos row col d).2 <= 3.
Proof.
  intros Hn Hc (Hs & _) Hfind.
  pose proof (find_blank n row col Hn Hfind) as Hpos.
  destruct Hn as (Hb & _). destruct Hc as (Hb' & Hview' & _).
  pose proof (slide_blank _ _ _ Hb Hs) as Hstep. rewrite Hpos in Hstep.
  simpl in Hstep. rewrite <- Hstep.
  split; [by rewrite Hview', (board_find _ Hb') by lia|].
  pose proof (pos_of_board _ 0 Hb' ltac:(lia)). tauto.
Qed.

(** C5: [expand] returns one successor per direction that keeps the
    blank inside the grid (up iff row > 0, down iff row < 3, left iff
    col > 0, right iff col < 3), in the order up, down, left, right; each
    is the move of the state in that direction and has its blank one
    cell further in that direction.  With the blank at (0,0) there are
    exactly two, down then right; with the blank at (1,1) exactly four. *)
Theorem expand_valid_directions_in_order (n : PuzzleState) (s : nat) :
  wf_state n ->
  exists (row col : Z) (cs : list PuzzleState),
    find n.(board_state) 0 = Ok (Some (row, col)) /\
    expand id_of int_is n s = Ok (cs, (s + length cs)%nat) /\
    Forall2 (fun d c =>
               (exists s', move id_of int_is n d s' = Ok (c, S s')) /\
               find c.(board_state) 0 = Ok (Some (step_pos row col d)) /\
               0 <= (step_pos row col d).1 <= 3 /\
               0 <= (step_pos row col d).2 <= 3)
      (filter (fun d => dir_ok row col d = true) [up; down; left; right]) cs /\
    (row = 0 -> col = 0 ->
     exists c1 c2, cs = [c1; c2] /\
       find c1.(board_state) 0 = Ok (Some (1, 0)) /\
       find c2.(board_state) 0 = Ok (Some (0, 1))) /\
    (row = 1 -> col = 1 -> length cs = 4%nat).
Proof using int_is_eq int_is_small.
  intros Hn. destruct (expand_ok n s Hn) as (cs & Hcs & Hall & Hids).
  pose proof Hn as (Hb & Hview & _).
  destruct (pos_of n.(board_state_1d) 0) as [row col] eqn:Hpos.
  assert (Hfind : find n.(board_state) 0 = Ok (Some (row, col))).
  { rewrite Hview, (board_find _ Hb) by lia. by rewrite Hpos. }
  simpl in Hall.
  assert (Hsucc : Forall2 (fun d c =>
               (exists s', move id_of int_is n d s' = Ok (c, S s')) /\
               find c.(board_state) 0 = Ok (Some (step_pos row col d)) /\
               0 <= (step_pos row col d).1 <= 3 /\
               0 <= (step_pos row col d).2 <= 3)
      (filter (fun d => dir_ok row col d = true) [up; down; left; right]) cs).
  { apply Forall2_same_length_lookup. split; [by eapply Forall2_length|].
    intros i d c Hd Hc. destruct (Hids i c Hc) as (_ & Hwf & d' & Hd' & Hmv).
    simpl in Hd'. unfold all_directions in Hd'. rewrite Hd in Hd'.
    injection Hd' as <-. split; [eauto|].
    pose proof (Forall2_lookup_lr _ _ _ _ _ _ Hall Hd Hc) as Hch.
    by apply (child_blank n c row col d). }
  exists row, col, cs. split; [exact Hfind|]. split; [exact Hcs|].
  split; [exact Hsucc|]. split.
  - intros -> ->. rewrite !filter_cons, filter_nil in Hsucc. simpl in Hsucc.
    inversion Hsucc as [|? c1 ? cs1 (_ & H1 & _) Hrest]; subst.
    inversion Hrest as [|? c2 ? cs2 (_ & H2 & _) Hnil]; subst.
    inversion Hnil; subst. by exists c1, c2.
  - intros -> ->. rewrite <- (Forall2_length _ _ _ Hsucc). reflexivity.
Qed.

(** C8: a move in a valid direction takes a board to a board, so every
    state reached by expansion from a state with a board holds a board,
    with exactly one blank. *)
Theorem moves_preserve_boards :
  (forall (n : PuzzleState) (row col : Z) (d : direction) (s : nat),
     wf_state n ->
     find n.(board_state) 0 = Ok (Some (row, col)) -> dir_ok row col d = true ->
     exists c : PuzzleState,
       move id_of int_is n d s = Ok (c, S s) /\ is_board c.(board_state_1d)) /\
  (forall n m : PuzzleState,
     wf_state n -> rtc (expands_to id_of int_is) n m ->
     is_board m.(board_state_1d) /\ blank_count m.(board_state_1d) = 1%nat).
Proof using int_is_eq int_is_small.
  split.
  - intros n row col d s Hn Hfind Hok.
    destruct (valid_dir_slide n row col d Hn Hfind Hok) as [b' Hs].
    destruct (move_ok n d b' s Hn Hs) as (c & Hmv & _ & _ & _ & Hwf & _).
    eauto.
  - intros n m Hn Hreach.
    assert (Hm : wf_state m).
    { induction Hreach as [|x y z Hxy _ IH]; [exact Hn|].
      apply IH. by apply (expands_to_wf x y). }
    destruct Hm as (Hb & _). split; [exact Hb|]. by apply blank_count_board.
Qed.

(** ** The search driver *)

Lemma solve_loop_S (fuel pfuel : nat) (goal : list Z) (method : string)
  (open_list : list entry) (closed_list : list PuzzleState) (added : Z) (s : nat) :
  solve_loop id_of int_is (S fuel) pfuel goal method open_list closed_list added s =
  (do '(popped, open') <- heappop open_list;
   let cur_state := popped.2 in
   if list_eqb cur_state.(board_state_1d) goal then
     do report <- print_success_message int_is pfuel cur_state closed_list added method;
     Ok (report, s)
   else
     do '(expansions, s') <- expand id_of int_is cur_state s;
     let '(open'', added') := push_expansions method expansions open' added in
     solve_loop id_of int_is fuel pfuel goal method open''
       (closed_list ++ [cur_state]) added' s').
Proof. reflexivity. Qed.

Lemma get_state_path_loop_prefix (fuel : nat) :
  forall (cur : PuzzleState) (path closed_list p : list PuzzleState),
    get_state_path_loop int_is fuel cur path closed_list = Ok p ->
    exists rest, p = path ++ rest.
Proof.
  induction fuel as [|fuel IH]; intros cur path closed_list p; simpl.
  - destruct (int_is _ 0); simpl; [|discriminate].
    intros [= <-]. exists []. by rewrite app_nil_r.
  - destruct (int_is _ 0); simpl.
    + intros [= <-]. exists []. by rewrite app_nil_r.
    + destruct (get_parent_state cur closed_list) as [par|]; [|discriminate].
      intros H. destruct (IH _ _ _ _ H) as [rest ->].
      exists (par :: rest). by rewrite <- app_assoc.
Qed.

Lemma solve_loop_reports_goal (fuel pfuel : nat) (goal : list Z) (method : string) :
  forall (open_list : list entry) (closed_list : list PuzzleState) (added : Z)
         (s s' : nat) (rep : Report),
    solve_loop id_of int_is fuel pfuel goal method open_list closed_list added s =
      Ok (rep, s') ->
    exists end_state rest,
      rep.(rep_path) = end_state :: rest /\ end_state.(board_state_1d) = goal.
Proof.
  induction fuel as [|fuel IH]; intros open_list closed_list added s s' rep.
  - discriminate.
  - rewrite solve_loop_S.
    destruct (heappop open_list) as [[[[p i] cur] open']| |]; simpl; try discriminate.
    unfold list_eqb. case_bool_decide as Hgoal.
    + unfold print_success_message, get_state_path.
      destruct (get_state_path_loop int_is pfuel cur [cur] closed_list)
        as [path| |] eqn:Hpath; simpl; try discriminate.
      intros [= <- <-]. simpl.
      destruct (get_state_path_loop_prefix _ _ _ _ _ Hpath) as [rest ->].
      by exists cur, rest.
    + destruct (expand id_of int_is cur s) as [[cs s1]| |]; simpl; try discriminate.
      destruct (push_expansions method cs open' added) as [open'' added'].
      apply IH.
Qed.

Lemma init_pair (start goal : list Z) (s : nat) :
  is_board start -> is_board goal ->
  exists goal_state start_state : PuzzleState,
    PuzzleState_init id_of int_is goal None None 0 0 s = Ok (goal_state, S s) /\
    PuzzleState_init id_of int_is start (Some goal_state) None 0 0 (S s) =
      Ok (start_state, S (S s)) /\
    start_state.(id_no) = id_of (S s) /\
    start_state.(board_state_1d) = start /\
    start_state.(parent_id) = None /\
    start_state.(g_of_n) = 0 /\ start_state.(depth) = 0 /\
    wf_state start_state.
Proof using int_is_eq int_is_small.
  intros Hs Hg.
  destruct (init_ok goal None None 0 0 s Hg I)
    as (gs & Hgs & _ & _ & Hgb & _ & _ & _ & _ & _ & Hgwf).
  destruct Hgwf as (Hgb' & Hgview & _).
  destruct (init_ok start (Some gs) None 0 0 (S s) Hs (conj Hgb' Hgview))
    as (st & Hst & Hpar & Hid & Hb & _ & Hcost & Hdep & _ & _ & Hwf).
  exists gs, st. done.
Qed.

(** C6: when the start board is the goal board, [solve] ends in its first
    iteration, having popped the root only and built no state beyond the
    goal state and the root: the path is the root alone (0 moves),
    nothing was added to the open list and the closed list is empty.
    This is so whatever the method. *)
Theorem solve_start_equals_goal (b : list Z) (method : string) (fuel pfuel s : nat) :
  is_board b ->
  exists (rep : Report) (start_state : PuzzleState),
    solve id_of int_is (S fuel) pfuel b b method s = Ok (rep, S (S s)) /\
    solve id_of int_is 1 pfuel b b method s = Ok (rep, S (S s)) /\
    rep.(rep_path) = [start_state] /\
    start_state.(board_state_1d) = b /\ start_state.(depth) = 0 /\
    rep.(rep_moves) = 0 /\ rep.(rep_added) = 0 /\ rep.(rep_closed) = 0.
Proof using int_is_eq int_is_small.
  intros Hb.
  destruct (init_pair b b s Hb Hb)
    as (gs & st & Hgs & Hst & Hid & Hbd & Hpar & Hcost & Hdep & Hwf).
  assert (Hrun : forall f, solve id_of int_is (S f) pfuel b b method s =
            Ok (mkReport method [st] 0 0 0, S (S s))).
  { intros f. unfold solve. rewrite Hgs. simpl. rewrite Hst. simpl.
    rewrite Hbd. unfold list_eqb. rewrite bool_decide_eq_true_2 by reflexivity.
    unfold print_success_message, get_state_path.
    assert (Hpath : get_state_path_loop int_is pfuel st [st] [] = Ok [st]).
    { destruct pfuel; simpl; rewrite Hdep, int_is_small by lia; reflexivity. }
    rewrite Hpath. reflexivity. }
  exists (mkReport method [st] 0 0 0), st. rewrite !Hrun. done.
Qed.

(** ** Path reconstruction *)

Lemma path_chain (start : list Z) (closed : list PuzzleState) :
  (forall n, n ∈ closed -> node_ok start closed n) ->
  forall (m : nat) (n : PuzzleState) (acc : list PuzzleState) (pfuel : nat),
    node_ok start closed n -> n.(depth) = Z.of_nat m -> (m <= pfuel)%nat ->
    exists (chain : list PuzzleState) (ds : list direction),
      get_state_path_loop int_is pfuel n acc closed = Ok (acc ++ chain) /\
      length chain = m /\ length ds = m /\
      slides start ds = Some n.(board_state_1d) /\
      path_cost start ds = n.(g_of_n) /\
      reverse (trace start ds) = n.(board_state_1d) :: (board_state_1d <$> chain).
Proof using int_is_eq int_is_small.
  intros Hclosed m. induction m as [|m IH]; intros n acc pfuel Hn Hdep Hfuel.
  - exists [], [].
    assert (Hloop : get_state_path_loop int_is pfuel n acc closed = Ok acc).
    { destruct pfuel; simpl; rewrite Hdep; simpl; rewrite int_is_small by lia;
        reflexivity. }
    rewrite Hloop, app_nil_r. split; [reflexivity|].
    destruct Hn as [_ [(_ & Hb & Hg)|(par & d & _ & Hin & Hch)]].
    + rewrite Hb, Hg. done.
    + destruct (Hclosed par Hin) as [Hpd _].
      destruct Hch as (_ & _ & _ & _ & Hd). lia.
  - destruct pfuel as [|pfuel]; [lia|].
    destruct Hn as [_ [(Hd0 & _)|(par & d & Hpar & Hin & Hch)]]; [lia|].
    pose proof Hch as (Hslide & _ & _ & Hg & Hd).
    destruct (IH par (acc ++ [par]) pfuel (Hclosed par Hin) ltac:(lia) ltac:(lia))
      as (chain & ds & Hloop & Hlc & Hlds & Hs & Hcost & Htrace).
    exists (par :: chain), (ds ++ [d]).
    split; [|split; [|split; [|split; [|split]]]].
    + simpl. destruct (int_is n.(depth) 0) eqn:His.
      { apply int_is_eq in His. lia. }
      simpl. rewrite Hpar, Hloop. by rewrite <- app_assoc.
    + simpl. by rewrite Hlc.
    + rewrite length_app. simpl. lia.
    + by eapply slides_snoc.
    + rewrite (path_cost_snoc _ _ _ _ _ Hs Hslide). lia.
    + rewrite (trace_snoc _ _ _ _ _ Hs Hslide), reverse_snoc, Htrace. reflexivity.
Qed.

(** ** One iteration of the search *)

Lemma frontier_pushed (cs : list PuzzleState) (open' : list entry) :
  frontier (reverse ((fun c => (c.(depth), c.(id_no), c)) <$> cs) ++ open')
  ≡ₚ cs ++ frontier open'.
Proof.
  unfold frontier. rewrite fmap_app, fmap_reverse, reverse_Permutation.
  assert (snd <$> ((fun c : PuzzleState => (c.(depth), c.(id_no), c)) <$> cs) = cs)
    as ->; [|done].
  induction cs as [|c cs IH]; [done|]. rewrite !fmap_cons, IH. reflexivity.
Qed.

Lemma expand_covers (cur : PuzzleState) (cs : list PuzzleState)
  (d : direction) (b1 : list Z) :
  wf_state cur ->
  Forall2 (child_of cur)
    (filter (fun d => dir_ok (pos_of cur.(board_state_1d) 0).1
                             (pos_of cur.(board_state_1d) 0).2 d = true)
            all_directions) cs ->
  slide cur.(board_state_1d) d = Some b1 ->
  exists c, c ∈ cs /\ child_of cur d c.
Proof.
  intros (Hb & _) Hall Hs.
  destruct (slide_inv _ _ _ Hb Hs) as (zp & tp & t & Hzp & _ & _ & _ & Hok & _).
  assert (Hd : d ∈ filter (fun d => dir_ok (pos_of cur.(board_state_1d) 0).1
                             (pos_of cur.(board_state_1d) 0).2 d = true)
                          all_directions).
  { apply list_elem_of_filter. split.
    - unfold pos_of. rewrite Hzp. exact Hok.
    - unfold all_directions. destruct d; set_solver. }
  apply list_elem_of_lookup in Hd as [i Hi].
  destruct (Forall2_lookup_l _ _ _ _ _ Hall Hi) as (c & Hc & Hch).
  exists c. split; [|exact Hch]. apply list_elem_of_lookup. eauto.
Qed.

Lemma inv_step (start goal : list Z) (counter : nat) (open_list open' : list entry)
  (closed : list PuzzleState) (p i : Z) (cur : PuzzleState) :
  search_inv id_of start goal counter open_list closed ->
  heappop open_list = Ok ((p, i, cur), open') ->
  cur.(board_state_1d) <> goal ->
  exists cs : list PuzzleState,
    expand id_of int_is cur counter = Ok (cs, (counter + length cs)%nat) /\
    (length cs <= 4)%nat /\
    (forall c, c ∈ cs -> c.(depth) = cur.(depth) + 1) /\
    search_inv id_of start goal (counter + length cs)
      (reverse ((fun c => (c.(depth), c.(id_no), c)) <$> cs) ++ open')
      (closed ++ [cur]).
Proof using id_of_inj int_is_eq int_is_small.
  intros [Hkeys Hwf Hids Hnodup Hlinked Hcover Hclosed] Hpop Hne.
  destruct (heappop_spec _ _ _ Hpop) as [Hperm _].
  assert (Hfront : frontier open_list ≡ₚ cur :: frontier open').
  { unfold frontier. by rewrite Hperm. }
  assert (Hcur : cur ∈ frontier open_list) by (rewrite Hfront; left).
  assert (Hcurwf : wf_state cur) by (apply Hwf, elem_of_app; by left).
  destruct (expand_ok cur counter Hcurwf) as (cs & Hcs & Hall & Hnew).
  set (open'' := reverse ((fun c => (c.(depth), c.(id_no), c)) <$> cs) ++ open').
  assert (Hnodes : frontier open'' ++ closed ++ [cur]
                   ≡ₚ cs ++ frontier open_list ++ closed).
  { unfold open''. rewrite frontier_pushed, Hfront, <- !app_assoc.
    apply Permutation_app_head.
    rewrite (Permutation_app_comm closed [cur]). simpl.
    symmetry. apply Permutation_middle. }
  assert (Hchild : forall c, c ∈ cs -> exists d, child_of cur d c).
  { intros c [j Hj]%list_elem_of_lookup.
    destruct (Forall2_lookup_r _ _ _ _ _ Hall Hj) as (d & _ & Hch). eauto. }
  assert (Hfresh : forall m, m ∈ closed -> m.(id_no) <> cur.(id_no)).
  { intros m Hm Heq. rewrite fmap_app in Hnodup.
    apply NoDup_app in Hnodup as (_ & Hdisj & _).
    apply (Hdisj cur.(id_no)).
    - by apply list_elem_of_fmap_2.
    - rewrite <- Heq. by apply list_elem_of_fmap_2. }
  exists cs. fold open''. split; [exact Hcs|]. split; [|split].
  { rewrite <- (Forall2_length _ _ _ Hall).
    etrans; [apply length_filter|]. reflexivity. }
  { intros c Hc. destruct (Hchild c Hc) as (d & _ & _ & _ & _ & Hd). exact Hd. }
  constructor.
  - intros p' i' n Hin. apply elem_of_app in Hin as [Hin|Hin].
    + apply elem_of_reverse, list_elem_of_fmap in Hin as (c & [= -> -> ->] & _).
      done.
    + apply (Hkeys p' i' n). rewrite Hperm. by right.
  - intros n Hn. rewrite Hnodes in Hn.
    apply elem_of_app in Hn as [[j Hj]%list_elem_of_lookup|Hn].
    + by apply (Hnew j n).
    + by apply Hwf.
  - intros n Hn. rewrite Hnodes in Hn.
    apply elem_of_app in Hn as [[j Hj]%list_elem_of_lookup|Hn].
    + exists (counter + j)%nat. split; [|by apply (Hnew j n)].
      apply lookup_lt_Some in Hj. lia.
    + destruct (Hids n Hn) as (k & Hk & Hid). exists k. split; [lia|exact Hid].
  - rewrite Hnodes, fmap_app. apply NoDup_app. split; [|split].
    + apply NoDup_alt. intros j1 j2 x H1 H2.
      rewrite list_lookup_fmap in H1, H2.
      destruct (cs !! j1) as [c1|] eqn:Hc1; [|discriminate].
      destruct (cs !! j2) as [c2|] eqn:Hc2; [|discriminate].
      simpl in H1, H2. destruct (Hnew _ _ Hc1) as [Hi1 _].
      destruct (Hnew _ _ Hc2) as [Hi2 _].
      assert (id_of (counter + j1) = id_of (counter + j2)) as Heq by congruence.
      apply id_of_inj in Heq. lia.
    + intros x (c & -> & [j Hj]%list_elem_of_lookup)%list_elem_of_fmap
        (n & Hx & Hn)%list_elem_of_fmap.
      destruct (Hnew _ _ Hj) as [Hi1 _]. destruct (Hids n Hn) as (k & Hk & Hi2).
      assert (id_of (counter + j) = id_of k) as Heq by congruence.
      apply id_of_inj in Heq. lia.
    + exact Hnodup.
  - intros n Hn. rewrite Hnodes in Hn.
    apply elem_of_app in Hn as [Hn|Hn].
    + destruct (Hchild n Hn) as [d Hch]. split.
      * destruct (Hlinked cur ltac:(apply elem_of_app; by left)) as [Hd _].
        destruct Hch as (_ & _ & _ & _ & ->). lia.
      * right. exists cur, d. split; [|split; [|exact Hch]].
        -- apply get_parent_state_last; [|exact Hfresh]. by destruct Hch as (_ & ? & _).
        -- apply elem_of_app. right. by left.
    + by apply node_ok_app, Hlinked.
  - intros ds b Hds.
    destruct (Hcover ds b Hds) as [(q & r & n & -> & Hn & Hq & Hdq)|(n & Hn & Hb)].
    + rewrite Hfront in Hn. apply elem_of_cons in Hn as [->|Hn].
      * destruct r as [|d r].
        -- right. exists cur. split; [apply elem_of_app; right; by left|].
           rewrite app_nil_r in Hds. congruence.
        -- rewrite slides_app, Hq in Hds. simpl in Hds.
           destruct (slide cur.(board_state_1d) d) as [b1|] eqn:Hs; [|discriminate].
           destruct (expand_covers cur cs d b1 Hcurwf Hall Hs) as (c & Hc & Hch).
           left. exists (q ++ [d]), r, c.
           split; [by rewrite <- app_assoc|]. split; [|split].
           ++ unfold open''. rewrite frontier_pushed. apply elem_of_app. by left.
           ++ destruct Hch as (Hsc & _). eapply slides_snoc; eauto.
           ++ destruct Hch as (_ & _ & _ & _ & ->). rewrite length_app. simpl. lia.
      * left. exists q, r, n. split; [done|]. split; [|done].
        unfold open''. rewrite frontier_pushed. apply elem_of_app. by right.
    + right. exists n. split; [|exact Hb]. apply elem_of_app. by left.
  - intros n [Hn|Hn%list_elem_of_singleton]%elem_of_app; [by apply Hclosed|].
    by subst n.
Qed.

(** ** Termination measure *)

Lemma subtree_size_pos (j : nat) : (1 <= subtree_size j)%nat.
Proof. destruct j; simpl; lia. Qed.

Lemma children_measure (k d : Z) (cs : list PuzzleState) :
  (forall c, c ∈ cs -> c.(depth) = d) ->
  frontier_measure k ((fun c => (c.(depth), c.(id_no), c)) <$> cs) =
  (length cs * (if (d <=? k)%Z then subtree_size (Z.to_nat (k - d)%Z) else 0))%nat.
Proof.
  unfold frontier_measure. induction cs as [|c cs IH]; intros Hd; [reflexivity|].
  rewrite fmap_cons. simpl. rewrite IH by (intros c' Hc'; apply Hd; by right).
  unfold node_measure. rewrite (Hd c) by left. reflexivity.
Qed.

Lemma measure_step (k : Z) (open_list open' : list entry) (p i : Z)
  (cur : PuzzleState) (cs : list PuzzleState) :
  open_list ≡ₚ (p, i, cur) :: open' ->
  0 <= cur.(depth) <= k ->
  (length cs <= 4)%nat ->
  (forall c, c ∈ cs -> c.(depth) = cur.(depth) + 1) ->
  (frontier_measure k
     (reverse ((fun c => (c.(depth), c.(id_no), c)) <$> cs) ++ open')
   < frontier_measure k open_list)%nat.
Proof.
  intros Hperm Hdep Hlen Hcs. unfold frontier_measure at 2. rewrite Hperm. simpl.
  unfold frontier_measure at 1. rewrite sum_list_with_app, sum_list_with_reverse.
  fold (frontier_measure k ((fun c => (c.(depth), c.(id_no), c)) <$> cs)).
  fold (frontier_measure k open').
  rewrite (children_measure k (cur.(depth) + 1) cs Hcs).
  unfold node_measure. destruct (Z.leb_spec cur.(depth) k) as [_|?]; [|lia].
  destruct (Z.leb_spec (cur.(depth) + 1) k) as [Hle|Hgt].
  - replace (Z.to_nat (k - cur.(depth)))
      with (S (Z.to_nat (k - (cur.(depth) + 1)))) by lia.
    simpl. pose proof (subtree_size_pos (Z.to_nat (k - (cur.(depth) + 1)))). nia.
  - pose proof (subtree_size_pos (Z.to_nat (k - cur.(depth)))). lia.
Qed.

(** ** Breadth-first search finds a shortest sequence of moves *)

Lemma bfs_loop (start goal : list Z) (ds_goal : list direction) (pfuel : nat) :
  slides start ds_goal = Some goal ->
  (length ds_goal <= pfuel)%nat ->
  forall (fuel : nat) (open_list : list entry) (closed : list PuzzleState)
         (added : Z) (counter : nat),
    search_inv id_of start goal counter open_list closed ->
    (frontier_measure (Z.of_nat (length ds_goal)) open_list < fuel)%nat ->
    exists (rep : Report) (s' : nat) (ds : list direction),
      solve_loop id_of int_is fuel pfuel goal "bfs" open_list closed added counter =
        Ok (rep, s') /\
      shortest_report start goal rep ds.
Proof using id_of_inj int_is_eq int_is_small.
  intros Hgoal Hpfuel fuel.
  induction fuel as [|fuel IH]; intros open_list closed added counter Hinv Hfuel;
    [lia|].
  pose proof Hinv as [Hkeys Hwf Hids Hnodup Hlinked Hcover Hclosed].
  assert (Hnonempty : exists n, n ∈ frontier open_list).
  { destruct (Hcover _ _ Hgoal) as [(_ & _ & n & _ & Hn & _)|(n & Hn & Hb)]; [eauto|].
    by destruct (Hclosed n Hn). }
  destruct Hnonempty as [n0 (e0 & _ & He0)%list_elem_of_fmap].
  destruct (heappop_nonempty _ _ He0) as ([[p i] cur] & open' & Hpop).
  destruct (heappop_spec _ _ _ Hpop) as [Hperm Hmin].
  assert (Hcur_in : (p, i, cur) ∈ open_list) by (rewrite Hperm; left).
  destruct (Hkeys _ _ _ Hcur_in) as [-> ->].
  assert (Hcur_front : cur ∈ frontier open_list ++ closed).
  { apply elem_of_app. left. by apply (list_elem_of_fmap_2 snd _ _ Hcur_in). }
  assert (Hleast : forall n, n ∈ frontier open_list -> cur.(depth) <= n.(depth)).
  { intros n ([[p' i'] n'] & -> & Hn)%list_elem_of_fmap. simpl.
    destruct (Hkeys _ _ _ Hn) as [-> ->].
    pose proof (Hmin _ Hn) as Hlt. apply not_true_iff_false in Hlt.
    rewrite entry_lt_spec in Hlt. simpl in Hlt. lia. }
  assert (Hlow : forall ds', slides start ds' = Some goal ->
                             cur.(depth) <= Z.of_nat (length ds')).
  { intros ds' Hds'.
    destruct (Hcover _ _ Hds') as [(q & r & n & -> & Hn & _ & Hd)|(n & Hn & Hb)].
    - pose proof (Hleast n Hn). rewrite length_app. lia.
    - by destruct (Hclosed n Hn). }
  destruct (Hlinked cur Hcur_front) as [Hdep0 Hcur_ok].
  rewrite solve_loop_S, Hpop. simpl. unfold list_eqb. case_bool_decide as Hfound.
  - destruct (path_chain start closed
                (fun n Hn => Hlinked n ltac:(apply elem_of_app; by right))
                (Z.to_nat cur.(depth)) cur [cur] pfuel
                (conj Hdep0 Hcur_ok) ltac:(lia))
      as (chain & ds & Hpath & Hlc & Hlds & Hs & Hcost & Htrace).
    { pose proof (Hlow _ Hgoal). lia. }
    unfold print_success_message, get_state_path. rewrite Hpath. simpl.
    eexists _, counter, ds. split; [reflexivity|].
    unfold shortest_report. simpl. rewrite Hlc.
    split; [congruence|]. split; [by rewrite Htrace|]. split; [lia|].
    split; [lia|]. split; [by exists cur, chain|].
    intros ds' Hds'. pose proof (Hlow _ Hds'). lia.
  - destruct (inv_step _ _ _ _ _ _ _ _ _ Hinv Hpop Hfound)
      as (cs & Hcs & Hlen & Hdeps & Hinv').
    rewrite Hcs. simpl. rewrite push_expansions_bfs.
    apply IH; [exact Hinv'|].
    pose proof (Hlow _ Hgoal).
    pose proof (measure_step (Z.of_nat (length ds_goal)) _ _ _ _ _ cs Hperm
                  ltac:(lia) Hlen Hdeps).
    lia.
Qed.

Lemma bfs_solve (start goal : list Z) (ds_goal : list direction)
  (fuel pfuel s : nat) :
  is_board start -> slides start ds_goal = Some goal ->
  (subtree_size (length ds_goal) < fuel)%nat -> (length ds_goal <= pfuel)%nat ->
  exists (rep : Report) (s' : nat) (ds : list direction),
    solve id_of int_is fuel pfuel start goal "bfs" s = Ok (rep, s') /\
    shortest_report start goal rep ds.
Proof using id_of_inj int_is_eq int_is_small.
  intros Hstart Hgoal Hfuel Hpfuel.
  pose proof (slides_board _ _ _ Hstart Hgoal) as Hg.
  destruct (init_pair start goal s Hstart Hg)
    as (gs & st & Hgs & Hst & Hid & Hbd & Hpar & Hcost & Hdep & Hwf).
  unfold solve. rewrite Hgs. simpl. rewrite Hst. simpl. unfold heappush.
  apply (bfs_loop start goal ds_goal pfuel Hgoal Hpfuel).
  - constructor.
    + intros p i n Hin. apply list_elem_of_singleton in Hin.
      injection Hin as -> -> ->. by rewrite Hdep.
    + intros n Hn. simpl in Hn. apply list_elem_of_singleton in Hn. by subst.
    + intros n Hn. simpl in Hn. apply list_elem_of_singleton in Hn. subst.
      exists (S s). split; [lia|done].
    + simpl. apply NoDup_singleton.
    + intros n Hn. simpl in Hn. apply list_elem_of_singleton in Hn. subst.
      split; [lia|]. by left.
    + intros ds b Hds. left. exists [], ds, st. simpl.
      split; [done|]. split; [by left|]. split; [by rewrite Hbd|exact Hdep].
    + intros n Hn. by apply elem_of_nil in Hn.
  - unfold frontier_measure, node_measure. simpl. rewrite Hdep.
    destruct (Z.leb_spec 0 (Z.of_nat (length ds_goal))); [|lia].
    rewrite Z.sub_0_r, Nat2Z.id. lia.
Qed.

Lemma solve_loop_reports_goal_solve (fuel pfuel : nat) (start goal : list Z)
  (method : string) (s s' : nat) (rep : Report) :
  solve id_of int_is fuel pfuel start goal method s = Ok (rep, s') ->
  exists end_state rest,
    rep.(rep_path) = end_state :: rest /\ end_state.(board_state_1d) = goal.
Proof.
  unfold solve.
  destruct (PuzzleState_init id_of int_is goal None None 0 0 s)
    as [[gs s1]| |]; simpl; try discriminate.
  destruct (PuzzleState_init id_of int_is start (Some gs) None 0 0 s1)
    as [[st s2]| |]; simpl; try discriminate.
  apply solve_loop_reports_goal.
Qed.

(** C4: when the goal board is reachable from the start board, [solve]
    with method "bfs" reports a path whose number of moves,
    [len(path) - 1], is the least among all sequences of moves from the
    start to the goal; the path is the trace of such a sequence.  The
    total cost is not always the least: from [detour_start] to
    [detour_goal] the reported path costs more than [detour_cheap]. *)
Theorem bfs_fewest_moves_not_least_cost :
  (forall (start goal : list Z) (ds_goal : list direction) (fuel pfuel s : nat),
     is_board start -> slides start ds_goal = Some goal ->
     (subtree_size (length ds_goal) < fuel)%nat -> (length ds_goal <= pfuel)%nat ->
     exists (rep : Report) (s' : nat) (ds : list direction),
       solve id_of int_is fuel pfuel start goal "bfs" s = Ok (rep, s') /\
       slides start ds = Some goal /\
       board_state_1d <$> rep.(rep_path) = reverse (trace start ds) /\
       rep.(rep_moves) = Z.of_nat (length rep.(rep_path)) - 1 /\
       rep.(rep_moves) = Z.of_nat (length ds) /\
       (forall ds', slides start ds' = Some goal ->
                    rep.(rep_moves) <= Z.of_nat (length ds'))) /\
  (is_board detour_start /\
   slides detour_start detour_cheap = Some detour_goal /\
   forall fuel pfuel s : nat,
     (subtree_size 8 < fuel)%nat -> (8 <= pfuel)%nat ->
     exists (rep : Report) (s' : nat) (end_state : PuzzleState)
            (rest : list PuzzleState),
       solve id_of int_is fuel pfuel detour_start detour_goal "bfs" s =
         Ok (rep, s') /\
       rep.(rep_path) = end_state :: rest /\
       end_state.(board_state_1d) = detour_goal /\
       path_cost detour_start detour_cheap < end_state.(g_of_n)).
Proof using id_of_inj int_is_eq int_is_small.
  split.
  - intros start goal ds_goal fuel pfuel s Hstart Hgoal Hfuel Hpfuel.
    destruct (bfs_solve start goal ds_goal fuel pfuel s Hstart Hgoal Hfuel Hpfuel)
      as (rep & s' & ds & Hrun & Hs & Htrace & Hmoves & Hlen & _ & Hmin).
    exists rep, s', ds. repeat (split; [assumption|]).
    intros ds' Hds'. rewrite Hlen. specialize (Hmin ds' Hds'). lia.
  - split; [exact detour_start_board|]. split; [reflexivity|].
    intros fuel pfuel s Hfuel Hpfuel.
    destruct (bfs_solve detour_start detour_goal detour_short fuel pfuel s
                detour_start_board eq_refl Hfuel Hpfuel)
      as (rep & s' & ds & Hrun & Hs & Htrace & _ & _ & Hend & Hmin).
    destruct Hend as (end_state & rest & Hpath & Hg).
    exists rep, s', end_state, rest. split; [exact Hrun|]. split; [exact Hpath|].
    split.
    + destruct (solve_loop_reports_goal_solve _ _ _ _ _ _ _ _ Hrun)
        as (e & r & He & Hb). congruence.
    + rewrite Hg.
      pose proof (Hmin detour_short eq_refl) as Hle. simpl in Hle.
      pose proof (detour_short_cost ds Hle Hs) as Hcost.
      change (path_cost detour_start detour_cheap) with 34. lia.
Qed.

End Search.

(** ** A run of the search

    From [start_board3] the goal one move to the right is found after
    three expansions: the root (three successors), its successor down
    (four) and its successor left (two); the successor right is popped
    next and holds the goal. *)

Example solve_bfs_one_move :
  exists rep : Report,
    solve Z.of_nat Z.eqb 4 1 start_board3 start_board3_right "bfs" 0%nat =
      Ok (rep, 11%nat) /\
    board_state_1d <$> rep.(rep_path) = [start_board3_right; start_board3] /\
    rep.(rep_moves) = 1 /\ rep.(rep_added) = 9 /\ rep.(rep_closed) = 3.
Proof. eexists. split; [vm_compute; reflexivity|]. repeat split. Qed.

(** ** The theorems at the sample boards

    Object identities are taken to be the allocation counts and [is] on
    integers to be equality. *)

Lemma h1_weighted_mismatches_minus_one_witness :
  estimated_cost_to_goal_h1 Z.eqb start_board3 (Some sample_goal_state) = Ok 33 /\
  estimated_cost_to_goal_h1 Z.eqb goal_board (Some sample_goal_state) = Ok (-1) /\
  estimated_cost_to_goal_h1 Z.eqb start_board3 None = Ok 0.
Proof.
  pose proof (h1_weighted_mismatches_minus_one Z.eqb
                (fun a b H => proj1 (Z.eqb_eq a b) H)
                (fun a _ => Z.eqb_refl a)) as (H1 & H2 & H3).
  split; [|split].
  - rewrite (H1 start_board3 sample_goal_state); [reflexivity|reflexivity| |reflexivity].
    by_compute.
  - apply (H2 sample_goal_state); [reflexivity|]. by_compute.
  - apply H3.
Defined.

Lemma h1_minus_one_iff_goal_witness :
  (start_board3 <> goal_board ->
   exists h : Z,
     estimated_cost_to_goal_h1 Z.eqb start_board3 (Some sample_goal_state) = Ok h /\
     0 <= h) /\
  (estimated_cost_to_goal_h1 Z.eqb start_board3 (Some sample_goal_state) = Ok (-1)
   <-> start_board3 = goal_board).
Proof.
  apply (h1_minus_one_iff_goal Z.eqb
           (fun a b H => proj1 (Z.eqb_eq a b) H)
           (fun a _ => Z.eqb_refl a) start_board3 sample_goal_state).
  - unfold is_board. by_compute.
  - unfold is_board. by_compute.
Defined.

Lemma h2_weighted_manhattan_witness :
  estimated_cost_to_goal_h2 (to_2d_array start_board3) (Some sample_goal_state) =
    Ok 34 /\
  estimated_cost_to_goal_h2 sample_goal_state.(board_state) (Some sample_goal_state) =
    Ok 0.
Proof.
  destruct (h2_weighted_manhattan start_board3 sample_goal_state) as (H1 & _ & H2).
  - unfold is_board. by_compute.
  - unfold is_board. by_compute.
  - reflexivity.
  - split; [rewrite H1; reflexivity|exact H2].
Defined.

Lemma find_locates_every_value_witness :
  exists row col : Z,
    find (to_2d_array start_board1) 7 = Ok (Some (row, col)) /\
    0 <= row <= 3 /\ 0 <= col <= 3 /\
    to_2d_array start_board1 !! Z.to_nat row ≫= (.!! Z.to_nat col) = Some 7 /\
    find (to_2d_array start_board1) 7 <> Ok None.
Proof.
  apply (find_locates_every_value start_board1 7).
  - unfold is_board. by_compute.
  - lia.
Defined.

Lemma successor_cost_is_weight_of_moved_tile_witness :
  exists (c : PuzzleState) (zp : nat) (t : Z),
    move Z.of_nat Z.eqb sample_start_state right 2%nat = Ok (c, 3%nat) /\
    index sample_start_state.(board_state_1d) 0 = Some zp /\
    sample_start_state.(board_state_1d) !! Z.to_nat (Z.of_nat zp + dirs right) =
      Some t /\
    1 <= t <= 15 /\
    c.(board_state_1d) !! zp = Some t /\
    c.(g_of_n) = sample_start_state.(g_of_n) + (if t <=? 9 then 1 else 10).
Proof.
  assert (Hwf : wf_state sample_start_state) by sample_wf.
  exact (proj1 (successor_cost_is_weight_of_moved_tile Z.of_nat Z.eqb
                  (fun a b H => proj1 (Z.eqb_eq a b) H)
                  (fun a _ => Z.eqb_refl a) sample_start_state 2%nat Hwf)
               0 1 right eq_refl eq_refl).
Defined.

Lemma expand_valid_directions_in_order_witness :
  exists (row col : Z) (cs : list PuzzleState),
    find sample_start_state.(board_state) 0 = Ok (Some (row, col)) /\
    expand Z.of_nat Z.eqb sample_start_state 2%nat = Ok (cs, (2 + length cs)%nat) /\
    Forall2 (fun d c =>
               (exists s', move Z.of_nat Z.eqb sample_start_state d s' = Ok (c, S s')) /\
               find c.(board_state) 0 = Ok (Some (step_pos row col d)) /\
               0 <= (step_pos row col d).1 <= 3 /\
               0 <= (step_pos row col d).2 <= 3)
      (filter (fun d => dir_ok row col d = true) [up; down; left; right]) cs /\
    (row = 0 -> col = 0 ->
     exists c1 c2, cs = [c1; c2] /\
       find c1.(board_state) 0 = Ok (Some (1, 0)) /\
       find c2.(board_state) 0 = Ok (Some (0, 1))) /\
    (row = 1 -> col = 1 -> length cs = 4%nat).
Proof.
  apply (expand_valid_directions_in_order Z.of_nat Z.eqb
           (fun a b H => proj1 (Z.eqb_eq a b) H)
           (fun a _ => Z.eqb_refl a) sample_start_state 2%nat).
  sample_wf.
Defined.

Lemma moves_preserve_boards_witness :
  exists c : PuzzleState,
    move Z.of_nat Z.eqb sample_start_state down 2%nat = Ok (c, 3%nat) /\
    is_board c.(board_state_1d).
Proof.
  assert (Hwf : wf_state sample_start_state) by sample_wf.
  exact (proj1 (moves_preserve_boards Z.of_nat Z.eqb
                  (fun a b H => proj1 (Z.eqb_eq a b) H)
                  (fun a _ => Z.eqb_refl a))
               sample_start_state 0 1 down 2%nat Hwf eq_refl eq_refl).
Defined.

Lemma solve_start_equals_goal_witness :
  exists (rep : Report) (start_state : PuzzleState),
    solve Z.of_nat Z.eqb 1 0 goal_board goal_board "a_star_h1" 0%nat = Ok (rep, 2%nat) /\
    solve Z.of_nat Z.eqb 1 0 goal_board goal_board "a_star_h1" 0%nat = Ok (rep, 2%nat) /\
    rep.(rep_path) = [start_state] /\
    start_state.(board_state_1d) = goal_board /\ start_state.(depth) = 0 /\
    rep.(rep_moves) = 0 /\ rep.(rep_added) = 0 /\ rep.(rep_closed) = 0.
Proof.
  apply (solve_start_equals_goal Z.of_nat Z.eqb
           (fun a b H => proj1 (Z.eqb_eq a b) H)
           (fun a _ => Z.eqb_refl a) goal_board "a_star_h1" 0%nat 0%nat 0%nat).
  unfold is_board. by_compute.
Defined.

Lemma bfs_fewest_moves_not_least_cost_witness :
  exists (rep : Report) (s' : nat) (ds : list direction),
    solve Z.of_nat Z.eqb 6 1 start_board3 start_board3_right "bfs" 0%nat = Ok (rep, s') /\
    slides start_board3 ds = Some start_board3_right /\
    board_state_1d <$> rep.(rep_path) = reverse (trace start_board3 ds) /\
    rep.(rep_moves) = Z.of_nat (length rep.(rep_path)) - 1 /\
    rep.(rep_moves) = Z.of_nat (length ds) /\
    (forall ds', slides start_board3 ds' = Some start_board3_right ->
                 rep.(rep_moves) <= Z.of_nat (length ds')).
Proof.
  apply (proj1 (bfs_fewest_moves_not_least_cost Z.of_nat Nat2Z.inj Z.eqb
                  (fun a b H => proj1 (Z.eqb_eq a b) H)
                  (fun a _ => Z.eqb_refl a))
               start_board3 start_board3_right [right] 6%nat 1%nat 0%nat).
  - unfold is_board. by_compute.
  - reflexivity.
  - simpl. lia.
  - simpl. lia.
Defined.

(** * Further properties of the source *)

(** ** The 4x4 view *)

Lemma flatten_app {A : Type} (l1 l2 : list (list A)) :
  flatten (l1 ++ l2) = flatten l1 ++ flatten l2.
Proof.
  induction l1 as [|x l1 IH]; simpl; [reflexivity|]. by rewrite IH, app_assoc.
Qed.

Lemma flatten_rows {A : Type} (l : list A) (n : nat) :
  flatten (map (fun i => py_slice l (i * 4) ((i + 1) * 4)) (seq 0 n)) =
  take (4 * n) l.
Proof.
  induction n as [|n IH]; [by rewrite Nat.mul_0_r, take_0|].
  rewrite seq_S, map_app, flatten_app, IH. cbn [map flatten Nat.add].
  rewrite app_nil_r. unfold py_slice.
  replace ((n + 1) * 4 - n * 4)%nat with 4%nat by lia.
  replace (n * 4)%nat with (4 * n)%nat by lia.
  rewrite take_take_drop. f_equal. lia.
Qed.

(** X1: flattening the view that [to_2d_array] builds gives the list
    back, whatever its length. *)
Theorem flatten_to_2d_array (l : list Z) : flatten (to_2d_array l) = l.
Proof.
  unfold to_2d_array. rewrite flatten_rows. apply take_ge.
  pose proof (Nat.div_mod (length l + 4 - 1) 4 ltac:(lia)).
  pose proof (Nat.mod_upper_bound (length l + 4 - 1) 4 ltac:(lia)). lia.
Qed.

(** X2: [to_2d_array] cuts a list into [ceil(len / 4)] rows; row [i] is
    the cells from [4 i] on, at most four and at least one, and exactly
    four when the list reaches that far. *)
Theorem to_2d_array_rows (l : list Z) :
  length (to_2d_array l) = ((length l + 3) / 4)%nat /\
  forall (i : nat) (row : list Z),
    to_2d_array l !! i = Some row ->
    row = take 4 (drop (4 * i) l) /\
    (1 <= length row <= 4)%nat /\
    (4 * (i + 1) <= length l -> length row = 4)%nat.
Proof.
  unfold to_2d_array. split.
  - rewrite length_map, length_seq. f_equal; lia.
  - intros i row Hrow.
    change (map ?f ?x) with (f <$> x) in Hrow.
    rewrite list_lookup_fmap in Hrow.
    destruct (seq 0 ((length l + 4 - 1) / 4) !! i) as [j|] eqn:Hj; [|discriminate].
    apply lookup_seq in Hj as [-> Hlt]. simpl in Hrow. injection Hrow as <-.
    unfold py_slice. replace ((i + 1) * 4 - i * 4)%nat with 4%nat by lia.
    replace (i * 4)%nat with (4 * i)%nat by lia.
    split; [reflexivity|].
    rewrite length_take, length_drop.
    pose proof (Nat.div_mod (length l + 4 - 1) 4 ltac:(lia)).
    pose proof (Nat.mod_upper_bound (length l + 4 - 1) 4 ltac:(lia)). lia.
Qed.

(** ** [find] on lists that are not boards *)

(** X3: on any list of 16 cells [find] does not raise; it returns [None]
    exactly when the value is absent, and otherwise the (row, col) of
    the first cell, in row-major order, that holds the value. *)
Theorem find_sixteen_cells (b : list Z) (v : Z) :
  length b = 16%nat ->
  (find (to_2d_array b) v = Ok None <-> v ∉ b) /\
  (forall row col : Z,
     find (to_2d_array b) v = Ok (Some (row, col)) ->
     exists i : nat,
       row = Z.of_nat i / 4 /\ col = Z.of_nat i mod 4 /\
       b !! i = Some v /\ forall j, (j < i)%nat -> b !! j <> Some v) /\
  (forall e : exn, find (to_2d_array b) v <> Raise e) /\
  find (to_2d_array b) v <> OutOfFuel.
Proof.
  intros Hlen. rewrite (find_index b v Hlen).
  split; [|split; [|split; [|discriminate]]].
  - destruct (index b v) as [i|] eqn:Hi; simpl.
    + split; [discriminate|]. intros Hnot. exfalso. apply Hnot.
      apply list_elem_of_lookup. exists i. by apply index_Some.
    + split; [|done]. intros _. by apply index_None.
  - intros row col. destruct (index b v) as [i|] eqn:Hi; simpl; [|discriminate].
    intros [= <- <-]. exists i. destruct (index_Some _ _ _ Hi) as [Hl Hfirst]. done.
  - intros e. discriminate.
Qed.

Lemma find_short_board (b : list Z) (v : Z) :
  (length b < 16)%nat -> Forall (fun x => (x =? v) = false) b ->
  find (to_2d_array b) v = Raise IndexError.
Proof.
  intros Hlen Hall.
  do 16 (destruct b as [|? b];
         [clear Hlen;
          repeat match goal with
                 | H : Forall _ (_ :: _) |- _ => inversion H; clear H; subst
                 end;
          cbv -[Z.eqb];
          repeat match goal with
                 | H : (?x =? v) = false |- _ => rewrite H; clear H
                 end;
          reflexivity|]).
  simpl in Hlen. lia.
Qed.

(** X4: on a list of fewer than 16 cells that does not hold the value,
    [find] runs off the view and raises IndexError instead of returning
    [None]. *)
Theorem find_short_board_raises (b : list Z) (v : Z) :
  (length b < 16)%nat -> v ∉ b ->
  find (to_2d_array b) v = Raise IndexError.
Proof.
  intros Hlen Hnot. apply find_short_board; [exact Hlen|].
  apply Forall_forall. intros x Hx. apply Z.eqb_neq. intros ->. by apply Hnot.
Qed.

(** ** Sums *)

Lemma Zsum_perm (l k : list Z) : l ≡ₚ k -> Zsum l = Zsum k.
Proof. induction 1; simpl; lia. Qed.

Lemma Zsum_map_le {A : Type} (f g : A -> Z) (l : list A) :
  (forall x, x ∈ l -> f x <= g x) -> Zsum (map f l) <= Zsum (map g l).
Proof.
  induction l as [|x l IH]; intros H; simpl; [lia|].
  pose proof (H x ltac:(left)). specialize (IH (fun y Hy => H y ltac:(by right))).
  lia.
Qed.

Lemma Zsum_map_add {A : Type} (f g : A -> Z) (l : list A) :
  Zsum (map (fun x => f x + g x) l) = Zsum (map f l) + Zsum (map g l).
Proof. induction l as [|x l IH]; simpl; lia. Qed.

Lemma Zsum_map_ext {A : Type} (f g : A -> Z) (l : list A) :
  (forall x, x ∈ l -> f x = g x) -> Zsum (map f l) = Zsum (map g l).
Proof.
  induction l as [|x l IH]; intros H; simpl; [lia|].
  rewrite (H x ltac:(left)), IH; [lia|]. intros y Hy. apply H. by right.
Qed.

Lemma Zsum_indicator `{EqDecision A} (x : A) (c : Z) (l : list A) :
  NoDup l -> x ∈ l ->
  Zsum (map (fun y => if decide (y = x) then c else 0) l) = c.
Proof.
  induction 1 as [|y l Hy Hnd IH]; intros Hin; [by apply elem_of_nil in Hin|].
  simpl. destruct (decide (y = x)) as [->|Hne].
  - rewrite (Zsum_map_ext _ (fun _ => 0)).
    + rewrite Zsum_zero; [lia|]. apply Forall_forall.
      by intros z (? & -> & _)%list_elem_of_fmap.
    + intros z Hz. rewrite decide_False; [done|]. by intros ->.
  - apply elem_of_cons in Hin as [->|Hin]; [done|]. rewrite IH by done. lia.
Qed.

(** ** The heuristics along a move *)

Lemma slide_lookup (b b' : list Z) (d : direction) :
  is_board b -> slide b d = Some b' ->
  exists (zp tp : nat) (t : Z),
    (zp < 16)%nat /\ (tp < 16)%nat /\ tp <> zp /\ 1 <= t <= 15 /\
    moved_tile b d = t /\
    b !! zp = Some 0 /\ b !! tp = Some t /\
    b' !! zp = Some t /\ b' !! tp = Some 0 /\
    (forall i, i <> zp -> i <> tp -> b' !! i = b !! i) /\
    (Z.of_nat tp / 4, Z.of_nat tp mod 4) =
      step_pos (Z.of_nat zp / 4) (Z.of_nat zp mod 4) d.
Proof.
  intros Hb Hs.
  destruct (slide_inv _ _ _ Hb Hs)
    as (zp & tp & t & Hzp & Hlt & Htp & Hne & Hok & Heq & Hz & Ht & Hr & Hmv & ->).
  exists zp, tp, t.
  assert (Hz' : <[tp:=0]> (<[zp:=t]> b) !! zp = Some t).
  { rewrite list_lookup_insert_ne by done.
    apply list_lookup_insert_eq. rewrite (board_length _ Hb). lia. }
  assert (Ht' : <[tp:=0]> (<[zp:=t]> b) !! tp = Some 0).
  { apply list_lookup_insert_eq. rewrite length_insert, (board_length _ Hb). lia. }
  assert (Hsame : forall i, i <> zp -> i <> tp ->
                    <[tp:=0]> (<[zp:=t]> b) !! i = b !! i).
  { intros i Hi1 Hi2. by rewrite !list_lookup_insert_ne. }
  assert (Hstep : (Z.of_nat tp / 4, Z.of_nat tp mod 4) =
                  step_pos (Z.of_nat zp / 4) (Z.of_nat zp mod 4) d).
  { rewrite Heq. by apply target_in_grid. }
  done.
Qed.

Lemma mismatch_step (b b' g : list Z) (d : direction) :
  is_board b -> slide b d = Some b' ->
  Zsum (map (mismatch_weight b g) (seq 0 16)) <=
  tile_weight (moved_tile b d) + Zsum (map (mismatch_weight b' g) (seq 0 16)).
Proof.
  intros Hb Hs.
  destruct (slide_lookup _ _ _ Hb Hs)
    as (zp & tp & t & Hzp & Htp & Hne & Hr & -> & Hz & Ht & Hz' & Ht' & Hsame & _).
  rewrite <- (Zsum_indicator tp (tile_weight t) (seq 0 16));
    [|apply NoDup_seq|apply elem_of_seq; lia].
  rewrite <- Zsum_map_add. apply Zsum_map_le.
  intros i _. unfold mismatch_weight.
  destruct (decide (i = tp)) as [->|Hitp].
  - rewrite (nth_lookup_Some _ _ _ _ Ht), (nth_lookup_Some _ _ _ _ Ht').
    pose proof (tile_weight_nonneg t).
    repeat case_decide; change (tile_weight 0) with 0; lia.
  - destruct (decide (i = zp)) as [->|Hizp].
    + rewrite (nth_lookup_Some _ _ _ _ Hz), (nth_lookup_Some _ _ _ _ Hz').
      pose proof (tile_weight_nonneg t).
      repeat case_decide; change (tile_weight 0) with 0; lia.
    + rewrite !nth_lookup, (Hsame i Hizp Hitp). lia.
Qed.

Lemma mismatch_path (g : list Z) (ds : list direction) :
  forall b : list Z,
    is_board b -> slides b ds = Some g ->
    h1_spec b g <= path_cost b ds - 1.
Proof.
  induction ds as [|d ds IH]; intros b Hb Hs; simpl in *.
  - injection Hs as ->. rewrite h1_spec_same. lia.
  - destruct (slide b d) as [b'|] eqn:Hd; [|discriminate].
    pose proof (IH b' (slide_board _ _ _ Hb Hd) Hs) as IH'.
    pose proof (mismatch_step b b' g d Hb Hd). unfold h1_spec in *. lia.
Qed.

Lemma h1_spec_lower (b g : list Z) : -1 <= h1_spec b g.
Proof.
  unfold h1_spec.
  assert (0 <= Zsum (map (mismatch_weight b g) (seq 0 16))); [|lia].
  apply Zsum_nonneg, Forall_forall. intros z (i & -> & _)%list_elem_of_fmap.
  unfold mismatch_weight. case_decide; [lia|apply tile_weight_nonneg].
Qed.

Lemma pos_of_lookup (b : list Z) (i : nat) (v : Z) :
  is_board b -> b !! i = Some v ->
  pos_of b v = (Z.of_nat i / 4, Z.of_nat i mod 4).
Proof.
  intros Hb Hi. unfold pos_of. by rewrite (board_index_lookup b Hb i v Hi).
Qed.

Lemma manhattan_step (row col : Z) (d : direction) (q : Z * Z) :
  manhattan (step_pos row col d) q <= manhattan (row, col) q + 1.
Proof. unfold manhattan. destruct d; simpl; lia. Qed.

Lemma manhattan_nonneg (p q : Z * Z) : 0 <= manhattan p q.
Proof. unfold manhattan. lia. Qed.

Lemma h2_step (b b' g : list Z) (d : direction) :
  is_board b -> slide b d = Some b' ->
  h2_spec b g <= tile_weight (moved_tile b d) + h2_spec b' g.
Proof.
  intros Hb Hs. pose proof (slide_board _ _ _ Hb Hs) as Hb'.
  destruct (slide_lookup _ _ _ Hb Hs)
    as (zp & tp & t & Hzp & Htp & Hne & Hr & -> & Hz & Ht & Hz' & Ht' & Hsame & Hadj).
  unfold h2_spec.
  rewrite <- (Zsum_indicator t (tile_weight t) (range 1 16));
    [|apply NoDup_seqZ|apply elem_of_range; lia].
  rewrite <- Zsum_map_add. apply Zsum_map_le.
  intros v Hv%elem_of_range.
  destruct (decide (v = t)) as [->|Hvt].
  - rewrite (pos_of_lookup b tp t Hb Ht), (pos_of_lookup b' zp t Hb' Hz'), Hadj.
    pose proof (manhattan_step (Z.of_nat zp / 4) (Z.of_nat zp mod 4) d (pos_of g t)).
    pose proof (tile_weight_nonneg t). nia.
  - destruct (board_index b Hb v ltac:(lia)) as (i & _ & _ & Hi).
    assert (i <> zp) by (intros ->; rewrite Hz in Hi; injection Hi; lia).
    assert (i <> tp) by (intros ->; rewrite Ht in Hi; injection Hi; lia).
    rewrite (pos_of_lookup b i v Hb Hi).
    rewrite (pos_of_lookup b' i v Hb') by (by rewrite Hsame).
    lia.
Qed.

Lemma h2_spec_same (g : list Z) : h2_spec g g = 0.
Proof.
  unfold h2_spec. apply Zsum_zero, Forall_forall.
  intros x (v & -> & _)%list_elem_of_fmap. rewrite manhattan_same. lia.
Qed.

Lemma h2_path (g : list Z) (ds : list direction) :
  forall b : list Z,
    is_board b -> slides b ds = Some g -> h2_spec b g <= path_cost b ds.
Proof.
  induction ds as [|d ds IH]; intros b Hb Hs; simpl in *.
  - injection Hs as ->. rewrite h2_spec_same. lia.
  - destruct (slide b d) as [b'|] eqn:Hd; [|discriminate].
    pose proof (IH b' (slide_board _ _ _ Hb Hd) Hs).
    pose proof (h2_step b b' g d Hb Hd). lia.
Qed.

Lemma h2_spec_nonneg (b g : list Z) : 0 <= h2_spec b g.
Proof.
  unfold h2_spec. apply Zsum_nonneg, Forall_forall.
  intros x (v & -> & _)%list_elem_of_fmap.
  pose proof (tile_weight_nonneg v). pose proof (manhattan_nonneg (pos_of b v) (pos_of g v)).
  nia.
Qed.

Lemma pos_of_inj (b : list Z) (i j : nat) :
  (i < 16)%nat -> (j < 16)%nat ->
  (Z.of_nat i / 4, Z.of_nat i mod 4) = (Z.of_nat j / 4, Z.of_nat j mod 4) -> i = j.
Proof.
  intros Hi Hj [= H1 H2].
  pose proof (Z.div_mod (Z.of_nat i) 4 ltac:(lia)).
  pose proof (Z.div_mod (Z.of_nat j) 4 ltac:(lia)). lia.
Qed.

Lemma boards_same_positions (B G : list Z) :
  is_board B -> is_board G ->
  (forall v, 1 <= v <= 15 -> pos_of B v = pos_of G v) -> B = G.
Proof.
  intros HB HG Hpos.
  assert (Hmove : forall (X Y : list Z) (i : nat) (v : Z),
            is_board X -> is_board Y ->
            (forall v, 1 <= v <= 15 -> pos_of X v = pos_of Y v) ->
            X !! i = Some v -> v <> 0 -> Y !! i = Some v).
  { intros X Y i v HX HY HXY Hi Hv0.
    pose proof (board_lookup_range X HX _ _ Hi) as Hr.
    destruct (board_index Y HY v Hr) as (j & _ & Hj & HYj).
    pose proof (lookup_lt_Some _ _ _ Hi) as Hlt. rewrite (board_length X HX) in Hlt.
    pose proof (HXY v ltac:(lia)) as Heq.
    rewrite (pos_of_lookup X i v HX Hi), (pos_of_lookup Y j v HY HYj) in Heq.
    by rewrite (pos_of_inj X i j Hlt Hj Heq). }
  apply list_eq. intros i.
  destruct (B !! i) as [v|] eqn:Hi.
  - destruct (decide (v = 0)) as [->|Hv0]; [|symmetry; by eapply (Hmove B G)].
    destruct (lookup_lt_is_Some_2 G i) as [u Hu].
    { rewrite (board_length G HG), <- (board_length B HB).
      by eapply lookup_lt_Some. }
    destruct (decide (u = 0)) as [->|Hu0]; [done|].
    pose proof (Hmove G B i u HG HB (fun v Hv => eq_sym (Hpos v Hv)) Hu Hu0).
    congruence.
  - symmetry. apply lookup_ge_None. apply lookup_ge_None in Hi.
    by rewrite (board_length G HG), <- (board_length B HB).
Qed.

Lemma manhattan_zero (p q : Z * Z) : manhattan p q = 0 -> p = q.
Proof. destruct p, q. unfold manhattan. simpl. intros H. f_equal; lia. Qed.

Lemma Zsum_zero_inv (l : list Z) :
  Forall (fun x => 0 <= x) l -> Zsum l = 0 -> Forall (fun x => x = 0) l.
Proof.
  induction 1 as [|x l Hx Hl IH]; simpl; intros H; constructor.
  - pose proof (Zsum_nonneg l Hl). lia.
  - apply IH. pose proof (Zsum_nonneg l Hl). lia.
Qed.

Lemma h2_spec_zero (B G : list Z) :
  is_board B -> is_board G -> h2_spec B G = 0 -> B = G.
Proof.
  intros HB HG H0. apply boards_same_positions; [done|done|].
  intros v Hv. unfold h2_spec in H0. apply Zsum_zero_inv in H0.
  - rewrite Forall_forall in H0.
    specialize (H0 (tile_weight v * manhattan (pos_of B v) (pos_of G v))).
    apply manhattan_zero.
    assert (Hin : tile_weight v * manhattan (pos_of B v) (pos_of G v)
                  ∈ map (fun v => tile_weight v * manhattan (pos_of B v) (pos_of G v))
                        (range 1 16)).
    { apply (list_elem_of_fmap_2
               (fun v => tile_weight v * manhattan (pos_of B v) (pos_of G v))).
      apply elem_of_range. lia. }
    specialize (H0 Hin). destruct (tile_weight_tile v Hv) as [_ Hw]. nia.
  - apply Forall_forall. intros x (u & -> & _)%list_elem_of_fmap.
    pose proof (tile_weight_nonneg u).
    pose proof (manhattan_nonneg (pos_of B u) (pos_of G u)). nia.
Qed.

Lemma mismatch_by_value (B G : list Z) :
  is_board B ->
  Zsum (map (mismatch_weight B G) (seq 0 16)) =
  Zsum (map (fun v => mismatch_weight B G (default 0%nat (index B v))) (range 1 16)).
Proof.
  intros HB.
  assert (Hmap : map (mismatch_weight B G) (seq 0 16) =
                 map (fun v => mismatch_weight B G (default 0%nat (index B v))) B).
  { apply list_eq. intros i.
    change (map ?f ?x) with (f <$> x). rewrite !list_lookup_fmap.
    destruct (decide (i < 16)%nat) as [Hlt|Hge].
    - rewrite lookup_seq_lt by done.
      destruct (lookup_lt_is_Some_2 B i) as [v Hi];
        [by rewrite (board_length B HB)|].
      rewrite Hi. simpl. by rewrite (board_index_lookup B HB i v Hi).
    - rewrite lookup_seq_ge by lia.
      rewrite (lookup_ge_None_2 B i) by (rewrite (board_length B HB); lia).
      reflexivity. }
  rewrite Hmap.
  rewrite (Zsum_perm _ (map (fun v => mismatch_weight B G (default 0%nat (index B v)))
                            (range 0 16))).
  2:{ apply Permutation_map. exact HB. }
  change (range 0 16) with (0 :: range 1 16). simpl.
  destruct (board_index B HB 0 ltac:(lia)) as (zp & Hzp & _ & Hz).
  rewrite Hzp. simpl. unfold mismatch_weight at 1.
  rewrite (nth_lookup_Some _ _ _ _ Hz). change (tile_weight 0) with 0.
  case_decide; lia.
Qed.

Lemma h1_below_h2 (B G : list Z) :
  is_board B -> is_board G -> h1_spec B G + 1 <= h2_spec B G.
Proof.
  intros HB HG. unfold h1_spec, h2_spec. rewrite (mismatch_by_value B G HB).
  assert (Zsum (map (fun v => mismatch_weight B G (default 0%nat (index B v)))
                    (range 1 16))
          <= Zsum (map (fun v => tile_weight v * manhattan (pos_of B v) (pos_of G v))
                       (range 1 16))); [|lia].
  apply Zsum_map_le. intros v Hv%elem_of_range.
  destruct (board_index B HB v ltac:(lia)) as (i & Hi & Hlt & HBi).
  rewrite Hi. simpl. unfold mismatch_weight.
  rewrite (nth_lookup_Some _ _ _ _ HBi).
  pose proof (tile_weight_nonneg v).
  pose proof (manhattan_nonneg (pos_of B v) (pos_of G v)).
  case_decide as Heq; [nia|].
  assert (manhattan (pos_of B v) (pos_of G v) <> 0); [|nia].
  intros Hzero%manhattan_zero.
  destruct (board_index G HG v ltac:(lia)) as (j & _ & Hj & HGj).
  rewrite (pos_of_lookup B i v HB HBi), (pos_of_lookup G j v HG HGj) in Hzero.
  apply (pos_of_inj B i j Hlt Hj) in Hzero. subst j.
  apply Heq. by rewrite (nth_lookup_Some _ _ _ _ HGj).
Qed.

Section Heuristic_values.

Variable int_is : Z -> Z -> bool.
Hypothesis int_is_eq : forall a b : Z, int_is a b = true -> a = b.
Hypothesis int_is_small : forall a : Z, -5 <= a <= 256 -> int_is a a = true.

(** X5: on boards h2 is never negative, and it is 0 exactly on the goal
    board. *)
Theorem h2_zero_iff_goal (B : list Z) (g : PuzzleState) :
  is_board B -> is_board g.(board_state_1d) ->
  g.(board_state) = to_2d_array g.(board_state_1d) ->
  exists h : Z,
    estimated_cost_to_goal_h2 (to_2d_array B) (Some g) = Ok h /\
    0 <= h /\ (h = 0 <-> B = g.(board_state_1d)).
Proof.
  intros HB HG Hview. exists (h2_spec B g.(board_state_1d)).
  split; [by apply h2_is_h2_spec|]. split; [apply h2_spec_nonneg|]. split.
  - by apply h2_spec_zero.
  - intros ->. apply h2_spec_same.
Qed.

(** X6: on boards h1 is strictly below h2: every misplaced tile is at
    least one cell away from its place. *)
Theorem h1_strictly_below_h2 (B : list Z) (g : PuzzleState) :
  is_board B -> is_board g.(board_state_1d) ->
  g.(board_state) = to_2d_array g.(board_state_1d) ->
  exists h1 h2 : Z,
    estimated_cost_to_goal_h1 int_is B (Some g) = Ok h1 /\
    estimated_cost_to_goal_h2 (to_2d_array B) (Some g) = Ok h2 /\
    h1 < h2.
Proof using int_is_eq int_is_small.
  intros HB HG Hview.
  exists (h1_spec B g.(board_state_1d)), (h2_spec B g.(board_state_1d)).
  split; [|split; [by apply h2_is_h2_spec|]].
  - apply (h1_is_h1_spec int_is int_is_eq int_is_small);
      auto using board_length, board_Forall.
  - pose proof (h1_below_h2 B _ HB HG). lia.
Qed.

(** X7: neither heuristic overestimates: for every sequence of moves
    from a board to the goal board, h1 is below its cost and h2 at most
    its cost. *)
Theorem heuristics_never_overestimate (B : list Z) (g : PuzzleState)
  (ds : list direction) :
  is_board B -> g.(board_state) = to_2d_array g.(board_state_1d) ->
  slides B ds = Some g.(board_state_1d) ->
  exists h1 h2 : Z,
    estimated_cost_to_goal_h1 int_is B (Some g) = Ok h1 /\
    estimated_cost_to_goal_h2 (to_2d_array B) (Some g) = Ok h2 /\
    h1 < path_cost B ds /\ h2 <= path_cost B ds.
Proof using int_is_eq int_is_small.
  intros HB Hview Hs. pose proof (slides_board _ _ _ HB Hs) as HG.
  exists (h1_spec B g.(board_state_1d)), (h2_spec B g.(board_state_1d)).
  split; [|split; [by apply h2_is_h2_spec|]].
  - apply (h1_is_h1_spec int_is int_is_eq int_is_small);
      auto using board_length, board_Forall.
  - pose proof (mismatch_path _ ds B HB Hs). pose proof (h2_path _ ds B HB Hs).
    lia.
Qed.

End Heuristic_values.

(** ** Costs of sequences of moves *)

Lemma path_cost_app (q r : list direction) :
  forall b b1 : list Z,
    slides b q = Some b1 ->
    path_cost b (q ++ r) = path_cost b q + path_cost b1 r.
Proof.
  induction q as [|d q IH]; intros b b1; simpl.
  - intros [= <-]. lia.
  - destruct (slide b d) as [b'|]; [|discriminate].
    intros H. rewrite (IH _ _ H). lia.
Qed.

Lemma path_cost_bounds (ds : list direction) :
  forall b b1 : list Z,
    is_board b -> slides b ds = Some b1 ->
    Z.of_nat (length ds) <= path_cost b ds <= 10 * Z.of_nat (length ds).
Proof.
  induction ds as [|d ds IH]; intros b b1 Hb; simpl; [lia|].
  destruct (slide b d) as [b'|] eqn:Hd; [|discriminate].
  intros Hs. pose proof (IH b' b1 (slide_board _ _ _ Hb Hd) Hs).
  destruct (slide_inv _ _ _ Hb Hd) as (zp & tp & t & _ & _ & _ & _ & _ & _ & _ & _ & Hr & -> & _).
  destruct (tile_weight_tile t Hr) as [Hw ?]. destruct (t <=? 9); lia.
Qed.

Lemma valid_moves_at_least_two (row col : Z) :
  (2 <= length (filter (fun d => dir_ok row col d = true) all_directions))%nat.
Proof.
  unfold all_directions. rewrite !filter_cons, filter_nil. simpl.
  destruct (Z.ltb_spec 0 row), (Z.ltb_spec row 3), (Z.ltb_spec 0 col),
    (Z.ltb_spec col 3); simpl; lia.
Qed.

(** ** The frontier under any key *)

Lemma frontier_pushed_key (key : PuzzleState -> Z) (cs : list PuzzleState)
  (open' : list entry) :
  frontier (reverse ((fun c => (key c, c.(id_no), c)) <$> cs) ++ open')
  ≡ₚ cs ++ frontier open'.
Proof.
  unfold frontier. rewrite fmap_app, fmap_reverse, reverse_Permutation.
  assert (snd <$> ((fun c : PuzzleState => (key c, c.(id_no), c)) <$> cs) = cs)
    as ->; [|done].
  induction cs as [|c cs IH]; [done|]. rewrite !fmap_cons, IH. reflexivity.
Qed.

Lemma children_measure_key (key : PuzzleState -> Z) (k d : Z)
  (cs : list PuzzleState) :
  (forall c, c ∈ cs -> c.(depth) = d) ->
  frontier_measure k ((fun c => (key c, c.(id_no), c)) <$> cs) =
  (length cs * (if (d <=? k)%Z then subtree_size (Z.to_nat (k - d)%Z) else 0))%nat.
Proof.
  unfold frontier_measure. induction cs as [|c cs IH]; intros Hd; [reflexivity|].
  rewrite fmap_cons. simpl. rewrite IH by (intros c' Hc'; apply Hd; by right).
  unfold node_measure. rewrite (Hd c) by left. reflexivity.
Qed.

Lemma measure_step_key (key : PuzzleState -> Z) (k : Z)
  (open_list open' : list entry) (p i : Z)
  (cur : PuzzleState) (cs : list PuzzleState) :
  open_list ≡ₚ (p, i, cur) :: open' ->
  0 <= cur.(depth) <= k ->
  (length cs <= 4)%nat ->
  (forall c, c ∈ cs -> c.(depth) = cur.(depth) + 1) ->
  (frontier_measure k
     (reverse ((fun c => (key c, c.(id_no), c)) <$> cs) ++ open')
   < frontier_measure k open_list)%nat.
Proof.
  intros Hperm Hdep Hlen Hcs. unfold frontier_measure at 2. rewrite Hperm. simpl.
  unfold frontier_measure at 1. rewrite sum_list_with_app, sum_list_with_reverse.
  fold (frontier_measure k ((fun c => (key c, c.(id_no), c)) <$> cs)).
  fold (frontier_measure k open').
  rewrite (children_measure_key key k (cur.(depth) + 1) cs Hcs).
  unfold node_measure. destruct (Z.leb_spec cur.(depth) k) as [_|?]; [|lia].
  destruct (Z.leb_spec (cur.(depth) + 1) k) as [Hle|Hgt].
  - replace (Z.to_nat (k - cur.(depth)))
      with (S (Z.to_nat (k - (cur.(depth) + 1)))) by lia.
    simpl. pose proof (subtree_size_pos (Z.to_nat (k - (cur.(depth) + 1)))). nia.
  - pose proof (subtree_size_pos (Z.to_nat (k - cur.(depth)))). lia.
Qed.

Lemma push_expansions_h1 (cs : list PuzzleState) :
  forall (open_list : list entry) (added : Z),
    push_expansions "a_star_h1" cs open_list added =
    (reverse ((fun c => (c.(f1_of_n), c.(id_no), c)) <$> cs) ++ open_list,
     added + Z.of_nat (length cs)).
Proof.
  induction cs as [|c cs IH]; intros open_list added.
  - simpl. f_equal. lia.
  - cbn [push_expansions].
    change (String.eqb "a_star_h1" "bfs") with false.
    change (String.eqb "a_star_h1" "a_star_h1") with true. cbv iota.
    rewrite IH. unfold heappush. rewrite fmap_cons. cbn [length].
    rewrite reverse_cons, <- app_assoc. simpl. f_equal. lia.
Qed.

Lemma push_expansions_h2 (cs : list PuzzleState) :
  forall (open_list : list entry) (added : Z),
    push_expansions "a_star_h2" cs open_list added =
    (reverse ((fun c => (c.(f2_of_n), c.(id_no), c)) <$> cs) ++ open_list,
     added + Z.of_nat (length cs)).
Proof.
  induction cs as [|c cs IH]; intros open_list added.
  - simpl. f_equal. lia.
  - cbn [push_expansions].
    change (String.eqb "a_star_h2" "bfs") with false.
    change (String.eqb "a_star_h2" "a_star_h1") with false.
    change (String.eqb "a_star_h2" "a_star_h2") with true. cbv iota.
    rewrite IH. unfold heappush. rewrite fmap_cons. cbn [length].
    rewrite reverse_cons, <- app_assoc. simpl. f_equal. lia.
Qed.

(** ** Best-first search under any key *)

Section Best_first.

Variable id_of : nat -> Z.
Hypothesis id_of_inj : forall i j : nat, id_of i = id_of j -> i = j.

Variable int_is : Z -> Z -> bool.
Hypothesis int_is_eq : forall a b : Z, int_is a b = true -> a = b.
Hypothesis int_is_small : forall a : Z, -5 <= a <= 256 -> int_is a a = true.

Lemma init_values (b : list Z) (gs : PuzzleState) (p : option Z)
  (dep cost : Z) (s s' : nat) (n : PuzzleState) :
  is_board b -> is_board gs.(board_state_1d) ->
  gs.(board_state) = to_2d_array gs.(board_state_1d) ->
  PuzzleState_init id_of int_is b (Some gs) p dep cost s = Ok (n, s') ->
  n.(h1_of_n) = h1_spec b gs.(board_state_1d) /\
  n.(h2_of_n) = h2_spec b gs.(board_state_1d) /\
  n.(f1_of_n) = cost + h1_spec b gs.(board_state_1d) /\
  n.(f2_of_n) = cost + h2_spec b gs.(board_state_1d).
Proof using int_is_eq int_is_small.
  intros Hb HG Hview. unfold PuzzleState_init.
  rewrite (h1_is_h1_spec int_is int_is_eq int_is_small b gs)
    by auto using board_length, board_Forall.
  rewrite (h2_is_h2_spec b gs Hb HG Hview). simpl. intros [= <- _]. done.
Qed.

Lemma move_ok_heur (n gs : PuzzleState) (d : direction) (b' : list Z) (s : nat) :
  wf_state n -> n.(goal_puzzle_state) = Some gs ->
  slide n.(board_state_1d) d = Some b' ->
  exists c : PuzzleState,
    move id_of int_is n d s = Ok (c, S s) /\
    c.(f1_of_n) = c.(g_of_n) + h1_spec c.(board_state_1d) gs.(board_state_1d) /\
    c.(f2_of_n) = c.(g_of_n) + h2_spec c.(board_state_1d) gs.(board_state_1d).
Proof using int_is_eq int_is_small.
  intros (Hb & Hview & Hg) Hgoal Hs.
  pose proof (slide_board _ _ _ Hb Hs) as Hb'.
  destruct (slide_inv _ _ _ Hb Hs)
    as (zp & tp & t & Hzp & Hlt & Htp & Hne & Hok & Heq & Hz & Ht & Hr & Hmv & ->).
  destruct (init_ok id_of int_is int_is_eq int_is_small
              (<[tp := 0]> (<[zp := t]> n.(board_state_1d)))
              n.(goal_puzzle_state) (Some n.(id_no)) (n.(depth) + 1)
              (n.(g_of_n) + tile_weight t) s Hb' Hg)
    as (c & Hc & _ & _ & Hbd & _ & Hcost & _).
  exists c. unfold move. rewrite Hzp, <- Heq.
  rewrite (move_cost_tile _ _ _ Ht Hr). simpl.
  rewrite (py_getitem_lookup _ _ _ Ht), (py_getitem_lookup _ _ _ Hz). simpl.
  rewrite py_setitem_lookup by (rewrite (board_length _ Hb); lia). simpl.
  rewrite py_setitem_lookup
    by (rewrite length_insert, (board_length _ Hb); lia). simpl.
  split; [exact Hc|].
  rewrite Hgoal in Hc, Hg. destruct Hg as [HG HGview].
  destruct (init_values _ _ _ _ _ _ _ _ Hb' HG HGview Hc) as (_ & _ & H1 & H2).
  rewrite Hbd, Hcost. done.
Qed.

Lemma frontier_step (key : PuzzleState -> Z) (start goal : list Z) (counter : nat)
  (open_list open' : list entry) (closed : list PuzzleState) (p i : Z)
  (cur : PuzzleState) :
  frontier_inv id_of key start goal counter open_list closed ->
  heappop open_list = Ok ((p, i, cur), open') ->
  cur.(board_state_1d) <> goal ->
  exists cs : list PuzzleState,
    expand id_of int_is cur counter = Ok (cs, (counter + length cs)%nat) /\
    (2 <= length cs <= 4)%nat /\
    (forall c, c ∈ cs -> c.(depth) = cur.(depth) + 1) /\
    (forall c, c ∈ cs ->
       c.(goal_puzzle_state) = cur.(goal_puzzle_state) /\
       exists d b' s, slide cur.(board_state_1d) d = Some b' /\
                      move id_of int_is cur d s = Ok (c, S s)) /\
    frontier_inv id_of key start goal (counter + length cs)
      (reverse ((fun c => (key c, c.(id_no), c)) <$> cs) ++ open')
      (closed ++ [cur]).
Proof using id_of_inj int_is_eq int_is_small.
  intros [Hkeys Hnonempty Hwf Hids Hnodup Hlinked Hcover Hclosed] Hpop Hne.
  destruct (heappop_spec _ _ _ Hpop) as [Hperm _].
  assert (Hfront : frontier open_list ≡ₚ cur :: frontier open').
  { unfold frontier. by rewrite Hperm. }
  assert (Hcur : cur ∈ frontier open_list) by (rewrite Hfront; left).
  assert (Hcurwf : wf_state cur) by (apply Hwf, elem_of_app; by left).
  destruct (expand_ok id_of int_is int_is_eq int_is_small cur counter Hcurwf)
    as (cs & Hcs & Hall & Hnew).
  set (open'' := reverse ((fun c => (key c, c.(id_no), c)) <$> cs) ++ open').
  assert (Hnodes : frontier open'' ++ closed ++ [cur]
                   ≡ₚ cs ++ frontier open_list ++ closed).
  { unfold open''. rewrite frontier_pushed_key, Hfront, <- !app_assoc.
    apply Permutation_app_head.
    rewrite (Permutation_app_comm closed [cur]). simpl.
    symmetry. apply Permutation_middle. }
  assert (Hchild : forall c, c ∈ cs -> exists d, child_of cur d c).
  { intros c [j Hj]%list_elem_of_lookup.
    destruct (Forall2_lookup_r _ _ _ _ _ Hall Hj) as (d & _ & Hch). eauto. }
  assert (Hfresh : forall m, m ∈ closed -> m.(id_no) <> cur.(id_no)).
  { intros m Hm Heq. rewrite fmap_app in Hnodup.
    apply NoDup_app in Hnodup as (_ & Hdisj & _).
    apply (Hdisj cur.(id_no)).
    - by apply list_elem_of_fmap_2.
    - rewrite <- Heq. by apply list_elem_of_fmap_2. }
  assert (Hlen2 : (2 <= length cs <= 4)%nat).
  { rewrite <- (Forall2_length _ _ _ Hall). split.
    - apply valid_moves_at_least_two.
    - etrans; [apply length_filter|]. reflexivity. }
  exists cs. fold open''. split; [exact Hcs|]. split; [exact Hlen2|]. split; [|split].
  { intros c Hc. destruct (Hchild c Hc) as (d & _ & _ & _ & _ & Hd). exact Hd. }
  { intros c Hc. split.
    - destruct (Hchild c Hc) as (d & _ & _ & Hg & _). exact Hg.
    - apply list_elem_of_lookup in Hc as [j Hj].
      destruct (Hnew j c Hj) as (_ & _ & d & Hd & Hmv).
      assert (Hdin : d ∈ filter
                (fun d => dir_ok (pos_of cur.(board_state_1d) 0).1
                                 (pos_of cur.(board_state_1d) 0).2 d = true)
                all_directions).
      { apply list_elem_of_lookup. eauto. }
      apply list_elem_of_filter in Hdin as [Hok _].
      destruct Hcurwf as (Hb & _).
      destruct (board_index _ Hb 0 ltac:(lia)) as (zp & Hzp & _).
      unfold pos_of in Hok. rewrite Hzp in Hok. simpl in Hok.
      destruct (slide_ok _ d zp Hb Hzp Hok) as [b' Hb'].
      exists d, b', (counter + j)%nat. done. }
  constructor.
  - intros p' i' n Hin. apply elem_of_app in Hin as [Hin|Hin].
    + apply elem_of_reverse, list_elem_of_fmap in Hin as (c & [= -> -> ->] & _).
      split; [done|by left].
    + assert (Hin' : (p', i', n) ∈ open_list) by (rewrite Hperm; by right).
      destruct (Hkeys p' i' n Hin') as [Hi [Hp|Hsingle]]; [split; [done|by left]|].
      apply Permutation_length in Hperm. rewrite Hsingle in Hperm. simpl in Hperm.
      destruct open'; [by apply elem_of_nil in Hin|]. simpl in Hperm. lia.
  - unfold open''. intros Hnil. apply (f_equal length) in Hnil.
    rewrite length_app, length_reverse, length_fmap in Hnil. simpl in Hnil. lia.
  - intros n Hn. rewrite Hnodes in Hn.
    apply elem_of_app in Hn as [[j Hj]%list_elem_of_lookup|Hn].
    + by apply (Hnew j n).
    + by apply Hwf.
  - intros n Hn. rewrite Hnodes in Hn.
    apply elem_of_app in Hn as [[j Hj]%list_elem_of_lookup|Hn].
    + exists (counter + j)%nat. split; [|by apply (Hnew j n)].
      apply lookup_lt_Some in Hj. lia.
    + destruct (Hids n Hn) as (k & Hk & Hid). exists k. split; [lia|exact Hid].
  - rewrite Hnodes, fmap_app. apply NoDup_app. split; [|split].
    + apply NoDup_alt. intros j1 j2 x H1 H2.
      rewrite list_lookup_fmap in H1, H2.
      destruct (cs !! j1) as [c1|] eqn:Hc1; [|discriminate].
      destruct (cs !! j2) as [c2|] eqn:Hc2; [|discriminate].
      simpl in H1, H2. destruct (Hnew _ _ Hc1) as [Hi1 _].
      destruct (Hnew _ _ Hc2) as [Hi2 _].
      assert (id_of (counter + j1) = id_of (counter + j2)) as Heq by congruence.
      apply id_of_inj in Heq. lia.
    + intros x (c & -> & [j Hj]%list_elem_of_lookup)%list_elem_of_fmap
        (n & Hx & Hn)%list_elem_of_fmap.
      destruct (Hnew _ _ Hj) as [Hi1 _]. destruct (Hids n Hn) as (k & Hk & Hi2).
      assert (id_of (counter + j) = id_of k) as Heq by congruence.
      apply id_of_inj in Heq. lia.
    + exact Hnodup.
  - intros n Hn. rewrite Hnodes in Hn.
    apply elem_of_app in Hn as [Hn|Hn].
    + destruct (Hchild n Hn) as [d Hch]. split.
      * destruct (Hlinked cur ltac:(apply elem_of_app; by left)) as [Hd _].
        destruct Hch as (_ & _ & _ & _ & ->). lia.
      * right. exists cur, d. split; [|split; [|exact Hch]].
        -- apply get_parent_state_last; [|exact Hfresh]. by destruct Hch as (_ & ? & _).
        -- apply elem_of_app. right. by left.
    + by apply node_ok_app, Hlinked.
  - intros ds b Hds.
    destruct (Hcover ds b Hds)
      as [(q & r & n & -> & Hn & Hq & Hdq & Hgq)|(n & Hn & Hb)].
    + rewrite Hfront in Hn. apply elem_of_cons in Hn as [->|Hn].
      * destruct r as [|d r].
        -- right. exists cur. split; [apply elem_of_app; right; by left|].
           rewrite app_nil_r in Hds. congruence.
        -- rewrite slides_app, Hq in Hds. simpl in Hds.
           destruct (slide cur.(board_state_1d) d) as [b1|] eqn:Hs; [|discriminate].
           destruct (expand_covers id_of id_of_inj int_is int_is_eq int_is_small
                       cur cs d b1 Hcurwf Hall Hs) as (c & Hc & Hch).
           left. exists (q ++ [d]), r, c.
           split; [by rewrite <- app_assoc|]. split; [|split; [|split]].
           ++ unfold open''. rewrite frontier_pushed_key. apply elem_of_app. by left.
           ++ destruct Hch as (Hsc & _). eapply slides_snoc; eauto.
           ++ destruct Hch as (_ & _ & _ & _ & ->). rewrite length_app. simpl. lia.
           ++ destruct Hch as (_ & _ & _ & -> & _).
              rewrite (path_cost_snoc _ _ _ _ _ Hq Hs). lia.
      * left. exists q, r, n. split; [done|]. split; [|done].
        unfold open''. rewrite frontier_pushed_key. apply elem_of_app. by right.
    + right. exists n. split; [|exact Hb]. apply elem_of_app. by left.
  - intros n [Hn|Hn%list_elem_of_singleton]%elem_of_app; [by apply Hclosed|].
    by subst n.
Qed.

Lemma path_safe (start : list Z) (closed : list PuzzleState) :
  (forall n, n ∈ closed -> node_ok start closed n) ->
  forall (pfuel : nat) (n : PuzzleState) (acc : list PuzzleState),
    node_ok start closed n ->
    (exists p, get_state_path_loop int_is pfuel n acc closed = Ok p) \/
    get_state_path_loop int_is pfuel n acc closed = OutOfFuel.
Proof using int_is_eq int_is_small.
  intros Hclosed pfuel.
  induction pfuel as [|pfuel IH]; intros n acc Hn; simpl.
  - destruct (int_is n.(depth) 0); simpl; eauto.
  - destruct (int_is n.(depth) 0) eqn:His; simpl; [eauto|].
    destruct Hn as [_ [(Hd0 & _)|(par & d & Hpar & Hin & _)]].
    + rewrite Hd0, int_is_small in His by lia. discriminate.
    + rewrite Hpar. apply IH. by apply Hclosed.
Qed.

Lemma best_first_loop (key : PuzzleState -> Z) (h : list Z -> Z) (method : string)
  (gs : PuzzleState) (start goal : list Z) (ds_goal : list direction) (pfuel : nat) :
  (forall (cs : list PuzzleState) (open_list : list entry) (added : Z),
     push_expansions method cs open_list added =
     (reverse ((fun c => (key c, c.(id_no), c)) <$> cs) ++ open_list,
      added + Z.of_nat (length cs))) ->
  (forall (n c : PuzzleState) (d : direction) (b' : list Z) (s : nat),
     wf_state n -> n.(goal_puzzle_state) = Some gs ->
     slide n.(board_state_1d) d = Some b' ->
     move id_of int_is n d s = Ok (c, S s) ->
     key c = c.(g_of_n) + h c.(board_state_1d)) ->
  (forall (b : list Z) (r : list direction),
     is_board b -> slides b r = Some goal -> h b <= path_cost b r + h goal) ->
  (forall b : list Z, h goal <= h b) ->
  is_board start ->
  slides start ds_goal = Some goal ->
  (Z.to_nat (path_cost start ds_goal) <= pfuel)%nat ->
  forall (fuel : nat) (open_list : list entry) (closed : list PuzzleState)
         (added : Z) (counter : nat),
    frontier_inv id_of key start goal counter open_list closed ->
    heur_inv key h open_list closed ->
    (forall n, n ∈ frontier open_list ++ closed ->
               n.(goal_puzzle_state) = Some gs) ->
    (frontier_measure (path_cost start ds_goal) open_list < fuel)%nat ->
    exists (rep : Report) (s' : nat) (ds : list direction),
      solve_loop id_of int_is fuel pfuel goal method open_list closed added counter =
        Ok (rep, s') /\
      cheapest_report start goal rep ds.
Proof using id_of_inj int_is_eq int_is_small.
  intros Hpush Hkey Hadm Hlow Hstart Hgoal Hpfuel fuel.
  induction fuel as [|fuel IH];
    intros open_list closed added counter Hinv Hheur Hgs Hfuel; [lia|].
  pose proof Hinv as [Hkeys Hnonempty Hwf Hids Hnodup Hlinked Hcover Hclosed].
  destruct open_list as [|e0 es] eqn:Hopen; [done|]. rewrite <- Hopen in *.
  destruct (heappop_nonempty open_list e0) as ([[p i] cur] & open' & Hpop).
  { rewrite Hopen. left. }
  destruct (heappop_spec _ _ _ Hpop) as [Hperm Hmin].
  assert (Hcur_in : (p, i, cur) ∈ open_list) by (rewrite Hperm; left).
  assert (Hcur_front : cur ∈ frontier open_list ++ closed).
  { apply elem_of_app. left. by apply (list_elem_of_fmap_2 snd _ _ Hcur_in). }
  pose proof (Hwf cur Hcur_front) as Hcurwf.
  assert (Hbound : forall ds', slides start ds' = Some goal ->
            cur.(g_of_n) + h cur.(board_state_1d) <= path_cost start ds' + h goal).
  { intros ds' Hds'.
    destruct (Hcover _ _ Hds')
      as [(q & r & n & -> & Hn & Hq & _ & Hgq)|(n & Hn & Hb)];
      [|by destruct (Hclosed n Hn)].
    rewrite slides_app, Hq in Hds'. simpl in Hds'.
    rewrite (path_cost_app q r _ _ Hq).
    assert (Hnwf : wf_state n) by (apply Hwf, elem_of_app; by left).
    pose proof (Hadm _ r (proj1 Hnwf) Hds') as Hadm'.
    assert (Hsame : n = cur -> cur.(g_of_n) + h cur.(board_state_1d)
                     <= path_cost start q + path_cost n.(board_state_1d) r + h goal).
    { intros ->. lia. }
    apply list_elem_of_fmap in Hn as ([[p' i'] n'] & -> & Hn). simpl in *.
    destruct (Hkeys _ _ _ Hcur_in) as [_ [Hp|Hsingle]].
    - destruct (Hkeys _ _ _ Hn) as [_ [Hp'|Hsingle]].
      + pose proof (Hmin _ Hn) as Hlt. apply not_true_iff_false in Hlt.
        rewrite entry_lt_spec in Hlt. simpl in Hlt.
        pose proof (Hheur cur Hcur_front) as Hk1.
        pose proof (Hheur n' ltac:(apply elem_of_app; left;
                      by apply (list_elem_of_fmap_2 snd _ _ Hn))) as Hk2.
        lia.
      + rewrite Hsingle in Hcur_in. apply list_elem_of_singleton in Hcur_in.
        apply Hsame. congruence.
    - rewrite Hsingle in Hn. apply list_elem_of_singleton in Hn.
      apply Hsame. congruence. }
  destruct (Hlinked cur Hcur_front) as [Hdep0 Hcur_ok].
  destruct (path_chain int_is int_is_eq int_is_small start closed
              (fun n Hn => Hlinked n ltac:(apply elem_of_app; by right))
              (Z.to_nat cur.(depth)) cur [cur] (Z.to_nat cur.(depth))
              (conj Hdep0 Hcur_ok) ltac:(lia) ltac:(lia))
    as (_ & dcur & _ & _ & Hldcur & Hscur & Hccur & _).
  pose proof (path_cost_bounds dcur _ _ Hstart Hscur) as Hcb.
  pose proof (Hbound _ Hgoal) as Hb0. pose proof (Hlow cur.(board_state_1d)).
  assert (Hdepth : 0 <= cur.(depth) <= path_cost start ds_goal) by lia.
  rewrite solve_loop_S, Hpop. simpl. unfold list_eqb. case_bool_decide as Hfound.
  - destruct (path_chain int_is int_is_eq int_is_small start closed
                (fun n Hn => Hlinked n ltac:(apply elem_of_app; by right))
                (Z.to_nat cur.(depth)) cur [cur] pfuel
                (conj Hdep0 Hcur_ok) ltac:(lia) ltac:(lia))
      as (chain & ds & Hpath & Hlc & Hlds & Hs & Hcost & Htrace).
    unfold print_success_message, get_state_path. rewrite Hpath. simpl.
    eexists _, counter, ds. split; [reflexivity|].
    unfold cheapest_report. simpl. rewrite Hlc.
    split; [congruence|]. split; [by rewrite Htrace|]. split; [lia|].
    split; [by exists cur, chain|].
    intros ds' Hds'. pose proof (Hbound _ Hds'). rewrite Hfound in *. lia.
  - destruct (frontier_step key _ _ _ _ _ _ _ _ _ Hinv Hpop Hfound)
      as (cs & Hcs & [_ Hlen] & Hdeps & Hmoves & Hinv').
    rewrite Hcs. simpl. rewrite Hpush.
    assert (Hfront : frontier open_list ≡ₚ cur :: frontier open').
    { unfold frontier. by rewrite Hperm. }
    assert (Hnodes : forall n,
              n ∈ frontier (reverse ((fun c => (key c, c.(id_no), c)) <$> cs) ++ open')
                  ++ closed ++ [cur] ->
              n ∈ cs \/ n ∈ frontier open_list ++ closed).
    { intros n Hn. rewrite frontier_pushed_key in Hn.
      rewrite !elem_of_app, list_elem_of_singleton in Hn.
      rewrite elem_of_app, Hfront, elem_of_cons. tauto. }
    apply IH; [exact Hinv'| | |].
    + intros n Hn. destruct (Hnodes n Hn) as [Hc|Hold]; [|by apply Hheur].
      destruct (Hmoves n Hc) as (_ & d & b' & s & Hsl & Hmv).
      by apply (Hkey cur n d b' s Hcurwf (Hgs cur Hcur_front) Hsl Hmv).
    + intros n Hn. destruct (Hnodes n Hn) as [Hc|Hold]; [|by apply Hgs].
      destruct (Hmoves n Hc) as (-> & _). by apply Hgs.
    + pose proof (measure_step_key key (path_cost start ds_goal) _ _ _ _ _ cs Hperm
                    Hdepth Hlen Hdeps).
      lia.
Qed.

Lemma init_frontier (key : PuzzleState -> Z) (start goal : list Z) (s : nat) :
  is_board start -> is_board goal ->
  exists goal_state start_state : PuzzleState,
    PuzzleState_init id_of int_is goal None None 0 0 s = Ok (goal_state, S s) /\
    PuzzleState_init id_of int_is start (Some goal_state) None 0 0 (S s) =
      Ok (start_state, S (S s)) /\
    goal_state.(board_state_1d) = goal /\
    is_board goal_state.(board_state_1d) /\
    goal_state.(board_state) = to_2d_array goal_state.(board_state_1d) /\
    start_state.(board_state_1d) = start /\
    start_state.(goal_puzzle_state) = Some goal_state /\
    start_state.(g_of_n) = 0 /\ start_state.(depth) = 0 /\
    start_state.(f1_of_n) = 0 + h1_spec start goal /\
    start_state.(f2_of_n) = 0 + h2_spec start goal /\
    frontier_inv id_of key start goal (S (S s))
      [(0, start_state.(id_no), start_state)] [].
Proof using int_is_eq int_is_small.
  intros Hs Hg.
  destruct (init_ok id_of int_is int_is_eq int_is_small goal None None 0 0 s Hg I)
    as (gs & Hgs & _ & _ & Hgb & _ & _ & _ & _ & _ & Hgwf).
  destruct Hgwf as (Hgb' & Hgview & _).
  destruct (init_ok id_of int_is int_is_eq int_is_small start (Some gs) None 0 0
              (S s) Hs (conj Hgb' Hgview))
    as (st & Hst & Hpar & Hid & Hb & Hgl & Hcost & Hdep & _ & _ & Hwf).
  destruct (init_values _ _ _ _ _ _ _ _ Hs Hgb' Hgview Hst) as (_ & _ & Hf1 & Hf2).
  rewrite Hgb in Hf1, Hf2.
  exists gs, st. repeat (split; [assumption|]).
  constructor.
  - intros p i n Hin. apply list_elem_of_singleton in Hin.
    injection Hin as -> -> ->. split; [done|by right].
  - done.
  - intros n Hn. simpl in Hn. apply list_elem_of_singleton in Hn. by subst.
  - intros n Hn. simpl in Hn. apply list_elem_of_singleton in Hn. subst.
    exists (S s). split; [lia|done].
  - simpl. apply NoDup_singleton.
  - intros n Hn. simpl in Hn. apply list_elem_of_singleton in Hn. subst.
    split; [lia|]. by left.
  - intros ds b Hds. left. exists [], ds, st. simpl.
    split; [done|]. split; [by left|]. by rewrite Hb, Hdep, Hcost.
  - intros n Hn. by apply elem_of_nil in Hn.
Qed.

Lemma best_first_solve (key : PuzzleState -> Z) (h : list Z -> Z) (method : string)
  (start goal : list Z) (ds_goal : list direction) (fuel pfuel s : nat) :
  (forall (cs : list PuzzleState) (open_list : list entry) (added : Z),
     push_expansions method cs open_list added =
     (reverse ((fun c => (key c, c.(id_no), c)) <$> cs) ++ open_list,
      added + Z.of_nat (length cs))) ->
  (forall n : PuzzleState,
     n.(f1_of_n) = n.(g_of_n) + h1_spec n.(board_state_1d) goal ->
     n.(f2_of_n) = n.(g_of_n) + h2_spec n.(board_state_1d) goal ->
     key n = n.(g_of_n) + h n.(board_state_1d)) ->
  (forall (b : list Z) (r : list direction),
     is_board b -> slides b r = Some goal -> h b <= path_cost b r + h goal) ->
  (forall b : list Z, h goal <= h b) ->
  is_board start -> slides start ds_goal = Some goal ->
  (subtree_size (Z.to_nat (path_cost start ds_goal)) < fuel)%nat ->
  (Z.to_nat (path_cost start ds_goal) <= pfuel)%nat ->
  exists (rep : Report) (s' : nat) (ds : list direction),
    solve id_of int_is fuel pfuel start goal method s = Ok (rep, s') /\
    cheapest_report start goal rep ds.
Proof using id_of_inj int_is_eq int_is_small.
  intros Hpush Hstate Hadm Hlow Hstart Hgoal Hfuel Hpfuel.
  pose proof (slides_board _ _ _ Hstart Hgoal) as Hg.
  destruct (init_frontier key start goal s Hstart Hg)
    as (gs & st & Hgs & Hst & Hgb & HG & Hgview & Hb & Hgl & Hcost & Hdep & Hf1 & Hf2
        & Hinv).
  unfold solve. rewrite Hgs. simpl. rewrite Hst. simpl. unfold heappush.
  apply (best_first_loop key h method gs start goal ds_goal pfuel Hpush);
    try assumption.
  - intros n c d b' s0 Hn Hngoal Hsl Hmv.
    destruct (move_ok_heur n gs d b' s0 Hn Hngoal Hsl) as (c' & Hmv' & H1 & H2).
    rewrite Hmv in Hmv'. injection Hmv' as <-. rewrite Hgb in H1, H2.
    by apply Hstate.
  - intros n Hn. simpl in Hn. apply list_elem_of_singleton in Hn. subst n.
    apply Hstate; by rewrite Hcost, Hb.
  - intros n Hn. simpl in Hn. apply list_elem_of_singleton in Hn. by subst n.
  - unfold frontier_measure, node_measure. simpl. rewrite Hdep.
    pose proof (path_cost_bounds ds_goal _ _ Hstart Hgoal).
    destruct (Z.leb_spec 0 (path_cost start ds_goal)); [|lia].
    rewrite Z.sub_0_r. lia.
Qed.

Lemma a_star_solve (method : string) (start goal : list Z)
  (ds_goal : list direction) (fuel pfuel s : nat) :
  method = "a_star_h1" \/ method = "a_star_h2" ->
  is_board start -> slides start ds_goal = Some goal ->
  (subtree_size (Z.to_nat (path_cost start ds_goal)) < fuel)%nat ->
  (Z.to_nat (path_cost start ds_goal) <= pfuel)%nat ->
  exists (rep : Report) (s' : nat) (ds : list direction),
    solve id_of int_is fuel pfuel start goal method s = Ok (rep, s') /\
    cheapest_report start goal rep ds.
Proof using id_of_inj int_is_eq int_is_small.
  intros [->| ->] Hstart Hgoal Hfuel Hpfuel.
  - apply (best_first_solve f1_of_n (fun b => h1_spec b goal) "a_star_h1"
             start goal ds_goal fuel pfuel s); try assumption.
    + intros cs open_list added. apply push_expansions_h1.
    + intros n H1 _. exact H1.
    + intros b r Hb Hr. pose proof (mismatch_path goal r b Hb Hr).
      rewrite h1_spec_same. lia.
    + intros b. rewrite h1_spec_same. apply h1_spec_lower.
  - apply (best_first_solve f2_of_n (fun b => h2_spec b goal) "a_star_h2"
             start goal ds_goal fuel pfuel s); try assumption.
    + intros cs open_list added. apply push_expansions_h2.
    + intros n _ H2. exact H2.
    + intros b r Hb Hr. pose proof (h2_path goal r b Hb Hr).
      rewrite h2_spec_same. lia.
    + intros b. rewrite h2_spec_same. apply h2_spec_nonneg.
Qed.

(** X8: when the goal board is reachable, [solve] with method
    "a_star_h1" or "a_star_h2" reports a path of least total cost: the
    path is the trace of a sequence of moves from the start to the goal,
    the g of its end state is the cost of that sequence, and no sequence
    of moves from the start to the goal costs less. *)
Theorem a_star_least_cost (method : string) (start goal : list Z)
  (ds_goal : list direction) (fuel pfuel s : nat) :
  method = "a_star_h1" \/ method = "a_star_h2" ->
  is_board start -> slides start ds_goal = Some goal ->
  (subtree_size (Z.to_nat (path_cost start ds_goal)) < fuel)%nat ->
  (Z.to_nat (path_cost start ds_goal) <= pfuel)%nat ->
  exists (rep : Report) (s' : nat) (ds : list direction)
         (end_state : PuzzleState) (rest : list PuzzleState),
    solve id_of int_is fuel pfuel start goal method s = Ok (rep, s') /\
    slides start ds = Some goal /\
    board_state_1d <$> rep.(rep_path) = reverse (trace start ds) /\
    rep.(rep_moves) = Z.of_nat (length ds) /\
    rep.(rep_path) = end_state :: rest /\
    end_state.(g_of_n) = path_cost start ds /\
    (forall ds', slides start ds' = Some goal ->
                 end_state.(g_of_n) <= path_cost start ds').
Proof using id_of_inj int_is_eq int_is_small.
  intros Hm Hstart Hgoal Hfuel Hpfuel.
  destruct (a_star_solve method start goal ds_goal fuel pfuel s Hm Hstart Hgoal
              Hfuel Hpfuel)
    as (rep & s' & ds & Hrun & Hs & Htrace & Hmoves & (e & rest & Hpath & Hg) & Hmin).
  exists rep, s', ds, e, rest. repeat (split; [assumption|]).
  intros ds' Hds'. rewrite Hg. by apply Hmin.
Qed.

Lemma safe_loop (key : PuzzleState -> Z) (method : string)
  (start goal : list Z) (pfuel : nat) :
  (forall (cs : list PuzzleState) (open_list : list entry) (added : Z),
     push_expansions method cs open_list added =
     (reverse ((fun c => (key c, c.(id_no), c)) <$> cs) ++ open_list,
      added + Z.of_nat (length cs))) ->
  forall (fuel : nat) (open_list : list entry) (closed : list PuzzleState)
         (added : Z) (counter : nat),
    frontier_inv id_of key start goal counter open_list closed ->
    (exists rep s',
       solve_loop id_of int_is fuel pfuel goal method open_list closed added counter =
       Ok (rep, s')) \/
    solve_loop id_of int_is fuel pfuel goal method open_list closed added counter =
    OutOfFuel.
Proof using id_of_inj int_is_eq int_is_small.
  intros Hpush fuel.
  induction fuel as [|fuel IH]; intros open_list closed added counter Hinv;
    [by right|].
  pose proof Hinv as [Hkeys Hnonempty Hwf Hids Hnodup Hlinked Hcover Hclosed].
  destruct open_list as [|e0 es] eqn:Hopen; [done|]. rewrite <- Hopen in *.
  destruct (heappop_nonempty open_list e0) as ([[p i] cur] & open' & Hpop).
  { rewrite Hopen. left. }
  destruct (heappop_spec _ _ _ Hpop) as [Hperm _].
  assert (Hcur_front : cur ∈ frontier open_list ++ closed).
  { apply elem_of_app. left. apply (list_elem_of_fmap_2 snd _ (p, i, cur)).
    rewrite Hperm. left. }
  rewrite solve_loop_S, Hpop. simpl. unfold list_eqb. case_bool_decide as Hfound.
  - unfold print_success_message, get_state_path.
    destruct (path_safe start closed
                (fun n Hn => Hlinked n ltac:(apply elem_of_app; by right))
                pfuel cur [cur] (Hlinked cur Hcur_front)) as [[path ->]| ->]; simpl.
    + left. eauto.
    + by right.
  - destruct (frontier_step key _ _ _ _ _ _ _ _ _ Hinv Hpop Hfound)
      as (cs & Hcs & _ & _ & _ & Hinv').
    rewrite Hcs. simpl. rewrite Hpush. by apply IH.
Qed.

Lemma safe_solve (key : PuzzleState -> Z) (method : string)
  (start goal : list Z) (fuel pfuel s : nat) :
  (forall (cs : list PuzzleState) (open_list : list entry) (added : Z),
     push_expansions method cs open_list added =
     (reverse ((fun c => (key c, c.(id_no), c)) <$> cs) ++ open_list,
      added + Z.of_nat (length cs))) ->
  is_board start -> is_board goal ->
  (exists rep s', solve id_of int_is fuel pfuel start goal method s = Ok (rep, s')) \/
  solve id_of int_is fuel pfuel start goal method s = OutOfFuel.
Proof using id_of_inj int_is_eq int_is_small.
  intros Hpush Hstart Hg.
  destruct (init_frontier key start goal s Hstart Hg)
    as (gs & st & Hgs & Hst & _ & _ & _ & _ & _ & _ & _ & _ & _ & Hinv).
  unfold solve. rewrite Hgs. simpl. rewrite Hst. simpl. unfold heappush.
  by apply (safe_loop key method start goal pfuel Hpush).
Qed.

(** X9: on boards, with one of the three methods, [solve] raises no
    exception, whether the goal is reachable or not: within any fuel it
    either reports a path that ends on the goal board or is still
    running. *)
Theorem solve_never_raises (method : string) (start goal : list Z)
  (fuel pfuel s : nat) :
  method = "bfs" \/ method = "a_star_h1" \/ method = "a_star_h2" ->
  is_board start -> is_board goal ->
  (exists rep s' end_state rest,
     solve id_of int_is fuel pfuel start goal method s = Ok (rep, s') /\
     rep.(rep_path) = end_state :: rest /\
     end_state.(board_state_1d) = goal) \/
  solve id_of int_is fuel pfuel start goal method s = OutOfFuel.
Proof using id_of_inj int_is_eq int_is_small.
  intros Hm Hstart Hg.
  assert (Hsafe :
    (exists rep s', solve id_of int_is fuel pfuel start goal method s = Ok (rep, s')) \/
    solve id_of int_is fuel pfuel start goal method s = OutOfFuel).
  { destruct Hm as [->|[->| ->]].
    - apply (safe_solve depth); [|done|done].
      intros cs open_list added. apply push_expansions_bfs.
    - apply (safe_solve f1_of_n); [|done|done].
      intros cs open_list added. apply push_expansions_h1.
    - apply (safe_solve f2_of_n); [|done|done].
      intros cs open_list added. apply push_expansions_h2. }
  destruct Hsafe as [(rep & s' & Hrun)|Hout]; [left|by right].
  destruct (solve_loop_reports_goal_solve id_of int_is _ _ _ _ _ _ _ _ Hrun)
    as (e & rest & Hpath & Hb).
  by exists rep, s', e, rest.
Qed.

Lemma subtree_size_mono (i j : nat) :
  (i <= j)%nat -> (subtree_size i <= subtree_size j)%nat.
Proof.
  induction 1 as [|j _ IH]; [lia|]. simpl. lia.
Qed.

(** X10: [solve_all] on a reachable goal gives three reports: the
    breadth-first one has the fewest moves, the two A* ones have the
    same total cost, the least there is, so at most the cost of the
    breadth-first path. *)
Theorem solve_all_reports (start goal : list Z) (ds_goal : list direction)
  (fuel pfuel s : nat) :
  is_board start -> slides start ds_goal = Some goal ->
  (subtree_size (Z.to_nat (path_cost start ds_goal)) < fuel)%nat ->
  (Z.to_nat (path_cost start ds_goal) <= pfuel)%nat ->
  exists (bfs a1 a2 : Report) (s' : nat) (e0 e1 e2 : PuzzleState)
         (r0 r1 r2 : list PuzzleState),
    solve_all id_of int_is fuel pfuel start goal s = Ok ((bfs, a1, a2), s') /\
    bfs.(rep_path) = e0 :: r0 /\ a1.(rep_path) = e1 :: r1 /\
    a2.(rep_path) = e2 :: r2 /\
    e0.(board_state_1d) = goal /\ e1.(board_state_1d) = goal /\
    e2.(board_state_1d) = goal /\
    bfs.(rep_moves) <= a1.(rep_moves) /\ bfs.(rep_moves) <= a2.(rep_moves) /\
    e1.(g_of_n) = e2.(g_of_n) /\ e1.(g_of_n) <= e0.(g_of_n).
Proof using id_of_inj int_is_eq int_is_small.
  intros Hstart Hgoal Hfuel Hpfuel.
  pose proof (path_cost_bounds ds_goal _ _ Hstart Hgoal) as Hcb.
  pose proof (subtree_size_mono (length ds_goal)
                (Z.to_nat (path_cost start ds_goal)) ltac:(lia)) as Hmono.
  destruct (bfs_solve id_of id_of_inj int_is int_is_eq int_is_small
              start goal ds_goal fuel pfuel s Hstart Hgoal ltac:(lia) ltac:(lia))
    as (bfs & s0 & ds0 & Hrun0 & Hs0 & _ & _ & Hm0 & (e0 & r0 & Hp0 & Hg0) & Hmin0).
  destruct (a_star_solve "a_star_h1" start goal ds_goal fuel pfuel s0
              ltac:(by left) Hstart Hgoal Hfuel Hpfuel)
    as (a1 & s1 & ds1 & Hrun1 & Hs1 & _ & Hm1 & (e1 & r1 & Hp1 & Hg1) & Hmin1).
  destruct (a_star_solve "a_star_h2" start goal ds_goal fuel pfuel s1
              ltac:(by right) Hstart Hgoal Hfuel Hpfuel)
    as (a2 & s2 & ds2 & Hrun2 & Hs2 & _ & Hm2 & (e2 & r2 & Hp2 & Hg2) & Hmin2).
  exists bfs, a1, a2, s2, e0, e1, e2, r0, r1, r2.
  split.
  { unfold solve_all, mbind, mret. rewrite Hrun0. simpl. rewrite Hrun1. simpl.
    rewrite Hrun2. reflexivity. }
  do 3 (split; [assumption|]).
  destruct (solve_loop_reports_goal_solve id_of int_is _ _ _ _ _ _ _ _ Hrun0)
    as (x0 & y0 & Hx0 & Hb0).
  destruct (solve_loop_reports_goal_solve id_of int_is _ _ _ _ _ _ _ _ Hrun1)
    as (x1 & y1 & Hx1 & Hb1).
  destruct (solve_loop_reports_goal_solve id_of int_is _ _ _ _ _ _ _ _ Hrun2)
    as (x2 & y2 & Hx2 & Hb2).
  rewrite Hp0 in Hx0. rewrite Hp1 in Hx1. rewrite Hp2 in Hx2.
  injection Hx0 as <- _. injection Hx1 as <- _. injection Hx2 as <- _.
  do 3 (split; [assumption|]).
  pose proof (Hmin0 ds1 Hs1). pose proof (Hmin0 ds2 Hs2).
  pose proof (Hmin1 ds2 Hs2). pose proof (Hmin1 ds0 Hs0). pose proof (Hmin2 ds1 Hs1).
  rewrite Hm0, Hm1, Hm2, Hg0, Hg1, Hg2. lia.
Qed.

(** ** [move] outside [expand] *)

Lemma py_index_wrap {A : Type} (l : list A) (i : Z) :
  length l = 16%nat -> -16 <= i < 16 ->
  py_index l i = Ok (Z.to_nat (if i <? 0 then i + 16 else i)).
Proof.
  intros Hlen Hi. unfold py_index. rewrite Hlen.
  change (Z.of_nat 16) with 16.
  destruct (Z.ltb_spec i 0).
  - destruct (Z.ltb_spec (i + 16) 0); [lia|].
    destruct (Z.leb_spec 16 (i + 16)); [lia|]. reflexivity.
  - destruct (Z.ltb_spec i 0); [lia|].
    destruct (Z.leb_spec 16 i); [lia|]. reflexivity.
Qed.

Lemma py_index_past {A : Type} (l : list A) (i : Z) :
  length l = 16%nat -> 16 <= i -> py_index l i = Raise IndexError.
Proof.
  intros Hlen Hi. unfold py_index. rewrite Hlen.
  change (Z.of_nat 16) with 16.
  destruct (Z.ltb_spec i 0); [lia|].
  destruct (Z.ltb_spec i 0); [lia|].
  destruct (Z.leb_spec 16 i); [|lia]. reflexivity.
Qed.

Lemma dirs_range (d : direction) : -4 <= dirs d <= 4 /\ dirs d <> 0.
Proof. destruct d; simpl; lia. Qed.

Lemma move_any_direction (n : PuzzleState) (d : direction) (zp : nat) (s : nat) :
  wf_state n -> index n.(board_state_1d) 0 = Some zp ->
  let i := Z.of_nat zp + dirs d in
  let tp := Z.to_nat (if i <? 0 then i + 16 else i) in
  (16 <= i -> move id_of int_is n d s = Raise IndexError) /\
  (i < 16 ->
   exists (c : PuzzleState) (t : Z),
     n.(board_state_1d) !! tp = Some t /\ 1 <= t <= 15 /\
     move id_of int_is n d s = Ok (c, S s) /\
     c.(board_state_1d) = <[tp := 0]> (<[zp := t]> n.(board_state_1d)) /\
     is_board c.(board_state_1d) /\
     c.(g_of_n) = n.(g_of_n) + tile_weight t /\
     c.(depth) = n.(depth) + 1).
Proof using int_is_eq int_is_small.
  intros (Hb & Hview & Hg) Hzp i tp.
  destruct (index_Some _ _ _ Hzp) as [Hz _].
  pose proof (lookup_lt_Some _ _ _ Hz) as Hlt. rewrite (board_length _ Hb) in Hlt.
  pose proof (dirs_range d) as [Hd Hd0]. pose proof (board_length _ Hb) as Hlen.
  split.
  - intros Hi. unfold move. rewrite Hzp. unfold move_cost, py_getitem.
    fold i. rewrite (py_index_past _ i Hlen Hi). reflexivity.
  - intros Hi.
    assert (Hidx : py_index n.(board_state_1d) i = Ok tp).
    { apply py_index_wrap; [exact Hlen|lia]. }
    assert (Htp : (tp < 16)%nat) by (unfold tp; destruct (i <? 0) eqn:E; lia).
    assert (Hne : tp <> zp).
    { unfold tp. destruct (Z.ltb_spec i 0); unfold i in *; lia. }
    destruct (lookup_lt_is_Some_2 n.(board_state_1d) tp) as [t Ht]; [lia|].
    assert (Hr : 1 <= t <= 15).
    { pose proof (board_lookup_range _ Hb _ _ Ht).
      assert (t <> 0); [|lia]. intros ->. apply Hne.
      eapply NoDup_lookup; eauto using board_NoDup. }
    assert (Hb' : is_board (<[tp := 0]> (<[zp := t]> n.(board_state_1d)))).
    { unfold is_board. rewrite Permutation_insert_swap by done. exact Hb. }
    destruct (init_ok id_of int_is int_is_eq int_is_small
                (<[tp := 0]> (<[zp := t]> n.(board_state_1d)))
                n.(goal_puzzle_state) (Some n.(id_no)) (n.(depth) + 1)
                (n.(g_of_n) + tile_weight t) s Hb' Hg)
      as (c & Hc & _ & _ & Hbd & _ & Hcost & Hdep & _).
    exists c, t. split; [exact Ht|]. split; [exact Hr|]. split.
    + unfold move. rewrite Hzp. fold i.
      assert (Hget : py_getitem n.(board_state_1d) i = Ok t).
      { unfold py_getitem. rewrite Hidx. simpl. by rewrite Ht. }
      assert (Hcostv : move_cost n.(board_state_1d) i = Ok (Some (tile_weight t))).
      { unfold move_cost. rewrite Hget. simpl.
        destruct (tile_weight_tile t Hr) as [-> _].
        destruct (Z.ltb_spec 0 t), (Z.ltb_spec t 10), (Z.leb_spec 10 t),
          (Z.leb_spec t 15), (Z.leb_spec t 9); simpl; try reflexivity; lia. }
      rewrite Hcostv. simpl. rewrite Hget. simpl.
      rewrite (py_getitem_lookup _ _ _ Hz). simpl.
      rewrite py_setitem_lookup by lia. simpl.
      unfold py_setitem.
      assert (Hidx' : py_index (<[zp := t]> n.(board_state_1d)) i = Ok tp).
      { apply py_index_wrap; [by rewrite length_insert|lia]. }
      rewrite Hidx'. simpl. exact Hc.
    + rewrite Hbd, Hcost, Hdep. done.
Qed.

(** X11: [move] does not check its direction.  With the blank at cell
    [zp] it raises IndexError only when [zp + dirs d] is past the last
    cell (down from the bottom row, right from the last cell);
    otherwise it swaps the blank with the cell that Python's indexing
    gives, a negative index counting from the end: up from the top row
    reaches the bottom row, and left and right at a border reach the
    neighbouring row.  The move is charged and built as any other. *)
Theorem move_does_not_check_direction (n : PuzzleState) (d : direction)
  (zp : nat) (s : nat) :
  wf_state n -> index n.(board_state_1d) 0 = Some zp ->
  (16 <= Z.of_nat zp + dirs d -> move id_of int_is n d s = Raise IndexError) /\
  (Z.of_nat zp + dirs d < 16 ->
   exists (c : PuzzleState) (t : Z) (tp : nat),
     Z.of_nat tp = (if Z.of_nat zp + dirs d <? 0
                    then Z.of_nat zp + dirs d + 16 else Z.of_nat zp + dirs d) /\
     n.(board_state_1d) !! tp = Some t /\
     move id_of int_is n d s = Ok (c, S s) /\
     c.(board_state_1d) = <[tp := 0]> (<[zp := t]> n.(board_state_1d)) /\
     is_board c.(board_state_1d) /\
     c.(g_of_n) = n.(g_of_n) + tile_weight t).
Proof using int_is_eq int_is_small.
  intros Hn Hzp. destruct (move_any_direction n d zp s Hn Hzp) as [Hraise Hok].
  split; [exact Hraise|]. intros Hi.
  destruct (Hok Hi) as (c & t & Ht & _ & Hmv & Hbd & Hb' & Hg & _).
  exists c, t, (Z.to_nat (if Z.of_nat zp + dirs d <? 0
                          then Z.of_nat zp + dirs d + 16 else Z.of_nat zp + dirs d)).
  split; [|done].
  pose proof (dirs_range d). destruct (Z.ltb_spec (Z.of_nat zp + dirs d) 0); lia.
Qed.

(** ** Undoing a move *)

Lemma slide_opposite (b b' : list Z) (d : direction) :
  is_board b -> slide b d = Some b' ->
  slide b' (opposite d) = Some b /\
  moved_tile b' (opposite d) = moved_tile b d.
Proof.
  intros Hb Hs. pose proof (slide_board _ _ _ Hb Hs) as Hb'.
  destruct (slide_inv _ _ _ Hb Hs)
    as (zp & tp & t & Hzi & Hzp & Htp & Hne & Hok & Heq & Hz & Ht & Hr & Hmv & Hb'eq).
  assert (Hz' : b' !! zp = Some t).
  { rewrite Hb'eq, list_lookup_insert_ne by done.
    apply list_lookup_insert_eq. rewrite (board_length _ Hb). lia. }
  assert (Ht' : b' !! tp = Some 0).
  { rewrite Hb'eq. apply list_lookup_insert_eq.
    rewrite length_insert, (board_length _ Hb). lia. }
  assert (Hsame : forall i, i <> zp -> i <> tp -> b' !! i = b !! i).
  { intros i Hi1 Hi2. by rewrite Hb'eq, !list_lookup_insert_ne. }
  destruct (target_in_grid zp d Hzp Hok) as (_ & _ & Hadj). rewrite <- Heq in Hadj.
  assert (Hback : Z.of_nat tp + dirs (opposite d) = Z.of_nat zp).
  { rewrite Heq. destruct d; simpl; lia. }
  assert (Hok' : dir_ok (Z.of_nat tp / 4) (Z.of_nat tp mod 4) (opposite d) = true).
  { pose proof (Z.mod_pos_bound (Z.of_nat zp) 4 ltac:(lia)).
    assert (0 <= Z.of_nat zp / 4 < 4).
    { split; [apply Z.div_pos; lia|]. apply Z.div_lt_upper_bound; lia. }
    destruct d; simpl in Hadj, Hok |- *; injection Hadj as Hrow Hcol;
      rewrite ?Hrow, ?Hcol; apply Z.ltb_lt; apply Z.ltb_lt in Hok; lia. }
  split.
  2:{ rewrite Hmv. unfold moved_tile.
      rewrite (board_index_lookup b' Hb' tp 0 Ht'), Hback, Nat2Z.id.
      by apply nth_lookup_Some. }
  unfold slide.
  rewrite (board_index_lookup b' Hb' tp 0 Ht'), Hok', Hback, Nat2Z.id, Hz'.
  f_equal. apply list_eq. intros i.
  destruct (decide (i = zp)) as [->|Hizp].
  - rewrite list_lookup_insert_eq; [by rewrite Hz|].
    rewrite length_insert, (board_length b' Hb'). lia.
  - rewrite list_lookup_insert_ne by done.
    destruct (decide (i = tp)) as [->|Hitp].
    + rewrite list_lookup_insert_eq; [by rewrite Ht|].
      rewrite (board_length b' Hb'). lia.
    + rewrite list_lookup_insert_ne by done. by apply Hsame.
Qed.

(** X12: a move is undone by the move in the opposite direction, which
    is valid after it: the second successor holds the board of the
    first state again, two levels deeper and charged twice the weight of
    the tile. *)
Theorem move_opposite_restores_board (n : PuzzleState) (row col : Z)
  (d : direction) (s : nat) :
  wf_state n ->
  find n.(board_state) 0 = Ok (Some (row, col)) -> dir_ok row col d = true ->
  exists (c c2 : PuzzleState) (t : Z),
    n.(board_state_1d) !!
      Z.to_nat (4 * (step_pos row col d).1 + (step_pos row col d).2) = Some t /\
    1 <= t <= 15 /\
    move id_of int_is n d s = Ok (c, S s) /\
    c.(board_state_1d) !! Z.to_nat (4 * row + col) = Some t /\
    c.(g_of_n) = n.(g_of_n) + tile_weight t /\
    find c.(board_state) 0 = Ok (Some (step_pos row col d)) /\
    dir_ok (step_pos row col d).1 (step_pos row col d).2 (opposite d) = true /\
    move id_of int_is c (opposite d) (S s) = Ok (c2, S (S s)) /\
    c2.(board_state_1d) = n.(board_state_1d) /\
    c2.(g_of_n) = n.(g_of_n) + 2 * tile_weight t /\
    c2.(depth) = n.(depth) + 2 /\
    c2.(parent_id) = Some c.(id_no).
Proof using int_is_eq int_is_small.
  intros Hn Hfind Hok.
  destruct (valid_dir_slide n row col d Hn Hfind Hok) as [b' Hs].
  destruct (move_ok id_of int_is int_is_eq int_is_small n d b' s Hn Hs)
    as (c & Hmv & Hch & Hbd & _ & Hwf).
  pose proof Hn as (Hb & _).
  destruct (slide_opposite _ _ _ Hb Hs) as [Hback Htile]. rewrite <- Hbd in Hback.
  destruct (move_ok id_of int_is int_is_eq int_is_small c (opposite d) _ (S s)
              Hwf Hback)
    as (c2 & Hmv2 & Hch2 & Hbd2 & _ & _).
  destruct (child_blank n c row col d Hn Hwf Hch Hfind) as (Hfind' & _).
  destruct (slide_inv _ _ _ Hb Hs)
    as (zp0 & tp0 & t & Hzi & Hzlt & Htlt & Htne & _ & Htp & _ & Ht & Hr & Hmt & Hb'eq).
  pose proof (find_blank n row col Hn Hfind) as Hpos0.
  unfold pos_of in Hpos0. rewrite Hzi in Hpos0. simpl in Hpos0.
  injection Hpos0 as Hrow Hcol.
  pose proof (Z.div_mod (Z.of_nat zp0) 4 ltac:(lia)) as Hdm.
  subst t. exists c, c2, (moved_tile n.(board_state_1d) d).
  split.
  { replace (Z.to_nat (4 * (step_pos row col d).1 + (step_pos row col d).2))
      with tp0; [exact Ht|].
    destruct d; simpl in *; lia. }
  split; [exact Hr|]. split; [exact Hmv|]. split.
  { replace (Z.to_nat (4 * row + col)) with zp0 by lia.
    rewrite Hbd, Hb'eq, list_lookup_insert_ne by done.
    apply list_lookup_insert_eq. rewrite (board_length _ Hb). lia. }
  split; [by destruct Hch as (_ & _ & _ & Hg & _)|].
  split; [exact Hfind'|]. split.
  - destruct (step_pos row col d) as [row' col'] eqn:Hsp.
    pose proof (find_blank c row' col' Hwf Hfind') as Hpos.
    destruct Hwf as (Hcb & _).
    destruct (slide_inv _ _ _ Hcb Hback) as (zp & _ & _ & Hzp & _ & _ & _ & Hok' & _).
    unfold pos_of in Hpos. rewrite Hzp in Hpos. simpl in Hpos.
    injection Hpos as <- <-. exact Hok'.
  - split; [exact Hmv2|]. split; [exact Hbd2|].
    destruct Hch as (_ & _ & _ & Hg & Hd).
    destruct Hch2 as (_ & Hp2 & _ & Hg2 & Hd2).
    rewrite Hbd, Htile in Hg2. rewrite Hg2, Hg, Hd2, Hd. split; [lia|].
    split; [lia|exact Hp2].
Qed.

(** ** The heuristics on lists that are not boards *)

Lemma py_getitem_past {A : Type} (l : list A) (k : nat) :
  (length l <= k)%nat -> py_getitem l (Z.of_nat k) = Raise IndexError.
Proof.
  intros Hk. unfold py_getitem, py_index.
  destruct (Z.ltb_spec (Z.of_nat k) 0); [lia|].
  destruct (Z.ltb_spec (Z.of_nat k) 0); [lia|].
  destruct (Z.leb_spec (Z.of_nat (length l)) (Z.of_nat k)); [|lia]. reflexivity.
Qed.

Lemma val_multiplier_None (x : Z) : ~ 0 <= x <= 15 -> val_multiplier x = None.
Proof.
  intros Hx. unfold val_multiplier.
  destruct (Z.eqb_spec x 0); [lia|].
  destruct (Z.ltb_spec 0 x), (Z.ltb_spec x 10), (Z.leb_spec 10 x), (Z.leb_spec x 15);
    simpl; try reflexivity; lia.
Qed.

Lemma h1_loop_short (G : list Z) (pieces : list Z) :
  forall (k : nat) (count : Z),
    Forall (fun v => 0 <= v <= 15) pieces ->
    (k <= length G < k + length pieces)%nat ->
    h1_loop int_is pieces (Z.of_nat k) G count = Raise IndexError.
Proof using int_is_eq int_is_small.
  induction pieces as [|piece pieces IH]; intros k count Hp Hk; simpl in *; [lia|].
  inversion Hp as [|? ? Hpiece Hrest]; subst.
  destruct (decide (k = length G)) as [->|Hne].
  - by rewrite py_getitem_past.
  - destruct (lookup_lt_is_Some_2 G k) as [g Hg]; [lia|].
    rewrite (py_getitem_lookup _ _ _ Hg). simpl.
    replace (Z.of_nat k + 1) with (Z.of_nat (S k)) by lia.
    rewrite (int_is_decide int_is int_is_eq int_is_small) by exact Hpiece.
    case_bool_decide; simpl.
    + apply IH; [exact Hrest|lia].
    + rewrite val_multiplier_weight by exact Hpiece. simpl. apply IH; [exact Hrest|lia].
Qed.

Lemma h1_loop_bad_tile (G : list Z) (pre : list Z) (x y : Z) (post : list Z) :
  forall (k : nat) (count : Z),
    Forall (fun v => 0 <= v <= 15) pre ->
    ~ 0 <= x <= 15 ->
    G !! (k + length pre)%nat = Some y -> x <> y ->
    h1_loop int_is (pre ++ x :: post) (Z.of_nat k) G count = Raise TypeError.
Proof using int_is_eq int_is_small.
  induction pre as [|piece pre IH]; intros k count Hp Hx Hy Hxy; simpl in *.
  - rewrite Nat.add_0_r in Hy. rewrite (py_getitem_lookup _ _ _ Hy). simpl.
    destruct (int_is x y) eqn:His; [by apply int_is_eq in His|]. simpl.
    by rewrite val_multiplier_None.
  - inversion Hp as [|? ? Hpiece Hrest]; subst.
    destruct (lookup_lt_is_Some_2 G k) as [g Hg].
    { apply lookup_lt_Some in Hy. lia. }
    rewrite (py_getitem_lookup _ _ _ Hg). simpl.
    replace (Z.of_nat k + 1) with (Z.of_nat (S k)) by lia.
    assert (Hy' : G !! (S k + length pre)%nat = Some y).
    { rewrite <- Hy. f_equal. lia. }
    rewrite (int_is_decide int_is int_is_eq int_is_small) by exact Hpiece.
    case_bool_decide; simpl.
    + by apply IH.
    + rewrite val_multiplier_weight by exact Hpiece. simpl. by apply IH.
Qed.

(** X13: h1 does not validate its lists.  Against a goal list shorter
    than the board it raises IndexError; and at the first cell that
    holds a value outside 0..15 and differs from the goal's cell it
    raises TypeError, the weight of such a value being [None]. *)
Theorem h1_raises_on_bad_lists (g : PuzzleState) :
  (forall B : list Z,
     Forall (fun v => 0 <= v <= 15) B ->
     (length g.(board_state_1d) < length B)%nat ->
     estimated_cost_to_goal_h1 int_is B (Some g) = Raise IndexError) /\
  (forall (pre post : list Z) (x y : Z),
     Forall (fun v => 0 <= v <= 15) pre ->
     ~ 0 <= x <= 15 ->
     g.(board_state_1d) !! length pre = Some y -> x <> y ->
     estimated_cost_to_goal_h1 int_is (pre ++ x :: post) (Some g) = Raise TypeError).
Proof using int_is_eq int_is_small.
  split.
  - intros B HB Hlen. unfold estimated_cost_to_goal_h1.
    pose proof (h1_loop_short g.(board_state_1d) B 0%nat 0 HB ltac:(lia)) as H.
    change (Z.of_nat 0) with 0 in H. by rewrite H.
  - intros pre post x y Hpre Hx Hy Hxy. unfold estimated_cost_to_goal_h1.
    pose proof (h1_loop_bad_tile g.(board_state_1d) pre x y post 0%nat 0
                  Hpre Hx Hy Hxy) as H.
    change (Z.of_nat 0) with 0 in H. by rewrite H.
Qed.

Lemma index_absent (l : list Z) (v : Z) : v ∉ l -> index l v = None.
Proof.
  intros Hnot. destruct (index l v) as [i|] eqn:Hi; [|reflexivity].
  exfalso. apply Hnot. apply list_elem_of_lookup. exists i. by apply index_Some.
Qed.

#[local] Opaque pos_of.

Lemma h2_loop_cells (B G : list Z) :
  length B = 16%nat -> is_board G ->
  forall (pieces : list Z) (total : Z),
    Forall (fun v => 1 <= v <= 15) pieces ->
    (Forall (fun p => p ∈ B) pieces ->
     exists h, h2_loop (to_2d_array B) (to_2d_array G) pieces total = Ok h) /\
    (~ Forall (fun p => p ∈ B) pieces ->
     h2_loop (to_2d_array B) (to_2d_array G) pieces total = Raise TypeError).
Proof.
  intros HB HG pieces.
  induction pieces as [|p pieces IH]; intros total Hr.
  - split; [by eexists|]. intros H. destruct H. constructor.
  - inversion Hr as [|? ? Hp Hrest]; subst. cbn [h2_loop].
    rewrite (find_index B p HB).
    destruct (decide (p ∈ B)) as [Hin|Hnot].
    + destruct (index_elem_of B p Hin) as [i Hi]. rewrite Hi. simpl.
      rewrite (board_find G HG p) by lia. simpl.
      destruct (pos_of G p) as [goal_row goal_col]. simpl.
      rewrite val_multiplier_weight by lia. simpl.
      destruct (IH (total + tile_weight p *
                      (Z.abs (goal_row - Z.of_nat i / 4) +
                       Z.abs (goal_col - Z.of_nat i mod 4))) Hrest) as [Hok Hbad].
      split.
      * intros Hall. apply Hok. by inversion Hall.
      * intros Hall. apply Hbad. intros Hall'. apply Hall. by constructor.
    + rewrite (index_absent B p Hnot). simpl. split; [|done].
      intros Hall. inversion Hall; subst. done.
Qed.

#[local] Transparent pos_of.

Lemma init_cells (start : list Z) (gs : PuzzleState) (p : option Z)
  (dep cost : Z) (s : nat) :
  length start = 16%nat -> Forall (fun x => 0 <= x <= 15) start ->
  is_board gs.(board_state_1d) ->
  gs.(board_state) = to_2d_array gs.(board_state_1d) ->
  (Forall (fun t => t ∈ start) (range 1 16) ->
   exists n, PuzzleState_init id_of int_is start (Some gs) p dep cost s = Ok (n, S s) /\
             n.(board_state_1d) = start /\ n.(board_state) = to_2d_array start) /\
  (~ Forall (fun t => t ∈ start) (range 1 16) ->
   PuzzleState_init id_of int_is start (Some gs) p dep cost s = Raise TypeError).
Proof using int_is_eq int_is_small.
  intros Hlen Hvalid HG Hview. unfold PuzzleState_init.
  rewrite (h1_is_h1_spec int_is int_is_eq int_is_small start gs Hlen Hvalid)
    by (by apply board_length).
  unfold estimated_cost_to_goal_h2. rewrite Hview.
  destruct (h2_loop_cells start _ Hlen HG (range 1 16) 0 range_1_16) as [Hok Hbad].
  split.
  - intros Hall. destruct (Hok Hall) as [h2 Hh2]. unfold rbind at 1.
    rewrite Hh2. simpl. eexists. split; [reflexivity|]. done.
  - intros Hnall. unfold rbind at 1. by rewrite (Hbad Hnall).
Qed.

(** X14: a start list of 16 values 0..15 that is not a board (a value is
    missing, so another is repeated) is not rejected: with a goal board,
    [solve] raises TypeError, in the constructor of the start state when
    a tile 1..15 is missing, in the first expansion when the blank is. *)
Theorem solve_raises_on_missing_tile (start goal : list Z) (v : Z)
  (method : string) (fuel pfuel s : nat) :
  is_board goal -> length start = 16%nat ->
  Forall (fun x => 0 <= x <= 15) start ->
  0 <= v <= 15 -> v ∉ start ->
  solve id_of int_is (S fuel) pfuel start goal method s = Raise TypeError.
Proof using int_is_eq int_is_small.
  intros Hg Hlen Hvalid Hv Hmiss.
  destruct (init_ok id_of int_is int_is_eq int_is_small goal None None 0 0 s Hg I)
    as (gs & Hgs & _ & _ & Hgb & _ & _ & _ & _ & _ & Hgwf).
  destruct Hgwf as (Hgb' & Hgview & _).
  unfold solve. rewrite Hgs. simpl.
  destruct (init_cells start gs None 0 0 (S s) Hlen Hvalid Hgb' Hgview)
    as [Hok Hbad].
  destruct (decide (Forall (fun t => t ∈ start) (range 1 16))) as [Hall|Hnall].
  - destruct (Hok Hall) as (st & Hst & Hb & Hview). rewrite Hst. simpl.
    assert (Hv0 : v = 0).
    { destruct (decide (v = 0)); [done|]. exfalso. apply Hmiss.
      rewrite Forall_forall in Hall. apply Hall, elem_of_range. lia. }
    subst v. rewrite Hb. unfold list_eqb. rewrite bool_decide_eq_false_2.
    + unfold expand. rewrite Hview, (find_index start 0 Hlen).
      by rewrite (index_absent start 0 Hmiss).
    + intros ->. apply Hmiss. rewrite <- Hgb. apply (board_elem_of _ Hgb'). lia.
  - by rewrite (Hbad Hnall).
Qed.

(** ** Path reconstruction without a parent *)

(** X15: [get_state_path] stops at a state of depth 0 without looking at
    the closed list; for a state of another depth whose parent id is
    the id of no closed state, [get_parent_state] returns [None] and the
    loop raises AttributeError on [None.depth]. *)
Theorem get_state_path_missing_parent (n : PuzzleState)
  (closed_list : list PuzzleState) (fuel : nat) :
  (n.(depth) = 0 -> get_state_path int_is fuel n closed_list = Ok [n]) /\
  (n.(depth) <> 0 ->
   (forall m, m ∈ closed_list -> Some m.(id_no) <> n.(parent_id)) ->
   get_parent_state n closed_list = None /\
   get_state_path int_is (S fuel) n closed_list = Raise AttributeError).
Proof using int_is_eq int_is_small.
  split.
  - intros Hd. unfold get_state_path.
    destruct fuel; simpl; rewrite Hd, int_is_small by lia; reflexivity.
  - intros Hd Hnone.
    assert (Hpar : get_parent_state n closed_list = None).
    { unfold get_parent_state.
      induction closed_list as [|m l IH]; simpl; [reflexivity|].
      rewrite bool_decide_eq_false_2 by (apply Hnone; left).
      apply IH. intros m' Hm'. apply Hnone. by right. }
    split; [exact Hpar|]. unfold get_state_path. simpl.
    destruct (int_is n.(depth) 0) eqn:His; [by apply int_is_eq in His|].
    simpl. by rewrite Hpar.
Qed.

(** ** What a report says, whatever the method *)

Lemma path_chain_result (start : list Z) (closed : list PuzzleState) :
  (forall n, n ∈ closed -> node_ok start closed n) ->
  forall (m : nat) (n : PuzzleState) (acc p : list PuzzleState) (pfuel : nat),
    node_ok start closed n -> n.(depth) = Z.of_nat m ->
    get_state_path_loop int_is pfuel n acc closed = Ok p ->
    exists (chain : list PuzzleState) (ds : list direction),
      p = acc ++ chain /\
      length chain = m /\ length ds = m /\
      slides start ds = Some n.(board_state_1d) /\
      path_cost start ds = n.(g_of_n) /\
      reverse (trace start ds) = n.(board_state_1d) :: (board_state_1d <$> chain).
Proof using int_is_eq int_is_small.
  intros Hclosed m n acc p pfuel Hn Hdep Hrun.
  destruct (decide (m <= pfuel)%nat) as [Hle|Hgt].
  - destruct (path_chain int_is int_is_eq int_is_small start closed Hclosed
                m n acc pfuel Hn Hdep Hle)
      as (chain & ds & Hloop & Hrest).
    rewrite Hrun in Hloop. injection Hloop as ->. by exists chain, ds.
  - exfalso. revert m n acc Hn Hdep Hrun Hgt.
    induction pfuel as [|pfuel IH]; intros m n acc Hn Hdep Hrun Hgt; simpl in Hrun.
    + destruct (int_is n.(depth) 0) eqn:His; simpl in Hrun; [|discriminate].
      apply int_is_eq in His. lia.
    + destruct (int_is n.(depth) 0) eqn:His; simpl in Hrun.
      { apply int_is_eq in His. lia. }
      destruct Hn as [_ [(Hd0 & _)|(par & d & Hpar & Hin & Hch)]]; [lia|].
      rewrite Hpar in Hrun. destruct Hch as (_ & _ & _ & _ & Hd).
      apply (IH (m - 1)%nat par (acc ++ [par]) (Hclosed par Hin)); [lia|done|lia].
Qed.

Lemma report_loop (key : PuzzleState -> Z) (method : string)
  (start goal : list Z) (pfuel : nat) (base : Z) :
  (forall (cs : list PuzzleState) (open_list : list entry) (added : Z),
     push_expansions method cs open_list added =
     (reverse ((fun c => (key c, c.(id_no), c)) <$> cs) ++ open_list,
      added + Z.of_nat (length cs))) ->
  is_board start ->
  forall (fuel : nat) (open_list : list entry) (closed : list PuzzleState)
         (added : Z) (counter s' : nat) (rep : Report),
    frontier_inv id_of key start goal counter open_list closed ->
    Z.of_nat counter = base + added ->
    2 * Z.of_nat (length closed) <= added <= 4 * Z.of_nat (length closed) ->
    solve_loop id_of int_is fuel pfuel goal method open_list closed added counter =
      Ok (rep, s') ->
    exists (ds : list direction) (end_state : PuzzleState)
           (rest : list PuzzleState),
      slides start ds = Some goal /\
      rep.(rep_path) = end_state :: rest /\
      board_state_1d <$> rep.(rep_path) = reverse (trace start ds) /\
      rep.(rep_moves) = Z.of_nat (length ds) /\
      end_state.(g_of_n) = path_cost start ds /\
      rep.(rep_added) = Z.of_nat s' - base /\
      2 * rep.(rep_closed) <= rep.(rep_added) <= 4 * rep.(rep_closed).
Proof using id_of_inj int_is_eq int_is_small.
  intros Hpush Hstart fuel.
  induction fuel as [|fuel IH];
    intros open_list closed added counter s' rep Hinv Hcount Hstat Hrun;
    [discriminate|].
  pose proof Hinv as [Hkeys Hnonempty Hwf Hids Hnodup Hlinked Hcover Hclosed].
  rewrite solve_loop_S in Hrun.
  destruct (heappop open_list) as [[[[p i] cur] open']| |] eqn:Hpop;
    simpl in Hrun; try discriminate.
  destruct (heappop_spec _ _ _ Hpop) as [Hperm _].
  assert (Hcur_front : cur ∈ frontier open_list ++ closed).
  { apply elem_of_app. left. apply (list_elem_of_fmap_2 snd _ (p, i, cur)).
    rewrite Hperm. left. }
  unfold list_eqb in Hrun. case_bool_decide as Hfound.
  - unfold print_success_message, get_state_path in Hrun.
    destruct (get_state_path_loop int_is pfuel cur [cur] closed) as [path| |] eqn:Hpath;
      simpl in Hrun; try discriminate.
    injection Hrun as <- <-.
    destruct (Hlinked cur Hcur_front) as [Hdep0 Hcur_ok].
    destruct (path_chain_result start closed
                (fun n Hn => Hlinked n ltac:(apply elem_of_app; by right))
                (Z.to_nat cur.(depth)) cur [cur] path pfuel
                (conj Hdep0 Hcur_ok) ltac:(lia) Hpath)
      as (chain & ds & -> & Hlc & Hlds & Hs & Hcost & Htrace).
    exists ds, cur, chain. simpl. rewrite Hlc.
    split; [congruence|]. split; [done|]. split; [by rewrite Htrace|].
    split; [lia|]. split; [done|]. lia.
  - destruct (frontier_step key _ _ _ _ _ _ _ _ _ Hinv Hpop Hfound)
      as (cs & Hcs & Hlen & _ & _ & Hinv').
    rewrite Hcs in Hrun. simpl in Hrun. rewrite Hpush in Hrun.
    apply (IH _ _ (added + Z.of_nat (length cs)) _ _ _ Hinv'); [lia| |exact Hrun].
    rewrite length_app. simpl. lia.
Qed.

(** X16: whatever [solve] reports on boards, with one of the three
    methods, is sound: the path is the trace, goal first, of a sequence
    of moves from the start board to the goal board; the number of moves
    is its length and the g of the end state its cost, between one and
    ten times the number of moves; the count of states added to the open
    list is the number of states built after the root, and between two
    and four times the size of the closed list. *)
Theorem solve_report_is_sound (method : string) (start goal : list Z)
  (fuel pfuel s s' : nat) (rep : Report) :
  method = "bfs" \/ method = "a_star_h1" \/ method = "a_star_h2" ->
  is_board start -> is_board goal ->
  solve id_of int_is fuel pfuel start goal method s = Ok (rep, s') ->
  exists (ds : list direction) (end_state : PuzzleState) (rest : list PuzzleState),
    slides start ds = Some goal /\
    rep.(rep_path) = end_state :: rest /\
    board_state_1d <$> rep.(rep_path) = reverse (trace start ds) /\
    rep.(rep_moves) = Z.of_nat (length ds) /\
    end_state.(g_of_n) = path_cost start ds /\
    rep.(rep_moves) <= end_state.(g_of_n) <= 10 * rep.(rep_moves) /\
    rep.(rep_added) = Z.of_nat s' - Z.of_nat s - 2 /\
    2 * rep.(rep_closed) <= rep.(rep_added) <= 4 * rep.(rep_closed).
Proof using id_of_inj int_is_eq int_is_small.
  intros Hm Hstart Hg Hrun.
  assert (Hgen : forall key,
    (forall (cs : list PuzzleState) (open_list : list entry) (added : Z),
       push_expansions method cs open_list added =
       (reverse ((fun c => (key c, c.(id_no), c)) <$> cs) ++ open_list,
        added + Z.of_nat (length cs))) ->
    exists (ds : list direction) (end_state : PuzzleState) (rest : list PuzzleState),
      slides start ds = Some goal /\
      rep.(rep_path) = end_state :: rest /\
      board_state_1d <$> rep.(rep_path) = reverse (trace start ds) /\
      rep.(rep_moves) = Z.of_nat (length ds) /\
      end_state.(g_of_n) = path_cost start ds /\
      rep.(rep_added) = Z.of_nat s' - Z.of_nat (S (S s)) /\
      2 * rep.(rep_closed) <= rep.(rep_added) <= 4 * rep.(rep_closed)).
  { intros key Hpush.
    destruct (init_frontier key start goal s Hstart Hg)
      as (gs & st & Hgs & Hst & _ & _ & _ & _ & _ & _ & _ & _ & _ & Hinv).
    unfold solve in Hrun. rewrite Hgs in Hrun. simpl in Hrun.
    rewrite Hst in Hrun. simpl in Hrun. unfold heappush in Hrun.
    apply (report_loop key method start goal pfuel (Z.of_nat (S (S s))) Hpush Hstart
             fuel _ [] 0 (S (S s)) s' rep Hinv); [lia|simpl; lia|exact Hrun]. }
  assert (Hres : exists (ds : list direction) (end_state : PuzzleState)
                        (rest : list PuzzleState),
      slides start ds = Some goal /\
      rep.(rep_path) = end_state :: rest /\
      board_state_1d <$> rep.(rep_path) = reverse (trace start ds) /\
      rep.(rep_moves) = Z.of_nat (length ds) /\
      end_state.(g_of_n) = path_cost start ds /\
      rep.(rep_added) = Z.of_nat s' - Z.of_nat (S (S s)) /\
      2 * rep.(rep_closed) <= rep.(rep_added) <= 4 * rep.(rep_closed)).
  { destruct Hm as [Hm|[Hm|Hm]]; subst method.
    - apply (Hgen depth). intros cs open_list added. apply push_expansions_bfs.
    - apply (Hgen f1_of_n). intros cs open_list added. apply push_expansions_h1.
    - apply (Hgen f2_of_n). intros cs open_list added. apply push_expansions_h2. }
  destruct Hres as (ds & e & rest & Hs & Hpath & Htrace & Hmoves & Hcost & Hadded & Hstat).
  exists ds, e, rest. repeat (split; [assumption|]).
  pose proof (path_cost_bounds ds _ _ Hstart Hs). rewrite Hmoves, Hcost.
  split; [lia|]. split; [lia|exact Hstat].
Qed.

(** ** The ways out of the loop of [solve] *)

Lemma loop_steps_run (goal : list Z) (method : string) (pfuel k : nat)
  (st st' : loop_state) :
  nsteps (loop_step id_of int_is goal method) k st st' ->
  forall fuel : nat,
    solve_loop id_of int_is (k + fuel) pfuel goal method
      st.1.1.1 st.1.1.2 st.1.2 st.2 =
    solve_loop id_of int_is fuel pfuel goal method
      st'.1.1.1 st'.1.1.2 st'.1.2 st'.2.
Proof.
  induction 1 as [st|k st st1 st' Hstep _ IH]; intros fuel; [reflexivity|].
  destruct Hstep as [open_list open' open'' popped closed added added' s s' cs
                       Hpop Hne Hexp Hpush].
  cbn [fst snd Nat.add] in *. rewrite solve_loop_S, Hpop. simpl.
  unfold list_eqb. rewrite bool_decide_eq_false_2 by exact Hne.
  rewrite Hexp. simpl. rewrite Hpush. apply IH.
Qed.

Lemma loop_exits (goal : list Z) (method : string) (pfuel : nat) :
  forall (fuel : nat) (open_list : list entry) (closed_list : list PuzzleState)
         (added : Z) (s : nat) (r : result (Report * nat)),
    solve_loop id_of int_is fuel pfuel goal method open_list closed_list added s = r ->
    r <> OutOfFuel ->
    exists (k : nat) (open' : list entry) (closed' : list PuzzleState)
           (added' : Z) (s' : nat),
      (k < fuel)%nat /\
      nsteps (loop_step id_of int_is goal method) k
        (open_list, closed_list, added, s) (open', closed', added', s') /\
      ((open' = [] /\ r = Raise IndexError) \/
       (exists (popped : entry) (rest : list entry),
          heappop open' = Ok (popped, rest) /\
          ((popped.2.(board_state_1d) = goal /\
            r = (do report <- print_success_message int_is pfuel popped.2 closed'
                                added' method;
                 Ok (report, s'))) \/
           (popped.2.(board_state_1d) <> goal /\
            exists e : exn,
              expand id_of int_is popped.2 s' = Raise e /\ r = Raise e)))).
Proof.
  induction fuel as [|fuel IH]; intros open_list closed added s r Hrun Hr.
  - simpl in Hrun. congruence.
  - rewrite solve_loop_S in Hrun.
    destruct open_list as [|e0 es] eqn:Hopen.
    + exists 0%nat, [], closed, added, s.
      split; [lia|]. split; [constructor|]. left. split; [reflexivity|].
      simpl in Hrun. congruence.
    + rewrite <- Hopen in *.
      destruct (heappop_nonempty open_list e0) as (popped & open' & Hpop).
      { rewrite Hopen. left. }
      rewrite Hpop in Hrun. simpl in Hrun. unfold list_eqb in Hrun.
      case_bool_decide as Hgoal.
      * exists 0%nat, open_list, closed, added, s.
        split; [lia|]. split; [constructor|]. right.
        exists popped, open'. split; [exact Hpop|]. left. by split.
      * destruct (expand id_of int_is popped.2 s) as [[cs s1]|e|] eqn:Hexp;
          simpl in Hrun.
        -- destruct (push_expansions method cs open' added) as [open'' added'']
             eqn:Hpush.
           destruct (IH _ _ _ _ _ Hrun Hr)
             as (k & o & c & a & s2 & Hk & Hsteps & Hout).
           exists (S k), o, c, a, s2. split; [lia|]. split; [|exact Hout].
           eapply nsteps_l; [|exact Hsteps].
           by eapply loop_step_intro.
        -- exists 0%nat, open_list, closed, added, s.
           split; [lia|]. split; [constructor|]. right.
           exists popped, open'. split; [exact Hpop|]. right.
           split; [exact Hgoal|]. exists e. by split.
        -- congruence.
Qed.

Lemma solve_raise_is_empty_frontier (fuel pfuel : nat) (start goal : list Z)
  (method : string) (s : nat) (e : exn) :
  is_board start -> is_board goal ->
  solve id_of int_is fuel pfuel start goal method s = Raise e ->
  e = IndexError /\
  String.eqb method "bfs" = false /\
  String.eqb method "a_star_h1" = false /\
  String.eqb method "a_star_h2" = false /\
  exists (gs st : PuzzleState) (k : nat) (closed' : list PuzzleState)
         (added' : Z) (s' : nat),
    PuzzleState_init id_of int_is goal None None 0 0 s = Ok (gs, S s) /\
    PuzzleState_init id_of int_is start (Some gs) None 0 0 (S s) =
      Ok (st, S (S s)) /\
    (k < fuel)%nat /\
    nsteps (loop_step id_of int_is goal method) k
      ([(0, st.(id_no), st)], [], 0, S (S s)) ([], closed', added', s').
Proof using id_of_inj int_is_eq int_is_small.
  intros Hs Hg Hrun.
  assert (Hsafe : forall key,
    (forall (cs : list PuzzleState) (open_list : list entry) (added : Z),
       push_expansions method cs open_list added =
       (reverse ((fun c => (key c, c.(id_no), c)) <$> cs) ++ open_list,
        added + Z.of_nat (length cs))) -> False).
  { intros key Hpush.
    destruct (safe_solve key method start goal fuel pfuel s Hpush Hs Hg)
      as [(rep & s' & Hok)|Hout]; congruence. }
  destruct (String.eqb method "bfs") eqn:H1.
  { apply String.eqb_eq in H1. subst method. exfalso.
    apply (Hsafe depth). intros cs open_list added. apply push_expansions_bfs. }
  destruct (String.eqb method "a_star_h1") eqn:H2.
  { apply String.eqb_eq in H2. subst method. exfalso.
    apply (Hsafe f1_of_n). intros cs open_list added. apply push_expansions_h1. }
  destruct (String.eqb method "a_star_h2") eqn:H3.
  { apply String.eqb_eq in H3. subst method. exfalso.
    apply (Hsafe f2_of_n). intros cs open_list added. apply push_expansions_h2. }
  destruct (init_pair id_of int_is int_is_eq int_is_small start goal s Hs Hg)
    as (gs & st & Hgs & Hst & Hid & Hbd & Hpar & Hcost & Hdep & Hwf).
  destruct (expand_ok id_of int_is int_is_eq int_is_small st (S (S s)) Hwf)
    as (cs & Hcs & _).
  unfold solve in Hrun. rewrite Hgs in Hrun. simpl in Hrun.
  rewrite Hst in Hrun. simpl in Hrun. unfold heappush in Hrun.
  destruct fuel as [|fuel]; [discriminate|].
  rewrite solve_loop_S in Hrun. simpl in Hrun. unfold list_eqb in Hrun.
  rewrite Hbd in Hrun. case_bool_decide as Hgoal.
  - unfold print_success_message, get_state_path in Hrun.
    assert (Hpath : get_state_path_loop int_is pfuel st [st] [] = Ok [st]).
    { destruct pfuel; simpl; rewrite Hdep, int_is_small by lia; reflexivity. }
    rewrite Hpath in Hrun. discriminate.
  - rewrite Hcs in Hrun. simpl in Hrun.
    rewrite (push_expansions_other method cs H1 H2 H3) in Hrun.
    destruct fuel as [|fuel]; [discriminate|].
    rewrite solve_loop_S in Hrun. simpl in Hrun. injection Hrun as <-.
    split; [reflexivity|]. repeat (split; [reflexivity|]).
    exists gs, st, 1%nat, [st], (0 + Z.of_nat (length cs)),
           (S (S s) + length cs)%nat.
    split; [exact Hgs|]. split; [exact Hst|]. split; [lia|].
    apply nsteps_once.
    apply (loop_step_intro id_of int_is goal method
             [(0, id_no st, st)] [] [] (0, id_no st, st) [] 0
             (0 + Z.of_nat (length cs)) (S (S s)) (S (S s) + length cs)%nat cs).
    + reflexivity.
    + simpl. by rewrite Hbd.
    + exact Hcs.
    + apply (push_expansions_other method cs H1 H2 H3).
Qed.

(** C7: with an empty frontier the loop of [solve] raises the IndexError
    of [heappop]; the frontier does become empty, when the method is none
    of the three and so nothing is pushed; and whenever the loop reports,
    the end state of the reported path holds the goal board.  There is no
    other guard: however many passes have popped a state that is not the
    goal, expanded it and pushed, an empty frontier then raises the
    IndexError; the loop stops only on an empty frontier, on a popped
    state that holds the goal board, with what [print_success_message]
    gives, or on an exception of [expand]; and on boards the only
    exception of [solve] is that IndexError, after passes that emptied
    the frontier, with a method that is none of the three. *)
Theorem solve_empty_frontier_raises :
  (forall (fuel pfuel : nat) (goal : list Z) (method : string)
          (closed_list : list PuzzleState) (added : Z) (s : nat),
     solve_loop id_of int_is (S fuel) pfuel goal method [] closed_list added s =
     Raise IndexError) /\
  (forall (fuel pfuel : nat) (start goal : list Z) (method : string) (s : nat),
     is_board start -> is_board goal -> start <> goal ->
     String.eqb method "bfs" = false ->
     String.eqb method "a_star_h1" = false ->
     String.eqb method "a_star_h2" = false ->
     solve id_of int_is (S (S fuel)) pfuel start goal method s = Raise IndexError) /\
  (forall (fuel pfuel : nat) (goal : list Z) (method : string)
          (open_list : list entry) (closed_list : list PuzzleState) (added : Z)
          (s s' : nat) (rep : Report),
     solve_loop id_of int_is fuel pfuel goal method open_list closed_list added s =
       Ok (rep, s') ->
     exists end_state rest,
       rep.(rep_path) = end_state :: rest /\ end_state.(board_state_1d) = goal) /\
  (forall (k fuel pfuel : nat) (goal : list Z) (method : string)
          (open_list : list entry) (closed_list closed' : list PuzzleState)
          (added added' : Z) (s s' : nat),
     nsteps (loop_step id_of int_is goal method) k
       (open_list, closed_list, added, s) ([], closed', added', s') ->
     solve_loop id_of int_is (k + S fuel) pfuel goal method open_list closed_list
       added s = Raise IndexError) /\
  (forall (fuel pfuel : nat) (goal : list Z) (method : string)
          (open_list : list entry) (closed_list : list PuzzleState) (added : Z)
          (s : nat) (r : result (Report * nat)),
     solve_loop id_of int_is fuel pfuel goal method open_list closed_list added s = r ->
     r <> OutOfFuel ->
     exists (k : nat) (open' : list entry) (closed' : list PuzzleState)
            (added' : Z) (s' : nat),
       (k < fuel)%nat /\
       nsteps (loop_step id_of int_is goal method) k
         (open_list, closed_list, added, s) (open', closed', added', s') /\
       ((open' = [] /\ r = Raise IndexError) \/
        (exists (popped : entry) (rest : list entry),
           heappop open' = Ok (popped, rest) /\
           ((popped.2.(board_state_1d) = goal /\
             r = (do report <- print_success_message int_is pfuel popped.2 closed'
                                 added' method;
                  Ok (report, s'))) \/
            (popped.2.(board_state_1d) <> goal /\
             exists e : exn,
               expand id_of int_is popped.2 s' = Raise e /\ r = Raise e))))) /\
  (forall (fuel pfuel : nat) (start goal : list Z) (method : string) (s : nat)
          (e : exn),
     is_board start -> is_board goal ->
     solve id_of int_is fuel pfuel start goal method s = Raise e ->
     e = IndexError /\
     String.eqb method "bfs" = false /\
     String.eqb method "a_star_h1" = false /\
     String.eqb method "a_star_h2" = false /\
     exists (gs st : PuzzleState) (k : nat) (closed' : list PuzzleState)
            (added' : Z) (s' : nat),
       PuzzleState_init id_of int_is goal None None 0 0 s = Ok (gs, S s) /\
       PuzzleState_init id_of int_is start (Some gs) None 0 0 (S s) =
         Ok (st, S (S s)) /\
       (k < fuel)%nat /\
       nsteps (loop_step id_of int_is goal method) k
         ([(0, st.(id_no), st)], [], 0, S (S s)) ([], closed', added', s')).
Proof using id_of_inj int_is_eq int_is_small.
  split; [|split; [|split; [|split; [|split]]]].
  - reflexivity.
  - intros fuel pfuel start goal method s Hs Hg Hne H1 H2 H3.
    destruct (init_pair id_of int_is int_is_eq int_is_small start goal s Hs Hg)
      as (gs & st & Hgs & Hst & Hid & Hbd & Hpar & Hcost & Hdep & Hwf).
    unfold solve. rewrite Hgs. simpl. rewrite Hst. simpl.
    rewrite Hbd. unfold list_eqb. rewrite bool_decide_eq_false_2 by exact Hne.
    destruct (expand_ok id_of int_is int_is_eq int_is_small st (S (S s)) Hwf)
      as (cs & Hcs & _).
    rewrite Hcs. simpl.
    rewrite (push_expansions_other method cs H1 H2 H3). reflexivity.
  - intros fuel pfuel goal method. apply solve_loop_reports_goal.
  - intros k fuel pfuel goal method open_list closed closed' added added' s s' Hsteps.
    apply (loop_steps_run goal method pfuel k _ _ Hsteps (S fuel)).
  - intros fuel pfuel goal method. apply loop_exits.
  - intros fuel pfuel start goal method s e. apply solve_raise_is_empty_frontier.
Qed.

End Best_first.

(** ** The further properties at the sample boards *)

Lemma find_sixteen_cells_witness :
  (find (to_2d_array start_board3_twice_11) 11 = Ok None <->
   11 ∉ start_board3_twice_11) /\
  (forall row col : Z,
     find (to_2d_array start_board3_twice_11) 11 = Ok (Some (row, col)) ->
     exists i : nat,
       row = Z.of_nat i / 4 /\ col = Z.of_nat i mod 4 /\
       start_board3_twice_11 !! i = Some 11 /\
       forall j, (j < i)%nat -> start_board3_twice_11 !! j <> Some 11) /\
  (forall e : exn, find (to_2d_array start_board3_twice_11) 11 <> Raise e) /\
  find (to_2d_array start_board3_twice_11) 11 <> OutOfFuel.
Proof. apply (find_sixteen_cells start_board3_twice_11 11). reflexivity. Defined.

Lemma find_short_board_raises_witness :
  find (to_2d_array [1; 2; 3]) 0 = Raise IndexError.
Proof.
  apply (find_short_board_raises [1; 2; 3] 0).
  - simpl. lia.
  - by_compute.
Defined.

Lemma h2_zero_iff_goal_witness :
  exists h : Z,
    estimated_cost_to_goal_h2 (to_2d_array start_board3) (Some sample_goal_state) =
      Ok h /\
    0 <= h /\ (h = 0 <-> start_board3 = sample_goal_state.(board_state_1d)).
Proof.
  apply (h2_zero_iff_goal start_board3 sample_goal_state).
  - unfold is_board. by_compute.
  - unfold is_board. by_compute.
  - reflexivity.
Defined.

Lemma h1_strictly_below_h2_witness :
  exists h1 h2 : Z,
    estimated_cost_to_goal_h1 Z.eqb start_board3 (Some sample_goal_state) = Ok h1 /\
    estimated_cost_to_goal_h2 (to_2d_array start_board3) (Some sample_goal_state) =
      Ok h2 /\
    h1 < h2.
Proof.
  apply (h1_strictly_below_h2 Z.eqb
           (fun a b H => proj1 (Z.eqb_eq a b) H)
           (fun a _ => Z.eqb_refl a) start_board3 sample_goal_state).
  - unfold is_board. by_compute.
  - unfold is_board. by_compute.
  - reflexivity.
Defined.

Lemma heuristics_never_overestimate_witness :
  exists h1 h2 : Z,
    estimated_cost_to_goal_h1 Z.eqb detour_start (Some detour_goal_state) = Ok h1 /\
    estimated_cost_to_goal_h2 (to_2d_array detour_start) (Some detour_goal_state) =
      Ok h2 /\
    h1 < path_cost detour_start detour_cheap /\
    h2 <= path_cost detour_start detour_cheap.
Proof.
  apply (heuristics_never_overestimate Z.eqb
           (fun a b H => proj1 (Z.eqb_eq a b) H)
           (fun a _ => Z.eqb_refl a) detour_start detour_goal_state detour_cheap).
  - unfold is_board. by_compute.
  - reflexivity.
  - reflexivity.
Defined.

Lemma a_star_least_cost_witness :
  exists (rep : Report) (s' : nat) (ds : list direction)
         (end_state : PuzzleState) (rest : list PuzzleState),
    solve Z.of_nat Z.eqb 6 1 start_board3 start_board3_right "a_star_h2" 0%nat =
      Ok (rep, s') /\
    slides start_board3 ds = Some start_board3_right /\
    board_state_1d <$> rep.(rep_path) = reverse (trace start_board3 ds) /\
    rep.(rep_moves) = Z.of_nat (length ds) /\
    rep.(rep_path) = end_state :: rest /\
    end_state.(g_of_n) = path_cost start_board3 ds /\
    (forall ds', slides start_board3 ds' = Some start_board3_right ->
                 end_state.(g_of_n) <= path_cost start_board3 ds').
Proof.
  apply (a_star_least_cost Z.of_nat Nat2Z.inj Z.eqb
           (fun a b H => proj1 (Z.eqb_eq a b) H)
           (fun a _ => Z.eqb_refl a)
           "a_star_h2" start_board3 start_board3_right [right] 6%nat 1%nat 0%nat).
  - by right.
  - unfold is_board. by_compute.
  - reflexivity.
  - by_compute.
  - by_compute.
Defined.

Lemma solve_never_raises_witness :
  (exists rep s' end_state rest,
     solve Z.of_nat Z.eqb 3 0 start_board3 goal_board "a_star_h1" 0%nat =
       Ok (rep, s') /\
     rep.(rep_path) = end_state :: rest /\
     end_state.(board_state_1d) = goal_board) \/
  solve Z.of_nat Z.eqb 3 0 start_board3 goal_board "a_star_h1" 0%nat = OutOfFuel.
Proof.
  apply (solve_never_raises Z.of_nat Nat2Z.inj Z.eqb
           (fun a b H => proj1 (Z.eqb_eq a b) H)
           (fun a _ => Z.eqb_refl a)
           "a_star_h1" start_board3 goal_board 3%nat 0%nat 0%nat).
  - right. by left.
  - unfold is_board. by_compute.
  - unfold is_board. by_compute.
Defined.

Lemma solve_all_reports_witness :
  exists (bfs a1 a2 : Report) (s' : nat) (e0 e1 e2 : PuzzleState)
         (r0 r1 r2 : list PuzzleState),
    solve_all Z.of_nat Z.eqb 6 1 start_board3 start_board3_right 0%nat =
      Ok ((bfs, a1, a2), s') /\
    bfs.(rep_path) = e0 :: r0 /\ a1.(rep_path) = e1 :: r1 /\
    a2.(rep_path) = e2 :: r2 /\
    e0.(board_state_1d) = start_board3_right /\
    e1.(board_state_1d) = start_board3_right /\
    e2.(board_state_1d) = start_board3_right /\
    bfs.(rep_moves) <= a1.(rep_moves) /\ bfs.(rep_moves) <= a2.(rep_moves) /\
    e1.(g_of_n) = e2.(g_of_n) /\ e1.(g_of_n) <= e0.(g_of_n).
Proof.
  apply (solve_all_reports Z.of_nat Nat2Z.inj Z.eqb
           (fun a b H => proj1 (Z.eqb_eq a b) H)
           (fun a _ => Z.eqb_refl a)
           start_board3 start_board3_right [right] 6%nat 1%nat 0%nat).
  - unfold is_board. by_compute.
  - reflexivity.
  - by_compute.
  - by_compute.
Defined.

Lemma move_does_not_check_direction_witness :
  exists (c : PuzzleState) (t : Z) (tp : nat),
    Z.of_nat tp = (if Z.of_nat 1 + dirs up <? 0
                   then Z.of_nat 1 + dirs up + 16 else Z.of_nat 1 + dirs up) /\
    sample_start_state.(board_state_1d) !! tp = Some t /\
    move Z.of_nat Z.eqb sample_start_state up 2%nat = Ok (c, 3%nat) /\
    c.(board_state_1d) =
      <[tp := 0]> (<[1%nat := t]> sample_start_state.(board_state_1d)) /\
    is_board c.(board_state_1d) /\
    c.(g_of_n) = sample_start_state.(g_of_n) + tile_weight t.
Proof.
  assert (Hwf : wf_state sample_start_state) by sample_wf.
  apply (proj2 (move_does_not_check_direction Z.of_nat Z.eqb
                  (fun a b H => proj1 (Z.eqb_eq a b) H)
                  (fun a _ => Z.eqb_refl a)
                  sample_start_state up 1%nat 2%nat Hwf eq_refl)).
  simpl. lia.
Defined.

Lemma move_opposite_restores_board_witness :
  exists (c c2 : PuzzleState) (t : Z),
    sample_start_state.(board_state_1d) !!
      Z.to_nat (4 * (step_pos 0 1 right).1 + (step_pos 0 1 right).2) = Some t /\
    1 <= t <= 15 /\
    move Z.of_nat Z.eqb sample_start_state right 2%nat = Ok (c, 3%nat) /\
    c.(board_state_1d) !! Z.to_nat (4 * 0 + 1) = Some t /\
    c.(g_of_n) = sample_start_state.(g_of_n) + tile_weight t /\
    find c.(board_state) 0 = Ok (Some (step_pos 0 1 right)) /\
    dir_ok (step_pos 0 1 right).1 (step_pos 0 1 right).2 (opposite right) = true /\
    move Z.of_nat Z.eqb c (opposite right) 3%nat = Ok (c2, 4%nat) /\
    c2.(board_state_1d) = sample_start_state.(board_state_1d) /\
    c2.(g_of_n) = sample_start_state.(g_of_n) + 2 * tile_weight t /\
    c2.(depth) = sample_start_state.(depth) + 2 /\
    c2.(parent_id) = Some c.(id_no).
Proof.
  assert (Hwf : wf_state sample_start_state) by sample_wf.
  exact (move_opposite_restores_board Z.of_nat Z.eqb
           (fun a b H => proj1 (Z.eqb_eq a b) H)
           (fun a _ => Z.eqb_refl a)
           sample_start_state 0 1 right 2%nat Hwf eq_refl eq_refl).
Defined.

Lemma h1_raises_on_bad_lists_witness :
  estimated_cost_to_goal_h1 Z.eqb (goal_board ++ [3]) (Some sample_goal_state) =
    Raise IndexError /\
  estimated_cost_to_goal_h1 Z.eqb ([1; 2] ++ 16 :: [4]) (Some sample_goal_state) =
    Raise TypeError.
Proof.
  pose proof (h1_raises_on_bad_lists Z.eqb
                (fun a b H => proj1 (Z.eqb_eq a b) H)
                (fun a _ => Z.eqb_refl a) sample_goal_state) as [H1 H2].
  split.
  - apply H1; [|simpl; lia]. repeat (constructor; [lia|]). constructor.
  - apply (H2 [1; 2] [4] 16 3); [|lia|reflexivity|lia].
    repeat (constructor; [lia|]). constructor.
Defined.

Lemma solve_raises_on_missing_tile_witness :
  solve Z.of_nat Z.eqb 1 0 start_board3_twice_11 goal_board "bfs" 0%nat =
    Raise TypeError.
Proof.
  apply (solve_raises_on_missing_tile Z.of_nat Z.eqb
           (fun a b H => proj1 (Z.eqb_eq a b) H)
           (fun a _ => Z.eqb_refl a)
           start_board3_twice_11 goal_board 15 "bfs" 0%nat 0%nat 0%nat).
  - unfold is_board. by_compute.
  - reflexivity.
  - repeat (constructor; [lia|]). constructor.
  - lia.
  - by_compute.
Defined.

Lemma get_state_path_missing_parent_witness :
  get_state_path Z.eqb 0 sample_start_state [] = Ok [sample_start_state].
Proof.
  apply (proj1 (get_state_path_missing_parent Z.eqb
                  (fun a b H => proj1 (Z.eqb_eq a b) H)
                  (fun a _ => Z.eqb_refl a) sample_start_state [] 0%nat)).
  reflexivity.
Defined.

Lemma solve_report_is_sound_witness :
  exists (rep : Report) (s' : nat),
    solve Z.of_nat Z.eqb 6 1 start_board3 start_board3_right "bfs" 0%nat =
      Ok (rep, s') /\
    exists (ds : list direction) (end_state : PuzzleState) (rest : list PuzzleState),
      slides start_board3 ds = Some start_board3_right /\
      rep.(rep_path) = end_state :: rest /\
      board_state_1d <$> rep.(rep_path) = reverse (trace start_board3 ds) /\
      rep.(rep_moves) = Z.of_nat (length ds) /\
      end_state.(g_of_n) = path_cost start_board3 ds /\
      rep.(rep_moves) <= end_state.(g_of_n) <= 10 * rep.(rep_moves) /\
      rep.(rep_added) = Z.of_nat s' - Z.of_nat 0 - 2 /\
      2 * rep.(rep_closed) <= rep.(rep_added) <= 4 * rep.(rep_closed).
Proof.
  assert (Hrun : exists (rep : Report) (s' : nat),
             solve Z.of_nat Z.eqb 6 1 start_board3 start_board3_right "bfs" 0%nat =
               Ok (rep, s')) by (vm_compute; eauto).
  destruct Hrun as (rep & s' & Hrun). exists rep, s'. split; [exact Hrun|].
  apply (solve_report_is_sound Z.of_nat Nat2Z.inj Z.eqb
           (fun a b H => proj1 (Z.eqb_eq a b) H)
           (fun a _ => Z.eqb_refl a)
           "bfs" start_board3 start_board3_right 6%nat 1%nat 0%nat s' rep).
  - by left.
  - unfold is_board. by_compute.
  - unfold is_board. by_compute.
  - exact Hrun.
Defined.

Lemma solve_empty_frontier_raises_witness :
  solve Z.of_nat Z.eqb 2 0 start_board3 goal_board "dfs" 0%nat = Raise IndexError /\
  exists (gs st : PuzzleState) (k : nat) (closed' : list PuzzleState)
         (added' : Z) (s' : nat),
    PuzzleState_init Z.of_nat Z.eqb goal_board None None 0 0 0%nat = Ok (gs, 1%nat) /\
    PuzzleState_init Z.of_nat Z.eqb start_board3 (Some gs) None 0 0 1%nat =
      Ok (st, 2%nat) /\
    (k < 2)%nat /\
    nsteps (loop_step Z.of_nat Z.eqb goal_board "dfs") k
      ([(0, st.(id_no), st)], [], 0, 2%nat) ([], closed', added', s').
Proof.
  pose proof (solve_empty_frontier_raises Z.of_nat Nat2Z.inj Z.eqb
                (fun a b H => proj1 (Z.eqb_eq a b) H)
                (fun a _ => Z.eqb_refl a)) as (_ & H2 & _ & _ & _ & H6).
  assert (Hs : is_board start_board3) by (unfold is_board; by_compute).
  assert (Hg : is_board goal_board) by (unfold is_board; by_compute).
  assert (Hrun : solve Z.of_nat Z.eqb 2 0 start_board3 goal_board "dfs" 0%nat =
                 Raise IndexError).
  { apply H2; [exact Hs|exact Hg|discriminate|reflexivity|reflexivity|reflexivity]. }
  split; [exact Hrun|].
  exact (proj2 (proj2 (proj2 (proj2
           (H6 2%nat 0%nat start_board3 goal_board "dfs" 0%nat IndexError
               Hs Hg Hrun))))).
Defined.
